(** * geoscience-skills: a shallow embedding of the scripts and their properties

    The repository is a set of independent command-line scripts.  Each
    section below embeds one script: Python floats are idealised as
    rationals ([Q]), Python exceptions are values of [exn] threaded through
    a result type, mutable objects live in an explicit store, and the
    functions of third-party packages (numpy, obspy, lasio, bruges, SimPEG,
    pyGIMLi, PyYAML) are parameters: the variables of a section or the
    fields of a record of operations. *)

From Stdlib Require Import QArith Lqa Permutation.
From Stdlib Require Import Ascii.
From stdpp Require Import gmap strings list pretty.

Local Open Scope string_scope.
Local Open Scope list_scope.

(** ** Python exceptions and results *)

(** An exception instance: its class name and [str(e)]. *)
Record exn := Exc { exn_class : string; exn_msg : string }.

(** The outcome of evaluating a Python expression or call. *)
Inductive result (A : Type) : Type :=
| Ok (a : A)
| Raise (e : exn).
Arguments Ok {A} a.
Arguments Raise {A} e.

Definition result_bind {A B} (r : result A) (k : A -> result B) : result B :=
  match r with
  | Ok a => k a
  | Raise e => Raise e
  end.

#[global] Instance result_ret : MRet result := fun _ a => Ok a.
#[global] Instance result_mbind : MBind result := fun _ _ k r => result_bind r k.

Definition is_ok {A} (r : result A) : bool :=
  match r with Ok _ => true | Raise _ => false end.

(** The part of the built-in exception hierarchy the scripts rely on:
    [py_subclass c d] holds when class [c] is [d] or derives from it. *)
Definition py_subclass (c d : string) : bool :=
  String.eqb c d
  || (String.eqb d "ImportError" && String.eqb c "ModuleNotFoundError")
  || (String.eqb d "ValueError" && String.eqb c "UnicodeDecodeError")
  || (String.eqb d "ValueError" && String.eqb c "JSONDecodeError")
  || String.eqb d "Exception".

(** [except cls:] matches the raised instance. *)
Definition isinstance (e : exn) (cls : string) : bool :=
  py_subclass (exn_class e) cls.

(** [seq[i]] on a Python sequence with a non-negative index. *)
Definition py_index {A} (l : list A) (i : nat) : result A :=
  match l !! i with
  | Some a => Ok a
  | None => Raise (Exc "IndexError" "index out of range")
  end.

(** ** Python values *)

(** The values that travel through the scripts as plain data: what a
    result dict stores, what a YAML or JSON document decodes to. *)
#[warnings="-register-all"]
Inductive pyval :=
| PyNone
| PyBool (b : bool)
| PyInt (z : Z)
| PyFloat (q : Q)
| PyStr (s : string)
| PyList (l : list pyval)
| PyDict (items : list (pyval * pyval)).

(** ** Scripts as processes

    A script run makes calls into external packages, prints lines, and
    ends by returning, by an uncaught exception or by [sys.exit]. *)
Module Host.

(** One call into an external package: the function, class or receiver's
    class, and the method name (empty for a plain call). *)
Record call := { callee : string; method : string }.

Record world := { calls : list call; stdout : list string }.

Definition empty_world : world := {| calls := []; stdout := [] |}.

Inductive outcome (A : Type) : Type :=
| Returned (a : A)
| Raised (e : exn)
| Exited (code : Z).
Arguments Returned {A} a.
Arguments Raised {A} e.
Arguments Exited {A} code.

Definition script (A : Type) : Type := world -> outcome A * world.

#[global] Instance script_ret : MRet script := fun _ a w => (Returned a, w).
#[global] Instance script_bind : MBind script := fun _ _ k m w =>
  match m w with
  | (Returned a, w') => k a w'
  | (Raised e, w') => (Raised e, w')
  | (Exited c, w') => (Exited c, w')
  end.

(** A call into an external package, with the answer the package gives. *)
Definition extcall {A} (callee method : string) (answer : result A) : script A :=
  fun w =>
    let w' := {| calls := calls w ++ [{| callee := callee; method := method |}];
                 stdout := stdout w |} in
    match answer with
    | Ok a => (Returned a, w')
    | Raise e => (Raised e, w')
    end.

(** A call that may end the process instead of returning: the exit status,
    or the value returned. *)
Definition extcall_or_exit {A} (callee method : string) (answer : Z + A) : script A :=
  fun w =>
    let w' := {| calls := calls w ++ [{| callee := callee; method := method |}];
                 stdout := stdout w |} in
    match answer with
    | inl code => (Exited code, w')
    | inr a => (Returned a, w')
    end.

(** An operation of the language itself that may raise (indexing, [float]). *)
Definition eval {A} (r : result A) : script A := fun w =>
  match r with
  | Ok a => (Returned a, w)
  | Raise e => (Raised e, w)
  end.

Definition print (line : string) : script unit := fun w =>
  (Returned tt, {| calls := calls w; stdout := stdout w ++ [line] |}).

(** [sys.exit(code)] and the built-in [exit(code)]. *)
Definition sys_exit {A} (code : Z) : script A := fun w => (Exited code, w).

(** [try: body except (cls, ...): handler]. *)
Definition try_except {A} (body : script A) (classes : list string)
    (handler : exn -> script A) : script A := fun w =>
  match body w with
  | (Raised e, w') =>
      if existsb (isinstance e) classes then handler e w' else (Raised e, w')
  | r => r
  end.

(** [for x in xs: body x]. *)
Fixpoint for_each {A} (xs : list A) (body : A -> script unit) : script unit :=
  match xs with
  | [] => mret tt
  | x :: rest => _ ← body x; for_each rest body
  end.

(** The status the interpreter hands to the operating system. *)
Definition exit_status {A} (o : outcome A) : Z :=
  match o with
  | Returned _ => 0
  | Raised _ => 1
  | Exited code => code
  end.

(** How many calls of a method a run made. *)
Definition is_method (name : string) (c : call) : bool := String.eqb (method c) name.

Definition count_method (name : string) (w : world) : nat :=
  length (List.filter (is_method name) (calls w)).

(** The calls a run made into argparse. *)
Definition is_argparse (c : call) : bool := String.prefix "argparse" (callee c).

Definition argparse_calls (w : world) : list call :=
  List.filter is_argparse (calls w).

Abbreviation not_argparse := (fun c : call => negb (is_argparse c)).

(** A script that ends the same way in every world. *)
Definition ends {A} (m : script A) (o : outcome A) : Prop :=
  forall w, (m w).1 = o.

(** Every call a script adds to the log satisfies [P]. *)
Definition only_calls {A} (P : call -> bool) (m : script A) : Prop :=
  forall w, exists cs, calls (m w).2 = calls w ++ cs /\ forallb P cs = true.

(** [m] prints nothing. *)
Definition silent {A} (m : script A) : Prop :=
  forall w, stdout (m w).2 = stdout w.

End Host.

(** ** pathlib

    Pure paths as [pathlib] has them on a POSIX system: a path is its root
    and the list of its components. Empty components and "." are dropped
    when a string is parsed, ".." is kept. *)

Module Pathlib.

Record PurePath := { root : string; parts : list string }.

(** [s.split("/")]. *)
Fixpoint split_slash (s : string) : list string :=
  match s with
  | EmptyString => [EmptyString]
  | String c s' =>
      if Ascii.eqb c "/" then EmptyString :: split_slash s'
      else match split_slash s' with
           | x :: xs => String c x :: xs
           | [] => [String c EmptyString]
           end
  end.

(** The root of a path string and what follows it: the root is "/" for
    one leading slash and for three or more, "//" for exactly two. *)
Definition splitroot (s : string) : string * string :=
  match s with
  | String c1 s1 =>
      if Ascii.eqb c1 "/" then
        match s1 with
        | String c2 s2 =>
            if Ascii.eqb c2 "/" then
              match s2 with
              | String c3 _ => if Ascii.eqb c3 "/" then ("/", s1) else ("//", s2)
              | EmptyString => ("//", s2)
              end
            else ("/", s1)
        | EmptyString => ("/", s1)
        end
      else ("", s)
  | EmptyString => ("", s)
  end.

Definition is_component (x : string) : bool :=
  negb (String.eqb x "") && negb (String.eqb x ".").

(** [Path(s)]. *)
Definition Path (s : string) : PurePath :=
  {| root := (splitroot s).1;
     parts := List.filter is_component (split_slash (splitroot s).2) |}.

(** [str(p)]. *)
Definition str (p : PurePath) : string :=
  let s := String.append (root p) (String.concat "/" (parts p)) in
  if String.eqb s "" then "." else s.

(** [p / s]: an absolute [s] replaces [p]. *)
Definition joinpath (p : PurePath) (s : string) : PurePath :=
  let q := Path s in
  if String.eqb (root q) "" then {| root := root p; parts := parts p ++ parts q |}
  else q.

(** [p.name]: the final component, if any. *)
Definition name (p : PurePath) : string := default "" (last (parts p)).

(** The index of the last occurrence of [c] in [s]. *)
Fixpoint rfind (c : Ascii.ascii) (s : string) : option nat :=
  match s with
  | EmptyString => None
  | String a s' =>
      match rfind c s' with
      | Some i => Some (S i)
      | None => if Ascii.eqb a c then Some 0%nat else None
      end
  end.

(** [p.stem]: the final component without its last suffix. *)
Definition stem (p : PurePath) : string :=
  let name := name p in
  match rfind "."%char name with
  | Some i =>
      if (0 <? i)%nat && (i <? String.length name - 1)%nat
      then String.substring 0 i name else name
  | None => name
  end.

End Pathlib.

(** ** bruges/scripts/avo_analysis.py *)

Module AvoAnalysis.

(** The dataclass [LayerProperties]: three float fields. *)
Record LayerProperties := { vp : Q; vs : Q; rho : Q }.

(** Instances of the dataclass are mutable objects handed around by
    reference: the store maps object identities to their current fields. *)
Definition loc := nat.
Abbreviation heap := (gmap loc LayerProperties).

(** Computations that may read or write the store and may raise. *)
Definition M (A : Type) : Type := heap -> result A * heap.

#[global] Instance M_ret : MRet M := fun _ a h => (Ok a, h).
#[global] Instance M_bind : MBind M := fun _ _ k m h =>
  match m h with
  | (Ok a, h') => k a h'
  | (Raise e, h') => (Raise e, h')
  end.

Definition lift {A} (r : result A) : M A := fun h => (r, h).

(** [obj.field]: an attribute read. *)
Definition getattr (l : loc) (field : LayerProperties -> Q) : M Q := fun h =>
  match h !! l with
  | Some o => (Ok (field o), h)
  | None => (Raise (Exc "AttributeError" "no such object"), h)
  end.

(** Python float division. *)
Definition py_div (x y : Q) : result Q :=
  if Qeq_bool y 0 then Raise (Exc "ZeroDivisionError" "float division by zero")
  else Ok (x / y)%Q.

(** The value [shuey] computes, as a closed form in the layers' fields. *)
Section ClosedForm.
Variables (np_sin np_deg2rad : Q -> Q).
Variables (L1 L2 : LayerProperties).

Definition vp_avg : Q := ((vp L1 + vp L2) / 2)%Q.
Definition vs_avg : Q := ((vs L1 + vs L2) / 2)%Q.
Definition rho_avg : Q := ((rho L1 + rho L2) / 2)%Q.

Definition shuey_R0 : Q :=
  ((1#2) * ((vp L2 - vp L1) / vp_avg + (rho L2 - rho L1) / rho_avg))%Q.

Definition shuey_G : Q :=
  ((1#2) * (vp L2 - vp L1) / vp_avg
   - 2 * (vs_avg / vp_avg) ^ 2
     * ((rho L2 - rho L1) / rho_avg + 2 * (vs L2 - vs L1) / vs_avg))%Q.

Definition shuey_Rpp (theta : list Q) : list Q :=
  map (fun t => (shuey_R0 + shuey_G * np_sin (np_deg2rad t) ^ 2)%Q) theta.
End ClosedForm.

Section Scripts.
(** numpy's elementwise [sin] and [deg2rad]. *)
Variables (np_sin np_deg2rad : Q -> Q).
(** [np.polyfit(x, y, deg)]: coefficients, highest power first. *)
Variable np_polyfit : list Q -> list Q -> nat -> result (list Q).
(** [from bruges.reflection import zoeppritz]: the imported routine, or
    the exception the import statement raises. *)
Variable import_bruges_zoeppritz :
  result (Q -> Q -> Q -> Q -> Q -> Q -> list Q -> result (list Q)).

Definition shuey (layer1 layer2 : loc) (theta : list Q) : M (list Q) :=
  let theta_rad := map np_deg2rad theta in
  (* Contrasts *)
  a ← getattr layer2 vp; b ← getattr layer1 vp; let dvp := (a - b)%Q in
  a ← getattr layer2 vs; b ← getattr layer1 vs; let dvs := (a - b)%Q in
  a ← getattr layer2 rho; b ← getattr layer1 rho; let drho := (a - b)%Q in
  (* Averages *)
  a ← getattr layer1 vp; b ← getattr layer2 vp; let vp_avg := ((a + b) / 2)%Q in
  a ← getattr layer1 vs; b ← getattr layer2 vs; let vs_avg := ((a + b) / 2)%Q in
  a ← getattr layer1 rho; b ← getattr layer2 rho; let rho_avg := ((a + b) / 2)%Q in
  (* Intercept (normal incidence) *)
  q1 ← lift (py_div dvp vp_avg);
  q2 ← lift (py_div drho rho_avg);
  let R0 := ((1#2) * (q1 + q2))%Q in
  (* Gradient *)
  g1 ← lift (py_div ((1#2) * dvp) vp_avg);
  g2 ← lift (py_div vs_avg vp_avg);
  g3 ← lift (py_div drho rho_avg);
  g4 ← lift (py_div (2 * dvs) vs_avg);
  let G := (g1 - 2 * g2 ^ 2 * (g3 + g4))%Q in
  (* Shuey 2-term *)
  let Rpp := map (fun t => (R0 + G * np_sin t ^ 2)%Q) theta_rad in
  mret Rpp.

Definition zoeppritz (layer1 layer2 : loc) (theta : list Q) : M (list Q) :=
  let try_body : M (list Q) :=
    brg_zoeppritz ← lift import_bruges_zoeppritz;
    vp1 ← getattr layer1 vp; vs1 ← getattr layer1 vs; rho1 ← getattr layer1 rho;
    vp2 ← getattr layer2 vp; vs2 ← getattr layer2 vs; rho2 ← getattr layer2 rho;
    lift (brg_zoeppritz vp1 vs1 rho1 vp2 vs2 rho2 theta) in
  fun h =>
    match try_body h with
    | (Raise e, h') =>
        if isinstance e "ImportError" then
          (* Fallback to Shuey approximation *)
          shuey layer1 layer2 theta h'
        else (Raise e, h')
    | r => r
    end.

Definition fit_theta : list Q := [0; 5; 10; 15; 20]%Q.

Definition calculate_intercept_gradient (layer1 layer2 : loc) : M (Q * Q) :=
  (* Use small angle approximation *)
  let theta := fit_theta in
  Rpp ← shuey layer1 layer2 theta;
  (* Linear fit: Rpp = A + B * sin^2(theta) *)
  let sin2 := map (fun t => (np_sin (np_deg2rad t) ^ 2)%Q) theta in
  A ← lift (np_polyfit sin2 Rpp 1);
  gradient ← lift (py_index A 0);
  intercept ← lift (py_index A 1);
  mret (intercept, gradient).
End Scripts.

Definition classify_avo (intercept gradient : Q) : string :=
  if Qlt_le_dec (2#100) intercept then
    if Qlt_le_dec gradient 0 then "I" else "I (anomalous)"
  else if Qlt_le_dec (-(2#100)) intercept then
    if Qlt_le_dec gradient 0 then "II" else "IIp"
  else (* intercept < -0.02 *)
    if Qlt_le_dec gradient 0 then "III" else "IV".

(** The six class labels [classify_avo] can return. *)
Definition avo_classes : list string :=
  ["I"; "I (anomalous)"; "II"; "IIp"; "III"; "IV"].

(** What the caller does with the coefficient array [np.polyfit] returned:
    [gradient = A[0]], [intercept = A[1]], returned as (intercept, gradient). *)
Definition linear_fit_result (fit : result (list Q)) : result (Q * Q) :=
  A ← fit;
  gradient ← py_index A 0;
  intercept ← py_index A 1;
  mret (intercept, gradient).

(** A layer whose three properties are strictly positive. *)
Definition positive_layer (L : LayerProperties) : Prop :=
  (0 < vp L /\ 0 < vs L /\ 0 < rho L)%Q.

(** *** Example data

    The layers of the script's usage line, rational stand-ins for numpy's
    [sin] and [deg2rad], and a fitting routine that reports how many
    abscissae and ordinates it was handed. *)
Definition example_layer1 : LayerProperties :=
  {| vp := 3000; vs := 1500; rho := 24 # 10 |}.
Definition example_layer2 : LayerProperties :=
  {| vp := 3500; vs := 1800; rho := 25 # 10 |}.
Definition example_heap : heap := <[1%nat := example_layer2]> {[0%nat := example_layer1]}.
Definition approx_deg2rad (t : Q) : Q := (t * (355 # 113) / 180)%Q.
Definition approx_sin (x : Q) : Q := (x - x ^ 3 / 6)%Q.
Definition polyfit_reporting_size (xs ys : list Q) (deg : nat) : result (list Q) :=
  Ok [inject_Z (Z.of_nat (length xs)); inject_Z (Z.of_nat (length ys))].
Definition bruges_not_installed :
  result (Q -> Q -> Q -> Q -> Q -> Q -> list Q -> result (list Q)) :=
  Raise (Exc "ModuleNotFoundError" "No module named 'bruges'").

(** *** The derived properties of a layer *)

(** What float division by zero raises. *)
Definition ZeroDivisionError : exn := Exc "ZeroDivisionError" "float division by zero".

(** [layer.vp_vs_ratio]. *)
Definition vp_vs_ratio (layer : loc) : M Q :=
  a ← getattr layer vp; b ← getattr layer vs; lift (py_div a b).

(** [layer.poissons_ratio]. *)
Definition poissons_ratio (layer : loc) : M Q :=
  r ← vp_vs_ratio layer;
  lift (py_div (r ^ 2 - 2) (2 * (r ^ 2 - 1))).

(** Example data: a layer with no shear strength. *)
Definition fluid_layer : LayerProperties := {| vp := 1500; vs := 0; rho := 1 |}.
Definition fluid_heap : heap := {[0%nat := fluid_layer]}.

End AvoAnalysis.


(** ** lasio/scripts/las_to_csv.py *)

Module LasToCsv.
Import Host.

(** The packages the script calls: lasio, pandas, pathlib and argparse.
    [LASFile], [HeaderItem] and [DataFrame] are the packages' own objects. *)
Record packages := {
  LASFile : Type;
  HeaderItem : Type;
  DataFrame : Type;
  lasio_read : string -> result LASFile;
  las_df : LASFile -> result DataFrame;
  df_reset_index : DataFrame -> result DataFrame;
  df_columns : DataFrame -> list string;
  df_getitem : DataFrame -> list string -> result DataFrame;
  (** [las.well.get(key, {})] and [item.get(key, default)]. *)
  well_get : LASFile -> string -> result HeaderItem;
  item_get : HeaderItem -> string -> pyval -> result pyval;
  (** [float(s)] on a string. *)
  float_of_str : string -> option Q;
  df_replace : DataFrame -> Q -> result DataFrame;
  df_to_csv : DataFrame -> string -> result unit;
  (** [str(Path(p))], [str(Path(p).with_suffix(s))], [Path(p).name],
      and the file-system queries of pathlib. *)
  path_str : string -> string;
  path_with_suffix : string -> string -> result string;
  path_name : string -> string;
  path_is_file : string -> bool;
  path_is_dir : string -> bool;
  path_glob : string -> string -> list string;
  path_mkdir : string -> result unit;
  (** [str(Path(p) / name)]. *)
  path_joinpath : string -> string -> string;
}.

(** [float] accepts an int whose nearest double is finite: one below
    2^1024 - 2^970 in magnitude. *)
Definition float_int_bound : Z := (2 ^ 1024 - 2 ^ 970)%Z.

(** The built-in [float(v)]. *)
Definition py_float (pk : packages) (v : pyval) : result Q :=
  match v with
  | PyFloat q => Ok q
  | PyInt z =>
      if (Z.abs z <? float_int_bound)%Z then Ok (inject_Z z)
      else Raise (Exc "OverflowError" "int too large to convert to float")
  | PyBool b => Ok (if b then 1 else 0)%Q
  | PyStr s =>
      match float_of_str pk s with
      | Some q => Ok q
      | None => Raise (Exc "ValueError" "could not convert string to float")
      end
  | _ => Raise (Exc "TypeError" "float() argument must be a string or a real number")
  end.

Definition truthy_list {A} (o : option (list A)) : bool :=
  match o with Some (_ :: _) => true | _ => false end.

Definition truthy_str (o : option string) : bool :=
  match o with Some s => negb (String.eqb s "") | None => false end.

Definition las_to_csv (pk : packages) (las_path : string) (csv_path : option string)
    (curves : option (list string)) (replace_null : bool) : script string :=
  las ← extcall "lasio" "read" (lasio_read pk las_path);
  df ← extcall "lasio.LASFile" "df" (las_df pk las);
  df ← extcall "pandas.DataFrame" "reset_index" (df_reset_index pk df);
  (* Filter curves if specified *)
  df ← (if truthy_list curves then
          (* Always include depth *)
          depth_col ← eval (py_index (df_columns pk df) 0);
          let cols := depth_col ::
            List.filter (fun c => bool_decide (c ∈ df_columns pk df)) (default [] curves) in
          extcall "pandas.DataFrame" "__getitem__" (df_getitem pk df cols)
        else mret df);
  (* Replace null values *)
  df ← (if replace_null then
          item ← extcall "lasio.SectionItems" "get" (well_get pk las "NULL");
          null_val ← extcall "lasio.HeaderItem" "get"
                       (item_get pk item "value" (PyFloat (-(99925 # 100))));
          try_except
            (null_val ← eval (py_float pk null_val);
             extcall "pandas.DataFrame" "replace" (df_replace pk df null_val))
            ["ValueError"; "TypeError"]
            (fun _ => mret df)
        else mret df);
  (* Determine output path *)
  csv_path ← (match csv_path with
              | None => extcall "pathlib.Path" "with_suffix"
                          (path_with_suffix pk las_path ".csv")
              | Some p => mret p
              end);
  _ ← extcall "pandas.DataFrame" "to_csv" (df_to_csv pk df csv_path);
  mret csv_path.

(** What [parser.parse_args()] returns. *)
Record Namespace := {
  input : string;
  output : option string;
  curves : option (list string);
  keep_null : bool;
  output_dir : option string;
}.

(** One [parser.add_argument(...)] call. *)
Record argument := {
  flags : list string;
  nargs : option string;
  action : option string;
  help : string;
}.

Definition parser_arguments : list argument := [
  {| flags := ["input"]; nargs := None; action := None;
     help := "LAS file or directory" |};
  {| flags := ["output"]; nargs := Some "?"; action := None;
     help := "Output CSV file or directory" |};
  {| flags := ["--curves"; "-c"]; nargs := Some "+"; action := None;
     help := "Specific curves to include" |};
  {| flags := ["--keep-null"]; nargs := None; action := Some "store_true";
     help := "Keep null values as-is" |};
  {| flags := ["--output-dir"; "-o"]; nargs := None; action := None;
     help := "Output directory for batch conversion" |}
].

(** [main]. [parse_args] is argparse applied to the parser built from the
    given arguments and to [sys.argv]: the namespace, or the status with
    which argparse ends the process. *)
Definition main (pk : packages)
    (parse_args : list argument -> list string -> Z + Namespace)
    (argv : list string) : script unit :=
  _ ← extcall "argparse" "ArgumentParser" (Ok tt);
  _ ← for_each parser_arguments
        (fun _ => extcall "argparse.ArgumentParser" "add_argument" (Ok tt));
  args ← extcall_or_exit "argparse.ArgumentParser" "parse_args"
           (parse_args parser_arguments argv);
  let input_path := path_str pk (input args) in
  if path_is_file pk input_path then
    output ← (if truthy_str (output args) then mret (default "" (output args))
              else extcall "pathlib.Path" "with_suffix"
                     (path_with_suffix pk input_path ".csv"));
    result ← las_to_csv pk input_path (Some output) (curves args)
               (negb (keep_null args));
    print (String.append "Created: " result)
  else if path_is_dir pk input_path then
    let output_dir :=
      if truthy_str (output_dir args)
      then path_str pk (default "" (output_dir args)) else input_path in
    _ ← extcall "pathlib.Path" "mkdir" (path_mkdir pk output_dir);
    for_each (path_glob pk input_path "*.las") (fun las_file =>
      suffixed ← extcall "pathlib.Path" "with_suffix"
                   (path_with_suffix pk las_file ".csv");
      let csv_path := path_joinpath pk output_dir (path_name pk suffixed) in
      result ← las_to_csv pk las_file (Some csv_path) (curves args)
                 (negb (keep_null args));
      print (String.append "Created: " result))
  else
    _ ← print (String.append "Error: " (String.append input_path " not found"));
    sys_exit 1.

(** The calls [main] makes into argparse, in order. *)
Definition main_argparse_calls : list call :=
  {| callee := "argparse"; method := "ArgumentParser" |}
  :: map (fun _ => {| callee := "argparse.ArgumentParser"; method := "add_argument" |})
       parser_arguments
  ++ [{| callee := "argparse.ArgumentParser"; method := "parse_args" |}].

(** *** Example data

    A directory listing with one readable and one damaged LAS file. *)
Definition example_packages : packages := {|
  LASFile := string;
  HeaderItem := unit;
  DataFrame := list string;
  lasio_read := fun p =>
    if String.eqb p "well.las" then Ok "well.las"
    else Raise (Exc "LASHeaderError" "No ~V section");
  las_df := fun _ => Ok ["GR"];
  df_reset_index := fun df => Ok ("DEPT" :: df);
  df_columns := fun df => df;
  df_getitem := fun _ cols => Ok cols;
  well_get := fun _ _ => Ok tt;
  item_get := fun _ _ d => Ok d;
  float_of_str := fun _ => None;
  df_replace := fun df _ => Ok df;
  df_to_csv := fun _ _ => Ok tt;
  path_str := fun p => p;
  path_with_suffix := fun p s =>
    if String.eqb p "well.las" then Ok "well.csv"
    else if String.eqb p "broken.las" then Ok "broken.csv"
    else Raise (Exc "ValueError" "has an empty name");
  path_name := fun p => p;
  path_is_file := fun p => String.eqb p "well.las" || String.eqb p "broken.las";
  path_is_dir := fun _ => false;
  path_glob := fun _ _ => [];
  path_mkdir := fun _ => Ok tt;
  path_joinpath := fun p name => Pathlib.str (Pathlib.joinpath (Pathlib.Path p) name);
|}.

(** argparse on a command line of the form [prog INPUT]. *)
Definition example_parse_args (_ : list argument) (argv : list string) : Z + Namespace :=
  match argv with
  | [_; inp] =>
      inr {| input := inp; output := None; curves := None;
             keep_null := false; output_dir := None |}
  | _ => inl 2%Z
  end.

(** *** Notions used to state the behaviour of the converter *)

(** A call that looks up a header item or replaces values of a frame. *)
Definition is_null_handling (c : call) : bool :=
  is_method "get" c || is_method "replace" c.

(** The output directory of a batch conversion: --output-dir when it is
    given and not empty, the input directory otherwise. *)
Definition batch_output_dir (pk : packages) (args : Namespace) : string :=
  if truthy_str (output_dir args)
  then path_str pk (default "" (output_dir args))
  else path_str pk (input args).

(** The CSV path of one file of a batch conversion:
    output_dir / las_file.with_suffix(".csv").name. *)
Definition batch_csv_path (pk : packages) (output_dir las_file : string)
    : result string :=
  suffixed ← path_with_suffix pk las_file ".csv";
  mret (path_joinpath pk output_dir (path_name pk suffixed)).

(** The example packages with a LAS file whose NULL entry holds
    [null_val]. *)
Definition null_packages (null_val : pyval) : packages := {|
  LASFile := string;
  HeaderItem := unit;
  DataFrame := list string;
  lasio_read := lasio_read example_packages;
  las_df := las_df example_packages;
  df_reset_index := df_reset_index example_packages;
  df_columns := df_columns example_packages;
  df_getitem := df_getitem example_packages;
  well_get := fun _ _ => Ok tt;
  item_get := fun _ _ _ => Ok null_val;
  float_of_str := fun _ => None;
  df_replace := fun _ _ => Raise (Exc "TypeError" "replace");
  df_to_csv := df_to_csv example_packages;
  path_str := path_str example_packages;
  path_with_suffix := path_with_suffix example_packages;
  path_name := path_name example_packages;
  path_is_file := path_is_file example_packages;
  path_is_dir := path_is_dir example_packages;
  path_glob := path_glob example_packages;
  path_mkdir := path_mkdir example_packages;
  path_joinpath := path_joinpath example_packages;
|}.

(** A directory logs/ that holds the one file well.las. *)
Definition batch_packages : packages := {|
  LASFile := string;
  HeaderItem := unit;
  DataFrame := list string;
  lasio_read := fun p =>
    if String.eqb p "logs/well.las" then Ok p
    else Raise (Exc "FileNotFoundError" "No such file or directory");
  las_df := las_df example_packages;
  df_reset_index := df_reset_index example_packages;
  df_columns := df_columns example_packages;
  df_getitem := df_getitem example_packages;
  well_get := well_get example_packages;
  item_get := item_get example_packages;
  float_of_str := float_of_str example_packages;
  df_replace := df_replace example_packages;
  df_to_csv := df_to_csv example_packages;
  path_str := fun p => Pathlib.str (Pathlib.Path p);
  path_with_suffix := fun p s =>
    if String.eqb p "logs/well.las" then Ok "logs/well.csv"
    else Raise (Exc "ValueError" "has an empty name");
  path_name := fun p => Pathlib.name (Pathlib.Path p);
  path_is_file := fun _ => false;
  path_is_dir := fun p => String.eqb p "logs";
  path_glob := fun p _ => if String.eqb p "logs" then ["logs/well.las"] else [];
  path_mkdir := fun _ => Ok tt;
  path_joinpath := path_joinpath example_packages;
|}.

(** argparse on a command line of the form [prog INPUT --output-dir DIR]. *)
Definition batch_parse_args (_ : list argument) (argv : list string) : Z + Namespace :=
  match argv with
  | [_; inp; "--output-dir"; dir] =>
      inr {| input := inp; output := None; curves := None;
             keep_null := false; output_dir := Some dir |}
  | _ => inl 2%Z
  end.

End LasToCsv.

(** ** simpeg/scripts/dc_inversion.py *)

Module DcInversion.
Import Host.

(** discretize, SimPEG and numpy as far as [run_inversion] calls them. *)
Record packages := {
  TensorMesh : Type;
  Survey : Type;
  Data : Type;
  ExpMap : Type;
  Simulation : Type;
  DataMisfit : Type;
  Regularization : Type;
  Optimizer : Type;
  InvProblem : Type;
  Directive : Type;
  Inversion : Type;
  ndarray : Type;
  maps_ExpMap : TensorMesh -> result ExpMap;
  dc_Simulation2DNodal : TensorMesh -> Survey -> ExpMap -> result Simulation;
  data_misfit_L2DataMisfit : Data -> Simulation -> result DataMisfit;
  regularization_WeightedLeastSquares : TensorMesh -> Q -> Q -> Q -> result Regularization;
  optimization_InexactGaussNewton : Z -> Z -> result Optimizer;
  opt_remember : Optimizer -> string -> result Optimizer;
  inverse_problem_BaseInvProblem : DataMisfit -> Regularization -> Optimizer -> result InvProblem;
  directives_BetaEstimate_ByEig : Q -> result Directive;
  directives_BetaSchedule : Q -> Q -> result Directive;
  directives_TargetMisfit : Q -> result Directive;
  directives_SaveOutputEveryIteration : result Directive;
  inversion_BaseInversion : InvProblem -> list Directive -> result Inversion;
  mesh_nC : TensorMesh -> Z;
  np_log : Q -> result ndarray;
  np_ones : Z -> result ndarray;
  nd_mul : ndarray -> ndarray -> result ndarray;
  inv_run : Inversion -> ndarray -> result ndarray;
  map_mul : ExpMap -> ndarray -> result ndarray;
  nd_rtruediv : Q -> ndarray -> result ndarray;
  nd_min : ndarray -> result ndarray;
  nd_max : ndarray -> result ndarray;
  (** [format(x, ".1f")]. *)
  format_1f : ndarray -> result string;
}.

Definition run_inversion (pk : packages) (mesh : TensorMesh pk) (survey : Survey pk)
    (obs_data : Data pk) (max_iter : Z) : script (ndarray pk) :=
  (* Mapping *)
  sigma_map ← extcall "simpeg.maps" "ExpMap" (maps_ExpMap pk mesh);
  (* Simulation *)
  simulation ← extcall "simpeg.resistivity" "Simulation2DNodal"
                 (dc_Simulation2DNodal pk mesh survey sigma_map);
  (* Data misfit *)
  dmis ← extcall "simpeg.data_misfit" "L2DataMisfit"
           (data_misfit_L2DataMisfit pk obs_data simulation);
  (* Regularization *)
  reg ← extcall "simpeg.regularization" "WeightedLeastSquares"
          (regularization_WeightedLeastSquares pk mesh (1 # 100) 1 1);
  (* Optimization *)
  opt ← extcall "simpeg.optimization" "InexactGaussNewton"
          (optimization_InexactGaussNewton pk max_iter 20);
  opt ← extcall "simpeg.optimization.InexactGaussNewton" "remember"
          (opt_remember pk opt "xc");
  (* Inverse problem *)
  inv_prob ← extcall "simpeg.inverse_problem" "BaseInvProblem"
               (inverse_problem_BaseInvProblem pk dmis reg opt);
  (* Directives *)
  starting_beta ← extcall "simpeg.directives" "BetaEstimate_ByEig"
                    (directives_BetaEstimate_ByEig pk 10);
  beta_schedule ← extcall "simpeg.directives" "BetaSchedule"
                    (directives_BetaSchedule pk 2 1);
  target_misfit ← extcall "simpeg.directives" "TargetMisfit"
                    (directives_TargetMisfit pk 1);
  save_iteration ← extcall "simpeg.directives" "SaveOutputEveryIteration"
                     (directives_SaveOutputEveryIteration pk);
  let dir_list := [starting_beta; beta_schedule; target_misfit; save_iteration] in
  (* Inversion *)
  inv ← extcall "simpeg.inversion" "BaseInversion"
          (inversion_BaseInversion pk inv_prob dir_list);
  (* Starting model (homogeneous 100 ohm-m) *)
  l ← extcall "numpy" "log" (np_log pk (1 / 100));
  ones ← extcall "numpy" "ones" (np_ones pk (mesh_nC pk mesh));
  m0 ← extcall "numpy.ndarray" "__mul__" (nd_mul pk l ones);
  _ ← print "Running inversion...";
  mrec ← extcall "simpeg.inversion.BaseInversion" "run" (inv_run pk inv m0);
  (* Convert to resistivity *)
  sigma_rec ← extcall "simpeg.maps.ExpMap" "__mul__" (map_mul pk sigma_map mrec);
  rho_rec ← extcall "numpy.ndarray" "__rtruediv__" (nd_rtruediv pk 1 sigma_rec);
  lo ← extcall "numpy.ndarray" "min" (nd_min pk rho_rec);
  lo ← extcall "numpy.float64" "__format__" (format_1f pk lo);
  hi ← extcall "numpy.ndarray" "max" (nd_max pk rho_rec);
  hi ← extcall "numpy.float64" "__format__" (format_1f pk hi);
  _ ← print (String.append "Inversion complete: "
               (String.append lo (String.append " - " (String.append hi " ohm-m"))));
  mret rho_rec.

(** *** Example data: packages whose every object is a label. *)
Definition example_packages : packages := {|
  TensorMesh := string; Survey := string; Data := string; ExpMap := string;
  Simulation := string; DataMisfit := string; Regularization := string;
  Optimizer := string; InvProblem := string; Directive := string;
  Inversion := string; ndarray := string;
  maps_ExpMap := fun _ => Ok "sigma_map";
  dc_Simulation2DNodal := fun _ _ _ => Ok "simulation";
  data_misfit_L2DataMisfit := fun _ _ => Ok "dmis";
  regularization_WeightedLeastSquares := fun _ _ _ _ => Ok "reg";
  optimization_InexactGaussNewton := fun _ _ => Ok "opt";
  opt_remember := fun opt _ => Ok opt;
  inverse_problem_BaseInvProblem := fun _ _ _ => Ok "inv_prob";
  directives_BetaEstimate_ByEig := fun _ => Ok "starting_beta";
  directives_BetaSchedule := fun _ _ => Ok "beta_schedule";
  directives_TargetMisfit := fun _ => Ok "target_misfit";
  directives_SaveOutputEveryIteration := Ok "save_iteration";
  inversion_BaseInversion := fun _ _ => Ok "inv";
  mesh_nC := fun _ => 1200%Z;
  np_log := fun _ => Ok "log(0.01)";
  np_ones := fun _ => Ok "ones";
  nd_mul := fun _ _ => Ok "m0";
  inv_run := fun _ _ => Ok "mrec";
  map_mul := fun _ _ => Ok "sigma_rec";
  nd_rtruediv := fun _ _ => Ok "rho_rec";
  nd_min := fun _ => Ok "min";
  nd_max := fun _ => Ok "max";
  format_1f := fun x => Ok (if String.eqb x "min" then "12.3" else "845.1");
|}.

End DcInversion.

(** ** pygimli/scripts/ert_inversion.py *)

Module ErtInversion.
Import Host.

(** pyGIMLi as far as [run_inversion] calls it. [ERTManager] objects
    change state when a mesh is set and when the inversion has run, so
    these two calls return the manager as it is afterwards. *)
Record packages := {
  DataContainer : Type;
  Mesh : Type;
  ERTManager : Type;
  Model : Type;
  Scalar : Type;
  ert_ERTManager : DataContainer -> result ERTManager;
  mgr_setMesh : ERTManager -> Mesh -> result ERTManager;
  (** [mgr.invert(lam=, zWeight=, robustData=, maxIter=, verbose=)]. *)
  mgr_invert : ERTManager -> Q -> Q -> bool -> Z -> bool -> result (ERTManager * Model);
  (** [mgr.inv.chi2()], [mgr.inv.relrms()], [mgr.inv.iter()]. *)
  inv_chi2 : ERTManager -> result Scalar;
  inv_relrms : ERTManager -> result Scalar;
  inv_iter : ERTManager -> result Scalar;
  (** [format(x, spec)]. *)
  format_scalar : Scalar -> string -> result string;
}.

Definition run_inversion (pk : packages) (data : DataContainer pk)
    (mesh : option (Mesh pk)) (lam z_weight : Q) (robust : bool) (max_iter : Z)
    (verbose : bool) : script (ERTManager pk * Model pk) :=
  mgr ← extcall "pygimli.physics.ert" "ERTManager" (ert_ERTManager pk data);
  mgr ← (match mesh with
         | Some mesh => extcall "pygimli.physics.ert.ERTManager" "setMesh"
                          (mgr_setMesh pk mgr mesh)
         | None => mret mgr
         end);
  '(mgr, model) ← extcall "pygimli.physics.ert.ERTManager" "invert"
                    (mgr_invert pk mgr lam z_weight robust max_iter verbose);
  (* Print summary *)
  chi2 ← extcall "pygimli.Inversion" "chi2" (inv_chi2 pk mgr);
  rms ← extcall "pygimli.Inversion" "relrms" (inv_relrms pk mgr);
  _ ← print "";
  _ ← print "Inversion complete:";
  chi2 ← extcall "float" "__format__" (format_scalar pk chi2 ".2f");
  _ ← print (String.append "  Chi-squared: " chi2);
  rms ← extcall "float" "__format__" (format_scalar pk rms ".1f");
  _ ← print (String.append "  Relative RMS: " (String.append rms "%"));
  iterations ← extcall "pygimli.Inversion" "iter" (inv_iter pk mgr);
  iterations ← extcall "int" "__format__" (format_scalar pk iterations "");
  _ ← print (String.append "  Iterations: " iterations);
  mret (mgr, model).

(** *** Example data *)
Definition example_packages : packages := {|
  DataContainer := string; Mesh := string; ERTManager := string; Model := string;
  Scalar := string;
  ert_ERTManager := fun _ => Ok "mgr";
  mgr_setMesh := fun mgr _ => Ok mgr;
  mgr_invert := fun mgr _ _ _ _ _ => Ok (mgr, "model");
  inv_chi2 := fun _ => Ok "1.02";
  inv_relrms := fun _ => Ok "3.1";
  inv_iter := fun _ => Ok "7";
  format_scalar := fun x _ => Ok x;
|}.

End ErtInversion.

(** ** scripts/validate_skills.py *)

Module ValidateSkills.
Import Host.

(** *** Built-in operations on [str]

    A text is a sequence of code points below 256. *)

Definition newline : string := String "010"%char EmptyString.

(** [sub in s]. *)
Fixpoint contains (sub s : string) : bool :=
  String.prefix sub s
  || match s with
     | EmptyString => false
     | String _ s' => contains sub s'
     end.

(** The text before and after the first occurrence of [sep]. *)
Fixpoint split_at (sep s : string) : option (string * string) :=
  if String.prefix sep s then
    Some (EmptyString, String.substring (String.length sep) (String.length s) s)
  else
    match s with
    | EmptyString => None
    | String c s' =>
        match split_at sep s' with
        | Some (before, after) => Some (String c before, after)
        | None => None
        end
    end.

(** [s.split(sep, maxsplit)] for a non-empty [sep]. *)
Fixpoint py_split (sep : string) (maxsplit : nat) (s : string) : list string :=
  match maxsplit with
  | O => [s]
  | S n =>
      match split_at sep s with
      | Some (before, after) => before :: py_split sep n after
      | None => [s]
      end
  end.

Definition lower_char (c : Ascii.ascii) : Ascii.ascii :=
  let n := Ascii.nat_of_ascii c in
  if (65 <=? n)%nat && (n <=? 90)%nat then Ascii.ascii_of_nat (n + 32) else c.

(** [s.lower()]. *)
Fixpoint lower (s : string) : string :=
  match s with
  | EmptyString => EmptyString
  | String c s' => String (lower_char c) (lower s')
  end.

(** The line boundaries of [str.splitlines]. *)
Definition is_linebreak (c : Ascii.ascii) : bool :=
  bool_decide (Ascii.nat_of_ascii c ∈ [10; 11; 12; 13; 28; 29; 30; 133]%nat).

(** [len(s.splitlines())]; [pending] tells whether characters have been
    read since the last boundary. *)
Fixpoint line_count (s : string) (pending : bool) : nat :=
  match s with
  | EmptyString => if pending then 1 else 0
  | String c s' =>
      if Ascii.eqb c "013"%char then
        match s' with
        | String c' s'' =>
            if Ascii.eqb c' "010"%char then S (line_count s'' false)
            else S (line_count s' false)
        | EmptyString => 1
        end
      else if is_linebreak c then S (line_count s' false)
      else line_count s' true
  end.

(** *** Built-in operations on decoded YAML and JSON values *)

Definition type_name (v : pyval) : string :=
  match v with
  | PyNone => "NoneType"
  | PyBool _ => "bool"
  | PyInt _ => "int"
  | PyFloat _ => "float"
  | PyStr _ => "str"
  | PyList _ => "list"
  | PyDict _ => "dict"
  end.

(** [a == b] where [a] is a string. *)
Definition eq_str (a : string) (b : pyval) : bool :=
  match b with
  | PyStr s => String.eqb a s
  | _ => false
  end.

(** [key in v] for a string [key]. *)
Definition py_contains (v : pyval) (key : string) : result bool :=
  match v with
  | PyDict items => Ok (existsb (fun kv => eq_str key kv.1) items)
  | PyList l => Ok (existsb (eq_str key) l)
  | PyStr s => Ok (contains key s)
  | _ => Raise (Exc "TypeError"
            (String.append "argument of type '"
               (String.append (type_name v) "' is not iterable")))
  end.

(** [v[key]] for a string [key]. *)
Definition py_getitem (v : pyval) (key : string) : result pyval :=
  match v with
  | PyDict items =>
      match List.find (fun kv => eq_str key kv.1) items with
      | Some kv => Ok kv.2
      | None => Raise (Exc "KeyError" key)
      end
  | PyStr _ => Raise (Exc "TypeError" "string indices must be integers")
  | PyList _ => Raise (Exc "TypeError" "list indices must be integers or slices, not str")
  | _ => Raise (Exc "TypeError"
            (String.append "'" (String.append (type_name v) "' object is not subscriptable")))
  end.

(** [v.get(key, default)] for a string [key]. *)
Definition py_get (v : pyval) (key : string) (dflt : pyval) : result pyval :=
  match v with
  | PyDict items =>
      match List.find (fun kv => eq_str key kv.1) items with
      | Some kv => Ok kv.2
      | None => Ok dflt
      end
  | _ => Raise (Exc "AttributeError"
            (String.append "'" (String.append (type_name v)
               "' object has no attribute 'get'")))
  end.

(** [for p in v]: the elements iteration yields. *)
Definition py_iter (v : pyval) : result (list pyval) :=
  match v with
  | PyList l => Ok l
  | PyDict items => Ok (map fst items)
  | PyStr s => Ok (map (fun c => PyStr (String c EmptyString)) (String.list_ascii_of_string s))
  | _ => Raise (Exc "TypeError"
            (String.append "'" (String.append (type_name v) "' object is not iterable")))
  end.

(** Adding [v] to a set: lists and dicts are unhashable. *)
Definition py_hash_check (v : pyval) : result pyval :=
  match v with
  | PyList _ | PyDict _ =>
      Raise (Exc "TypeError"
        (String.append "unhashable type: '" (String.append (type_name v) "'")))
  | _ => Ok v
  end.

(** Equality of two hashable values: numbers compare by value. *)
Definition py_eq (a b : pyval) : bool :=
  let num v :=
    match v with
    | PyBool b => Some (if b then 1 else 0)%Q
    | PyInt z => Some (inject_Z z)
    | PyFloat q => Some q
    | _ => None
    end in
  match a, b with
  | PyNone, PyNone => true
  | PyStr s, PyStr t => String.eqb s t
  | _, _ =>
      match num a, num b with
      | Some x, Some y => Qeq_bool x y
      | _, _ => false
      end
  end.

(** The elements of a set built from a list, one per equality class. *)
Fixpoint py_set (l : list pyval) : list pyval :=
  match l with
  | [] => []
  | v :: rest => v :: List.filter (fun x => negb (py_eq v x)) (py_set rest)
  end.

(** *** The script *)

Definition REQUIRED_FRONTMATTER_FIELDS : list string :=
  ["name"; "description"; "version"; "author"; "license"; "tags"; "dependencies"].
Definition MIN_LINES : nat := 150.
Definition MAX_LINES : nat := 500.
Definition MIN_TAGS : nat := 7.

(** Directories that are not skills *)
Definition SKIP_DIRS : list string :=
  [".claude-plugin"; ".git"; ".github"; "docs"; "scripts"; "node_modules"; "__pycache__"].

(** An issue is a (level, message) tuple. *)
Definition issue : Type := string * string.

(** One entry of the repository root: its name, whether it is a directory,
    and what reading its SKILL.md gives ([None] when there is none). *)
Record entry := {
  name : string;
  is_dir : bool;
  skill_md : option (result string);
}.

(** What the script finds around it: the sorted listing of the root,
    PyYAML ([import yaml] may fail), the marketplace file, the [json]
    decoder, and [str()] on decoded values. *)
Record env := {
  listing : list entry;
  import_yaml : result (string -> result pyval);
  marketplace_json : option (result string);
  json_loads : string -> result pyval;
  py_str : pyval -> string;
}.

Definition parse_frontmatter (ev : env) (text : string) : script pyval :=
  if negb (String.prefix "---" text) then mret PyNone
  else
    let parts := py_split "---" 2 text in
    if (length parts <? 3)%nat then mret PyNone
    else
      try_except
        (safe_load ← extcall "yaml" "import" (import_yaml ev);
         extcall "yaml" "safe_load" (safe_load (default "" (parts !! 1%nat))))
        ["Exception"]
        (fun e => mret (PyDict [(PyStr "_error", PyStr (exn_msg e))])).

(** The test [find_skill_dirs] applies to an entry of the root. *)
Definition is_skill_dir (d : entry) : bool :=
  is_dir d
  && negb (bool_decide (name d ∈ SKIP_DIRS))
  && negb (String.prefix "." (name d))
  && bool_decide (is_Some (skill_md d)).

Definition find_skill_dirs (ev : env) : script (list entry) :=
  ds ← extcall "pathlib.Path" "iterdir" (Ok (listing ev));
  mret (List.filter is_skill_dir ds).

(** The line numbers of the code fences that carry no language tag. *)
Definition untagged_fences (text : string) : list nat :=
  let lines := py_split newline (String.length text) text in
  map (fun il => S il.1)
    (List.filter (fun il => String.eqb il.2 "```") (imap pair lines)).

Definition validate_skill (ev : env) (skill_dir : entry) : script (list issue) :=
  text ← extcall "pathlib.Path" "read_text"
           (default (Raise (Exc "FileNotFoundError" "SKILL.md")) (skill_md skill_dir));
  let line_count := line_count text false in
  (* YAML frontmatter *)
  fm ← parse_frontmatter ev text;
  match fm with
  | PyNone => mret [("ERROR", "Missing YAML frontmatter")]
  | _ =>
      has_error ← eval (py_contains fm "_error");
      if has_error : bool then
        err ← eval (py_getitem fm "_error");
        mret [("ERROR", String.append "Invalid YAML: " (py_str ev err))]
      else
        missing ← eval (mapM (M := result) (fun field =>
                     present ← py_contains fm field;
                     mret (if present : bool then []
                           else [("ERROR",
                                  String.append "Missing frontmatter field: " field)]))
                     REQUIRED_FRONTMATTER_FIELDS);
        let issues : list issue := concat missing in
        (* Tags count *)
        tags ← eval (py_get fm "tags" (PyList []));
        let issues := issues ++
          match tags with
          | PyList l =>
              if (length l <? MIN_TAGS)%nat
              then [("WARN", String.append "Only "
                       (String.append (pretty (length l)) " tags (recommend 7+)"))]
              else []
          | _ => []
          end in
        (* Line count *)
        let issues := issues ++
          (if (line_count <? MIN_LINES)%nat
           then [("WARN", String.append "Only "
                    (String.append (pretty line_count) " lines (minimum 150)"))]
           else if (MAX_LINES <? line_count)%nat
           then [("ERROR", String.append (pretty line_count)
                    " lines exceeds maximum 500")]
           else []) in
        (* Code block language tags *)
        let issues := issues ++
          map (fun line_num =>
                 ("WARN", String.append "Code block without language tag at line "
                            (pretty line_num)))
              (untagged_fences text) in
        (* "When to use" section *)
        let issues := issues ++
          (if negb (contains "when to use" (lower text))
           then [("WARN", "Missing 'When to use vs alternatives' section")]
           else []) in
        mret issues
  end.

Definition validate_marketplace (ev : env) (skill_names : list string)
    : script (list issue) :=
  match marketplace_json ev with
  | None => mret [("ERROR", "Missing .claude-plugin/marketplace.json")]
  | Some contents =>
      decoded ← try_except
        (text ← extcall "pathlib.Path" "read_text" contents;
         data ← extcall "json" "loads" (json_loads ev text);
         mret (inl data))
        ["JSONDecodeError"]
        (fun e => mret (inr [("ERROR", String.append "Invalid JSON: " (exn_msg e))]));
      match decoded with
      | inr issues => mret issues
      | inl data =>
          plugins ← eval (py_get data "plugins" (PyList []));
          plugins ← eval (py_iter plugins);
          names ← eval (mapM (M := result) (fun p =>
                     n ← py_getitem p "name"; py_hash_check n) plugins);
          let plugin_names := py_set names in
          let issues : list issue :=
            map (fun skill =>
                   ("ERROR", String.append "Skill '"
                      (String.append skill "' not in marketplace.json plugins")))
              (List.filter (fun skill => negb (existsb (eq_str skill) plugin_names))
                 skill_names) in
          let issues := issues ++
            map (fun plugin =>
                   ("WARN", String.append "Plugin '"
                      (String.append (py_str ev plugin)
                         "' in marketplace.json but no skill directory found")))
              (List.filter
                 (fun plugin => negb (existsb (fun skill => eq_str skill plugin) skill_names))
                 plugin_names) in
          mret issues
      end
  end.

Definition is_level (level : string) (i : issue) : bool := String.eqb i.1 level.

Definition count_level (level : string) (issues : list issue) : nat :=
  length (List.filter (is_level level) issues).

Definition print_issue (indent : string) (i : issue) : script unit :=
  print (String.append indent (String.append i.1 (String.append ": " i.2))).

(** The loop of [main] over the skill directories, with the two running
    totals. *)
Fixpoint validate_all (ev : env) (skill_dirs : list entry)
    (total_errors total_warnings : nat) : script (nat * nat) :=
  match skill_dirs with
  | [] => mret (total_errors, total_warnings)
  | skill_dir :: rest =>
      issues ← validate_skill ev skill_dir;
      let errors := List.filter (is_level "ERROR") issues in
      let warnings := List.filter (is_level "WARN") issues in
      let total_errors := (total_errors + length errors)%nat in
      let total_warnings := (total_warnings + length warnings)%nat in
      _ ← (match issues with
           | [] => print (String.append "  PASS  " (name skill_dir))
           | _ =>
               let status := match errors with [] => "WARN" | _ => "FAIL" end in
               _ ← print (String.append "  "
                            (String.append status (String.append "  " (name skill_dir))));
               for_each issues (print_issue "        ")
           end);
      validate_all ev rest total_errors total_warnings
  end.

(** [main]; [argv] is [sys.argv], which the script never reads. *)
Definition main (ev : env) (argv : list string) : script unit :=
  skill_dirs ← find_skill_dirs ev;
  match skill_dirs with
  | [] =>
      _ ← print "ERROR: No skill directories found";
      sys_exit 1
  | _ =>
      _ ← print (String.append "Found "
                   (String.append (pretty (length skill_dirs)) " skills"));
      _ ← print "";
      '(total_errors, total_warnings) ← validate_all ev skill_dirs 0 0;
      (* Marketplace validation *)
      let skill_names := map name skill_dirs in
      mp_issues ← validate_marketplace ev skill_names;
      let mp_errors := List.filter (is_level "ERROR") mp_issues in
      let mp_warnings := List.filter (is_level "WARN") mp_issues in
      let total_errors := (total_errors + length mp_errors)%nat in
      let total_warnings := (total_warnings + length mp_warnings)%nat in
      _ ← print "";
      _ ← print "Marketplace:";
      _ ← (match mp_issues with
           | [] => print "  PASS"
           | _ => for_each mp_issues (print_issue "  ")
           end);
      (* Summary *)
      _ ← print "";
      _ ← print "==================================================";
      _ ← print (String.append "Skills: "
                   (String.append (pretty (length skill_dirs))
                      (String.append "  Errors: "
                         (String.append (pretty total_errors)
                            (String.append "  Warnings: " (pretty total_warnings))))));
      if (0 <? total_errors)%nat then
        _ ← print "FAILED";
        sys_exit 1
      else
        _ ← print "PASSED";
        sys_exit 0
  end.

(** *** Example data

    Two repositories of one skill each. In the first the front matter of
    SKILL.md is a mapping with every required field; in the second it is
    the scalar 5. The stand-ins for PyYAML and [json] decode exactly the
    documents of these examples. *)

Definition text_of_lines (lines : list string) : string :=
  String.concat newline lines.

Definition good_skill_md : string :=
  text_of_lines ["---"; "name: lasio"; "tags: [a, b, c, d, e, f, g]"; "---";
                 "# lasio"; "## When to use vs alternatives"; ""].

Definition scalar_skill_md : string :=
  text_of_lines ["---"; "5"; "---"; "# lasio"; ""].

Definition good_frontmatter : pyval :=
  PyDict [(PyStr "name", PyStr "lasio"); (PyStr "description", PyStr "LAS files");
          (PyStr "version", PyStr "1.0"); (PyStr "author", PyStr "team");
          (PyStr "license", PyStr "MIT");
          (PyStr "tags", PyList [PyStr "a"; PyStr "b"; PyStr "c"; PyStr "d";
                                 PyStr "e"; PyStr "f"; PyStr "g"]);
          (PyStr "dependencies", PyList [])].

Definition example_yaml (doc : string) : result pyval :=
  if String.eqb doc (text_of_lines [""; "5"; ""]) then Ok (PyInt 5)
  else if String.eqb doc
            (text_of_lines [""; "name: lasio"; "tags: [a, b, c, d, e, f, g]"; ""])
  then Ok good_frontmatter
  else Raise (Exc "ScannerError" "could not decode the document").

Definition example_json (doc : string) : result pyval :=
  if String.eqb doc "{plugins: [{name: lasio}]}"
  then Ok (PyDict [(PyStr "plugins", PyList [PyDict [(PyStr "name", PyStr "lasio")]])])
  else Raise (Exc "JSONDecodeError" "Expecting value").

Definition example_str (v : pyval) : string :=
  match v with
  | PyStr s => s
  | _ => type_name v
  end.

Definition example_env (skill_text : string) : env := {|
  listing := [{| name := ".git"; is_dir := true; skill_md := None |};
              {| name := "README.md"; is_dir := false; skill_md := None |};
              {| name := "lasio"; is_dir := true; skill_md := Some (Ok skill_text) |};
              {| name := "scripts"; is_dir := true; skill_md := None |}];
  import_yaml := Ok example_yaml;
  marketplace_json := Some (Ok "{plugins: [{name: lasio}]}");
  json_loads := example_json;
  py_str := example_str;
|}.

(** *** Notions used to state what the validators report *)

(** The key [key] is present in a decoded mapping. *)
Definition has_key (items : list (pyval * pyval)) (key : string) : bool :=
  existsb (fun kv => eq_str key kv.1) items.

(** The required fields a front matter lacks, in the order of
    [REQUIRED_FRONTMATTER_FIELDS]. *)
Definition missing_fields (items : list (pyval * pyval)) : list string :=
  List.filter (fun field => negb (has_key items field)) REQUIRED_FRONTMATTER_FIELDS.

(** The plugin entry [p] is a mapping whose "name" is the string [n]. *)
Definition plugin_named (p : pyval) (n : string) : Prop :=
  py_getitem p "name" = Ok (PyStr n).

(** A second repository: a skill without front matter and a marketplace
    file that lists another plugin. *)
Definition bare_skill_md : string := text_of_lines ["# lasio"; "Read LAS files."; ""].

Definition partial_skill_md : string :=
  text_of_lines ["---"; "name: lasio"; "---"; "# lasio"; ""].

Definition partial_yaml (doc : string) : result pyval :=
  if String.eqb doc (text_of_lines [""; "name: lasio"; ""])
  then Ok (PyDict [(PyStr "name", PyStr "lasio")])
  else Raise (Exc "ScannerError" "could not decode the document").

Definition partial_env : env := {|
  listing := [{| name := "lasio"; is_dir := true; skill_md := Some (Ok partial_skill_md) |}];
  import_yaml := Ok partial_yaml;
  marketplace_json := Some (Ok "{plugins: [{name: obspy}]}");
  json_loads := fun doc =>
    if String.eqb doc "{plugins: [{name: obspy}]}"
    then Ok (PyDict [(PyStr "plugins", PyList [PyDict [(PyStr "name", PyStr "obspy")]])])
    else Raise (Exc "JSONDecodeError" "Expecting value");
  py_str := example_str;
|}.

End ValidateSkills.

(** ** obspy/scripts/batch_process.py *)

Module BatchProcess.
Import Pathlib.

(** *** Python values and obspy objects *)

(** A result dict maps its string keys to Python values. *)
Abbreviation dict := (gmap string pyval).

(** [Trace.stats]: the header fields the script reads. *)
Record Stats := {
  network : string;
  station : string;
  starttime : Q;
  endtime : Q;
  sampling_rate : Q;
}.

Record Trace := { stats : Stats; data : list Q }.

(** A [Stream] is a list of traces; [len(st)] and [st[0]] are list operations. *)
Definition Stream := list Trace.

Record Inventory := { station_xml : string }.

(** What a file holds. The file system maps each file, named by the path
    it resolves to, to its content. *)
Inductive file :=
| WaveformFile (st : Stream)
| InventoryFile (inv : Inventory).

Abbreviation filesystem := (gmap string file).

(** *** File-system interaction

    A computation is a tree of file-system accesses: each node reads or
    writes one path. Worker processes share nothing but the file system, so
    a run of the pool is an interleaving of such accesses. *)
Inductive io (A : Type) : Type :=
| Ret (a : A)
| FsGet (path : string) (k : option file -> io A)
| FsPut (path : string) (f : file) (k : io A).
Arguments Ret {A} a.
Arguments FsGet {A} path k.
Arguments FsPut {A} path f k.

Fixpoint io_bind {A B} (t : io A) (k : A -> io B) : io B :=
  match t with
  | Ret a => k a
  | FsGet p c => FsGet p (fun o => io_bind (c o) k)
  | FsPut p f c => FsPut p f (io_bind c k)
  end.

(** Running a computation alone, from start to end, on a file system. *)
Fixpoint run_io {A} (t : io A) (fs : filesystem) : A * filesystem :=
  match t with
  | Ret a => (a, fs)
  | FsGet p c => run_io (c (fs !! p)) fs
  | FsPut p f c => run_io c (<[p := f]> fs)
  end.

(** The body of [process_file]: it may touch the file system, may raise,
    and updates the local variable [result] (a dict) as it goes. *)
Definition P (A : Type) : Type := dict -> io (result A * dict).

#[global] Instance P_ret : MRet P := fun _ a d => Ret (Ok a, d).
#[global] Instance P_bind : MBind P := fun _ _ k m d =>
  io_bind (m d) (fun rd =>
    match rd with
    | (Ok a, d') => k a d'
    | (Raise e, d') => Ret (Raise e, d')
    end).

(** A library call that touches no file. *)
Definition call {A} (r : result A) : P A := fun d => Ret (r, d).

(** [result[key] = v]. *)
Definition setitem (key : string) (v : pyval) : P unit :=
  fun d => Ret (Ok tt, <[key := v]> d).

(** *** The obspy interface

    The signal-processing methods of [Stream] work in place; here each
    returns the stream as it is after the call, or the exception raised. *)
Record obspy := {
  st_detrend : string -> Stream -> result Stream;
  st_taper : Q -> Stream -> result Stream;
  st_remove_response : Inventory -> string -> Stream -> result Stream;
  st_filter_bandpass : option Q -> option Q -> Stream -> result Stream;
  st_filter_corner : string -> option Q -> Stream -> result Stream;
  st_decimate : Z -> Stream -> result Stream;
  (** [from obspy.clients.fdsn import Client; Client("IRIS")]: the client's
      [get_stations(network, station, starttime, endtime, level="response")],
      or the exception the import or the constructor raises. *)
  iris_client : result (string -> string -> Q -> Q -> result Inventory);
  (** The checks [Stream.write] makes before it writes: the exception it
      raises, if any. *)
  write_check : Stream -> string -> string -> option exn;
  (** The file a path names when obspy opens it: the operating system
      resolves relative paths, ".." components and links. Two paths name
      the same file when they resolve to the same one. *)
  realpath : string -> string;
}.

(** [obspy.read(path)]. *)
Definition read (lib : obspy) (path : string) : P Stream := fun d =>
  FsGet (realpath lib path) (fun o =>
    match o with
    | Some (WaveformFile st) => Ret (Ok st, d)
    | Some (InventoryFile _) => Ret (Raise (Exc "TypeError" "Unknown format"), d)
    | None => Ret (Raise (Exc "FileNotFoundError" "No such file or directory"), d)
    end).

(** [obspy.read_inventory(path)]. *)
Definition read_inventory (lib : obspy) (path : string) : P Inventory := fun d =>
  FsGet (realpath lib path) (fun o =>
    match o with
    | Some (InventoryFile inv) => Ret (Ok inv, d)
    | Some (WaveformFile _) => Ret (Raise (Exc "TypeError" "Unknown format"), d)
    | None => Ret (Raise (Exc "FileNotFoundError" "No such file or directory"), d)
    end).

(** [st.write(path, format=fmt)]. *)
Definition write (lib : obspy) (st : Stream) (path fmt : string) : P unit := fun d =>
  match write_check lib st path fmt with
  | Some e => Ret (Raise e, d)
  | None => FsPut (realpath lib path) (WaveformFile st) (Ret (Ok tt, d))
  end.

(** *** Truth values of optional arguments *)

Definition truthy_str (o : option string) : bool :=
  match o with Some s => negb (String.eqb s "") | None => false end.

Definition truthy_float (o : option Q) : bool :=
  match o with Some q => negb (Qeq_bool q 0) | None => false end.

Definition truthy_int (o : option Z) : bool :=
  match o with Some z => negb (Z.eqb z 0) | None => false end.

(** [x > y] on floats. *)
Definition Qgtb (x y : Q) : bool := negb (Qle_bool x y).

(** [a or b] on optional floats. *)
Definition py_or (a b : option Q) : option Q :=
  if truthy_float a then a else b.

(** *** process_file *)

Record options := {
  detrend : bool;
  taper : option Q;
  filter_type : option string;
  freqmin : option Q;
  freqmax : option Q;
  freq : option Q;
  decimate_factor : option Z;
  remove_response : bool;
  inventory_path : option string;
  output_format : string;
  output_units : string;
}.

Definition default_options : options := {|
  detrend := true;
  taper := Some (5 # 100);
  filter_type := None;
  freqmin := None;
  freqmax := None;
  freq := None;
  decimate_factor := None;
  remove_response := false;
  inventory_path := None;
  output_format := "MSEED";
  output_units := "VEL";
|}.

Definition ext_map : gmap string string :=
  <["SEGY" := ".sgy"]> (<["GSE2" := ".gse"]> (<["SAC" := ".sac"]> {["MSEED" := ".mseed"]})).

(** The path [process_file] writes its output to: the string
    [str(output_file)]. *)
Definition output_file (filepath output_dir output_format : string) : string :=
  let output_path := Path output_dir in
  let input_path := Path filepath in
  (* Determine output extension *)
  let ext := default ".mseed" (ext_map !! output_format) in
  str (joinpath output_path (String.append (stem input_path) ext)).

Definition initial_result (filepath : string) : dict :=
  <["error" := PyNone]> (<["output" := PyNone]>
    (<["status" := PyStr "success"]> {["file" := PyStr filepath]})).

(** The statements inside [try:]. *)
Definition process_file_body (lib : obspy) (filepath output_dir : string)
    (o : options) : P unit :=
  st ← read lib filepath;
  (* Basic processing *)
  st ← (if detrend o then
          st ← call (st_detrend lib "demean" st);
          call (st_detrend lib "linear" st)
        else (mret st : P Stream));
  st ← (match taper o with
        | Some t => if truthy_float (Some t) && Qgtb t 0
                    then call (st_taper lib t st) else (mret st : P Stream)
        | None => (mret st : P Stream)
        end);
  (* Remove instrument response *)
  st ← (if remove_response o then
          inv ← (if truthy_str (inventory_path o) then
                   read_inventory lib (default "" (inventory_path o))
                 else
                   (* Try to get from IRIS *)
                   get_stations ← call (iris_client lib);
                   tr ← call (py_index st 0); let net := network (stats tr) in
                   tr ← call (py_index st 0); let sta := station (stats tr) in
                   tr ← call (py_index st 0); let t0 := starttime (stats tr) in
                   tr ← call (py_index st 0); let t1 := endtime (stats tr) in
                   call (get_stations net sta t0 t1));
          call (st_remove_response lib inv (output_units o) st)
        else (mret st : P Stream));
  (* Apply filter *)
  st ← (if truthy_str (filter_type o) then
          if bool_decide (filter_type o = Some "bandpass") then
            call (st_filter_bandpass lib (freqmin o) (freqmax o) st)
          else if bool_decide (filter_type o = Some "highpass") then
            call (st_filter_corner lib "highpass" (py_or (freq o) (freqmin o)) st)
          else if bool_decide (filter_type o = Some "lowpass") then
            call (st_filter_corner lib "lowpass" (py_or (freq o) (freqmax o)) st)
          else (mret st : P Stream)
        else (mret st : P Stream));
  (* Decimate *)
  st ← (match decimate_factor o with
        | Some n => if truthy_int (Some n) && bool_decide (1 < n)%Z
                    then call (st_decimate lib n st) else (mret st : P Stream)
        | None => (mret st : P Stream)
        end);
  (* Write output *)
  let out := output_file filepath output_dir (output_format o) in
  _ ← write lib st out (output_format o);
  _ ← setitem "output" (PyStr out);
  _ ← setitem "n_traces" (PyInt (Z.of_nat (length st)));
  tr ← call (py_index st 0);
  _ ← setitem "sampling_rate" (PyFloat (sampling_rate (stats tr)));
  tr1 ← call (py_index st 0);
  tr0 ← call (py_index st 0);
  setitem "duration" (PyFloat (endtime (stats tr1) - starttime (stats tr0))).

(** [process_file]: the [try] block and its [except Exception] handler.
    Every exception of the model derives from [Exception], so the handler
    takes each of them. *)
Definition process_file (lib : obspy) (filepath output_dir : string)
    (o : options) : io dict :=
  let result := initial_result filepath in
  io_bind (process_file_body lib filepath output_dir o result) (fun rd =>
    match rd with
    | (Ok _, result) => Ret result
    | (Raise e, result) =>
        Ret (<["error" := PyStr (exn_msg e)]> (<["status" := PyStr "error"]> result))
    end).

(** A file's result when [process_file] runs alone on [fs]. *)
Definition result_of {A} (t : io A) (fs : filesystem) : A := (run_io t fs).1.

(** *** batch_process: the sequential branch *)

(** [for f in files: results.append(process_file(str(f), ...))]. *)
Fixpoint sequential_loop (lib : obspy) (output_dir : string) (o : options)
    (files : list string) (results : list dict) (fs : filesystem)
    : list dict * filesystem :=
  match files with
  | [] => (results, fs)
  | f :: rest =>
      let '(r, fs1) := run_io (process_file lib f output_dir o) fs in
      sequential_loop lib output_dir o rest (results ++ [r]) fs1
  end.

(** *** batch_process: the process pool

    [executor.submit] queues one task per file. A worker takes the oldest
    queued task when fewer than [max_workers] tasks are running, and the
    running tasks advance one file-system access at a time in an order the
    operating system picks: the schedule. *)
Inductive task :=
| Queued (t : io dict)
| Running (t : io dict)
| Done (d : dict).

Record pool := {
  pool_fs : filesystem;
  pool_tasks : list task;
}.

Definition is_running (t : task) : bool :=
  match t with Running _ => true | _ => false end.

Definition is_queued (t : task) : bool :=
  match t with Queued _ => true | _ => false end.

Definition is_done (t : task) : bool :=
  match t with Done _ => true | _ => false end.

Definition may_start (max_workers : nat) (tasks : list task) (i : nat) : bool :=
  (length (List.filter is_running tasks) <? max_workers)%nat
  && forallb (fun t => negb (is_queued t)) (take i tasks).

(** Task [i] performs its next action: one file access, or its return. *)
Definition advance (s : pool) (i : nat) (t : io dict) : pool :=
  match t with
  | Ret d =>
      {| pool_fs := pool_fs s; pool_tasks := <[i := Done d]> (pool_tasks s) |}
  | FsGet p k =>
      {| pool_fs := pool_fs s;
         pool_tasks := <[i := Running (k (pool_fs s !! p))]> (pool_tasks s) |}
  | FsPut p f k =>
      {| pool_fs := <[p := f]> (pool_fs s);
         pool_tasks := <[i := Running k]> (pool_tasks s) |}
  end.

Definition pool_step (max_workers : nat) (s : pool) (i : nat) : option pool :=
  match pool_tasks s !! i with
  | Some (Running t) => Some (advance s i t)
  | Some (Queued t) =>
      if may_start max_workers (pool_tasks s) i then Some (advance s i t) else None
  | _ => None
  end.

(** The pool after the steps of a schedule; [None] when the schedule asks
    for a step no worker can take. *)
Fixpoint run_pool (max_workers : nat) (sched : list nat) (s : pool) : option pool :=
  match sched with
  | [] => Some s
  | i :: rest =>
      match pool_step max_workers s i with
      | Some s' => run_pool max_workers rest s'
      | None => None
      end
  end.

(** [future.result()] of a finished task. *)
Definition future_result (tasks : list task) (i : nat) : option dict :=
  match tasks !! i with
  | Some (Done d) => Some d
  | _ => None
  end.

(** *** batch_process

    Two actions of the operating system are parameters. [mkdir] is
    [output_path.mkdir(parents=True, exist_ok=True)]: its outcome and the
    file system it leaves (directories are not files of the model).
    [collect_files] stands for the pathlib queries ([is_file], [is_dir],
    [glob]) that turn [input_path] into the list [files]; it gives
    [str(f)] for each of them. In the parallel branch the run is fixed by
    two choices of the environment: the schedule of the workers, and the
    order in which [as_completed] yields the futures. The result is [None]
    when the two do not describe a run: the schedule must be one the pool
    can follow until every task is done, and the order must name every
    future once. *)
Definition batch_process (lib : obspy)
    (mkdir : PurePath -> filesystem -> result unit * filesystem)
    (collect_files : filesystem -> PurePath -> list string)
    (input_path output_dir : string) (workers : Z) (o : options)
    (sched order : list nat) (fs : filesystem)
    : option (result (list dict) * filesystem) :=
  let input_path := Path input_path in
  let output_path := Path output_dir in
  match mkdir output_path fs with
  | (Raise e, fs) => Some (Raise e, fs)
  | (Ok _, fs) =>
      (* Collect files *)
      let files := collect_files fs input_path in
      if bool_decide (files = []) then Some (Ok [], fs)
      else if (workers =? 1)%Z then
        (* Sequential processing *)
        let '(results, fs') := sequential_loop lib (str output_path) o files [] fs in
        Some (Ok results, fs')
      else if (workers <=? 0)%Z then
        Some (Raise (Exc "ValueError" "max_workers must be greater than 0"), fs)
      else
        (* Parallel processing *)
        let futures :=
          map (fun f => Queued (process_file lib f (str output_path) o)) files in
        match run_pool (Z.to_nat workers) sched
                {| pool_fs := fs; pool_tasks := futures |} with
        | Some s =>
            if forallb is_done (pool_tasks s)
               && bool_decide (order ≡ₚ seq 0 (length files))
            then
              match mapM (future_result (pool_tasks s)) order with
              | Some results => Some (Ok results, pool_fs s)
              | None => None
              end
            else None
        | None => None
        end
  end.

(** The schedule in which each task runs to its end before the next starts. *)
Fixpoint steps_alone {A} (t : io A) (fs : filesystem) : nat :=
  match t with
  | Ret _ => 1
  | FsGet p k => S (steps_alone (k (fs !! p)) fs)
  | FsPut p f k => S (steps_alone k (<[p := f]> fs))
  end.

Fixpoint fifo_schedule (tasks : list (io dict)) (i : nat) (fs : filesystem) : list nat :=
  match tasks with
  | [] => []
  | t :: rest =>
      replicate (steps_alone t fs) i ++ fifo_schedule rest (S i) (run_io t fs).2
  end.

(** *** Example data

    A stand-in for obspy whose processing methods leave the stream as it
    is, and a directory holding two recordings of the same name in two
    formats. *)
Definition plain_obspy : obspy := {|
  st_detrend := fun _ st => Ok st;
  st_taper := fun _ st => Ok st;
  st_remove_response := fun _ _ st => Ok st;
  st_filter_bandpass := fun _ _ st => Ok st;
  st_filter_corner := fun _ _ st => Ok st;
  st_decimate := fun _ st => Ok st;
  iris_client := Ok (fun _ _ _ _ => Raise (Exc "FDSNException" "No data available"));
  write_check := fun st _ _ =>
    match st with
    | [] => Some (Exc "ObsPyException" "Can not write empty stream to file.")
    | _ => None
    end;
  realpath := fun path => path;
|}.

Definition example_trace (rate : Q) : Trace :=
  {| stats := {| network := "IU"; station := "ANMO"; starttime := 0;
                 endtime := 60; sampling_rate := rate |};
     data := [] |}.

Definition example_stream (rate : Q) : Stream := [example_trace rate].

Definition example_fs : filesystem :=
  <["data/a.sac" := WaveformFile (example_stream 50)]>
    {["data/a.mseed" := WaveformFile (example_stream 100)]}.

(** Every [*.mseed], then every [*.sac], of the example directory. *)
Definition example_collect (fs : filesystem) (input_path : PurePath) : list string :=
  List.filter (fun p => bool_decide (is_Some (fs !! p)))
    [str (joinpath input_path "a.mseed"); str (joinpath input_path "a.sac")].

(** [mkdir] on a directory that exists: with [exist_ok=True] nothing
    happens. *)
Definition existing_directory (_ : PurePath) (fs : filesystem)
    : result unit * filesystem := (Ok tt, fs).

(** [mkdir] on a path that holds a regular file. *)
Definition not_a_directory (_ : PurePath) (fs : filesystem)
    : result unit * filesystem := (Raise (Exc "FileExistsError" "File exists"), fs).

(** No processing, SAC output. *)
Definition copy_as_sac : options := {|
  detrend := false;
  taper := None;
  filter_type := None;
  freqmin := None;
  freqmax := None;
  freq := None;
  decimate_factor := None;
  remove_response := false;
  inventory_path := None;
  output_format := "SAC";
  output_units := "VEL";
|}.

(** The sampling rates a run of the batch reports, file by file. *)
Definition reported_rates (run : option (result (list dict) * filesystem))
    : option (list (option pyval)) :=
  match run with
  | Some (Ok results, _) => Some ((fun d : dict => d !! "sampling_rate") <$> results)
  | _ => None
  end.

(** *** Independence of the files of a batch *)

(** The inventory file the task of a file reads, if any. *)
Definition inventory_read (o : options) : option string :=
  if remove_response o && truthy_str (inventory_path o) then inventory_path o
  else None.

(** The files the task of one input file reads, and the file it writes. *)
Definition task_reads (lib : obspy) (filepath : string) (o : options) (p : string)
    : Prop :=
  p = realpath lib filepath
  \/ exists inventory, inventory_read o = Some inventory /\ p = realpath lib inventory.

Definition task_writes (lib : obspy) (filepath output_dir : string) (o : options)
    (p : string) : Prop :=
  p = realpath lib (output_file filepath output_dir (output_format o)).

(** No file's output path names a file the task of another file of the
    batch reads: neither that other input file nor the inventory file. A
    file may be written over itself. *)
Definition independent_files (lib : obspy) (files : list string)
    (output_dir : string) (o : options) : Prop :=
  forall i j f g,
    i <> j -> files !! i = Some f -> files !! j = Some g ->
    ~ task_reads lib g o (realpath lib (output_file f output_dir (output_format o))).

(** The paths a computation may read ([R]) and write ([W]). *)
Inductive within (R W : string -> Prop) {A : Type} : io A -> Prop :=
| within_ret a : within R W (Ret a)
| within_get p k : R p -> (forall o, within R W (k o)) -> within R W (FsGet p k)
| within_put p f k : W p -> within R W k -> within R W (FsPut p f k).

(** The state of a task during a batch that started on [fs0], when the
    files hold [fs]: what is left of the task reads and writes the task's
    own paths only, and it still leads to the result its file has on
    [fs0]: the files it reads are as they would be had it run alone. *)
Definition task_ok (lib : obspy) (output_dir : string) (o : options)
    (fs0 fs : filesystem) (f : string) (t : task) : Prop :=
  let expected := result_of (process_file lib f output_dir o) fs0 in
  match t with
  | Queued t | Running t =>
      within (task_reads lib f o) (task_writes lib f output_dir o) t
      /\ exists alone : filesystem,
           (forall p, task_reads lib f o p -> fs !! p = alone !! p)
           /\ result_of t alone = expected
  | Done d => d = expected
  end.

Definition pool_inv (lib : obspy) (files : list string) (output_dir : string)
    (o : options) (fs0 : filesystem) (s : pool) : Prop :=
  length (pool_tasks s) = length files
  /\ forall i f t,
       files !! i = Some f -> pool_tasks s !! i = Some t ->
       task_ok lib output_dir o fs0 (pool_fs s) f t.

(** The obspy contract the result dict relies on: [Stream.write] refuses
    an empty stream. *)
Definition write_refuses_empty (lib : obspy) : Prop :=
  forall path fmt, write_check lib [] path fmt <> None.

(** Running a body from a given value of [result]. *)
Definition exec {A} (m : P A) (d : dict) (fs : filesystem)
    : result A * dict * filesystem :=
  run_io (m d) fs.

(** [m] leaves the dict [result] as it found it. *)
Definition keeps {A} (m : P A) : Prop :=
  forall d fs, (exec m d fs).1.2 = d.

(** Started with [result = d0], [m] ends with an outcome and a dict that
    satisfy [post]. *)
Definition ends_in {A} (d0 : dict) (m : P A) (post : result A -> dict -> Prop) : Prop :=
  forall fs, post (exec m d0 fs).1.1 (exec m d0 fs).1.2.

(** The shape of a result dict: how "status", "error" and "output" go together. *)
Definition field_is_str (d : dict) (key : string) : Prop :=
  exists s, d !! key = Some (PyStr s).

Definition field_is_none (d : dict) (key : string) : Prop :=
  d !! key = Some PyNone.

Definition well_formed_result (d : dict) : Prop :=
  (d !! "status" = Some (PyStr "success") \/ d !! "status" = Some (PyStr "error"))
  /\ (field_is_str d "error" <-> d !! "status" = Some (PyStr "error"))
  /\ (field_is_none d "error" <-> d !! "status" = Some (PyStr "success"))
  /\ (field_is_str d "output" \/ field_is_none d "output")
  /\ (~ field_is_none d "output" -> d !! "status" = Some (PyStr "success")).

(** *** What a run leaves behind *)

(** [m] changes neither the dict [result] nor the file system. *)
Definition quiet {A} (m : P A) : Prop :=
  forall d fs, (exec m d fs).1.2 = d /\ (exec m d fs).2 = fs.

(** The result dict of a file whose processed stream [st], with first
    trace [tr], was written to [out]. *)
Definition success_result (filepath out : string) (st : Stream) (tr : Trace) : dict :=
  <["duration" := PyFloat (endtime (stats tr) - starttime (stats tr))]>
    (<["sampling_rate" := PyFloat (sampling_rate (stats tr))]>
       (<["n_traces" := PyInt (Z.of_nat (length st))]>
          (<["output" := PyStr out]> (initial_result filepath)))).

(** The result dict of a file whose processing raised an exception with
    message [msg]. *)
Definition error_result (filepath msg : string) : dict :=
  <["error" := PyStr msg]> (<["status" := PyStr "error"]> (initial_result filepath)).

(** Every value a computation can return, whatever the files hold at the
    moments it reads them. *)
Inductive leaves {A : Type} (good : A -> Prop) : io A -> Prop :=
| leaves_ret a : good a -> leaves good (Ret a)
| leaves_get p k : (forall o, leaves good (k o)) -> leaves good (FsGet p k)
| leaves_put p f k : leaves good k -> leaves good (FsPut p f k).

(** [m] leaves the dict [result] as it found it, on every path. *)
Definition always_keeps {A} (m : P A) : Prop :=
  forall d, leaves (fun rd => rd.2 = d) (m d).

(** Started with [result = d0], every path of [m] ends with an outcome
    and a dict that satisfy [post]. *)
Definition always_ends_in {A} (d0 : dict) (m : P A)
    (post : result A -> dict -> Prop) : Prop :=
  leaves (fun rd => post rd.1 rd.2) (m d0).

(** A result dict of the file [f]: well formed, and labelled with [f]. *)
Definition result_for (f : string) (d : dict) : Prop :=
  well_formed_result d /\ d !! "file" = Some (PyStr f).

(** The state of a task of the pool: whatever happens next, it ends with a
    result dict of its file. *)
Definition task_result_for (f : string) (t : task) : Prop :=
  match t with
  | Queued t | Running t => leaves (result_for f) t
  | Done d => result_for f d
  end.

End BatchProcess.

(** ** obspy/scripts/batch_process.py: the command line *)

Module BatchProcessMain.
Import Host.

(** What [parser.parse_args()] returns. *)
Record Namespace := {
  input : string;
  output : string;
  workers : Z;
  no_detrend : bool;
  taper : Q;
  decimate : option Z;
  filter : option string;
  freqmin : option Q;
  freqmax : option Q;
  freq : option Q;
  remove_response : bool;
  inventory : option string;
  units : string;
  format : string;
}.

(** The arguments added to the parser itself, and the argument groups
    with the arguments added to each. *)
Definition parser_arguments : list string := ["input"; "--output"; "--workers"].

Definition argument_groups : list (string * list string) := [
  ("Processing options", ["--no-detrend"; "--taper"; "--decimate"]);
  ("Filter options", ["--filter"; "--freqmin"; "--freqmax"; "--freq"]);
  ("Response removal", ["--remove-response"; "--inventory"; "--units"]);
  ("Output options", ["--format"])
].

(** [parser.error(message)]: argparse prints the usage and the message to
    stderr and exits with status 2. *)
Definition parser_error (message : string) : script unit :=
  extcall_or_exit "argparse.ArgumentParser" "error" (inl 2%Z).

Definition is_none {A} (o : option A) : bool :=
  match o with None => true | Some _ => false end.

(** The keyword arguments [main] hands to [batch_process]. *)
Definition keyword_arguments (args : Namespace) : BatchProcess.options := {|
  BatchProcess.detrend := negb (no_detrend args);
  BatchProcess.taper := Some (taper args);
  BatchProcess.filter_type := filter args;
  BatchProcess.freqmin := freqmin args;
  BatchProcess.freqmax := freqmax args;
  BatchProcess.freq := freq args;
  BatchProcess.decimate_factor := decimate args;
  BatchProcess.remove_response := remove_response args;
  BatchProcess.inventory_path := inventory args;
  BatchProcess.output_format := format args;
  BatchProcess.output_units := units args;
|}.

(** [main]. [parse_args] is argparse applied to [sys.argv]; [batch_process]
    is the call into [batch_process], with its prints and file accesses. *)
Definition main (parse_args : list string -> Z + Namespace)
    (batch_process : string -> string -> Z -> BatchProcess.options
                     -> script (list BatchProcess.dict))
    (argv : list string) : script unit :=
  _ ← extcall "argparse" "ArgumentParser" (Ok tt);
  _ ← for_each parser_arguments
        (fun _ => extcall "argparse.ArgumentParser" "add_argument" (Ok tt));
  _ ← for_each argument_groups (fun group =>
        _ ← extcall "argparse.ArgumentParser" "add_argument_group" (Ok tt);
        for_each group.2
          (fun _ => extcall "argparse._ArgumentGroup" "add_argument" (Ok tt)));
  args ← extcall_or_exit "argparse.ArgumentParser" "parse_args" (parse_args argv);
  (* Validate filter arguments *)
  _ ← (if bool_decide (filter args = Some "bandpass")
          && (is_none (freqmin args) || is_none (freqmax args))
       then parser_error "Bandpass filter requires --freqmin and --freqmax"
       else mret tt);
  _ ← (if bool_decide (filter args = Some "highpass")
          && is_none (freqmin args) && is_none (freq args)
       then parser_error "Highpass filter requires --freqmin or --freq"
       else mret tt);
  _ ← (if bool_decide (filter args = Some "lowpass")
          && is_none (freqmax args) && is_none (freq args)
       then parser_error "Lowpass filter requires --freqmax or --freq"
       else mret tt);
  _ ← batch_process (input args) (output args) (workers args) (keyword_arguments args);
  mret tt.

(** The calls [main] makes into argparse to build the parser and parse the
    command line, in order, and the call [parser.error] makes. *)
Definition main_argparse_calls : list call :=
  {| callee := "argparse"; method := "ArgumentParser" |}
  :: map (fun _ => {| callee := "argparse.ArgumentParser"; method := "add_argument" |})
       parser_arguments
  ++ concat (map (fun group : string * list string =>
                    {| callee := "argparse.ArgumentParser";
                       method := "add_argument_group" |}
                    :: map (fun _ => {| callee := "argparse._ArgumentGroup";
                                        method := "add_argument" |}) group.2)
               argument_groups)
  ++ [{| callee := "argparse.ArgumentParser"; method := "parse_args" |}].

Definition parser_error_call : call :=
  {| callee := "argparse.ArgumentParser"; method := "error" |}.

(** The frequencies the chosen filter needs were given. *)
Definition filter_frequencies_given (o : BatchProcess.options) : bool :=
  if bool_decide (BatchProcess.filter_type o = Some "bandpass")
  then negb (is_none (BatchProcess.freqmin o)) && negb (is_none (BatchProcess.freqmax o))
  else if bool_decide (BatchProcess.filter_type o = Some "highpass")
  then negb (is_none (BatchProcess.freqmin o)) || negb (is_none (BatchProcess.freq o))
  else if bool_decide (BatchProcess.filter_type o = Some "lowpass")
  then negb (is_none (BatchProcess.freqmax o)) || negb (is_none (BatchProcess.freq o))
  else true.

(** Example: a command line [prog INPUT --filter highpass --freq F]. *)
Definition highpass_args (corner : Q) : Namespace := {|
  input := "data"; output := "processed"; workers := 4;
  no_detrend := false; taper := 5 # 100; decimate := None;
  filter := Some "highpass"; freqmin := None; freqmax := None; freq := Some corner;
  remove_response := false; inventory := None; units := "VEL"; format := "MSEED";
|}.

End BatchProcessMain.

(** ** lasio/scripts/merge_curves.py *)

Module MergeCurves.
Import Host.

(** An item of [las.curves]: the attributes [mnemonic], [unit] and [descr]
    the script reads. *)
Record CurveItem := { mnemonic : string; curve_unit : string; descr : string }.

(** lasio, pandas, numpy and pathlib as far as the script calls them.
    Objects the script changes in place (a frame that gets a column, the
    output LAS file) are returned as they are after the call. *)
Record packages := {
  LASFile : Type;
  SectionItems : Type;
  HeaderItem : Type;
  DataFrame : Type;
  Series : Type;
  ndarray : Type;
  Scalar : Type;
  lasio_read : string -> result LASFile;
  (** [las.well], [las.curves]. *)
  las_well : LASFile -> SectionItems;
  las_curves : LASFile -> list CurveItem;
  las_df : LASFile -> result DataFrame;
  df_reset_index : DataFrame -> result DataFrame;
  (** [Path(p).name]. *)
  path_name : string -> string;
  (** [df[column] = value] for a string value. *)
  df_setitem : DataFrame -> string -> string -> result DataFrame;
  df_columns : DataFrame -> list string;
  (** [df.drop(column, axis=1)]. *)
  df_drop : DataFrame -> string -> result DataFrame;
  (** [df[[c1, c2, ...]]] and [df[c]]. *)
  df_getitem_list : DataFrame -> list string -> result DataFrame;
  df_getitem : DataFrame -> string -> result Series;
  (** [left.merge(right, on=column, how="outer")]. *)
  df_merge : DataFrame -> DataFrame -> string -> result DataFrame;
  df_sort_values : DataFrame -> string -> result DataFrame;
  (** [df.reset_index(drop=True)]. *)
  df_reset_index_drop : DataFrame -> result DataFrame;
  series_min : Series -> result Scalar;
  series_max : Series -> result Scalar;
  (** [s.iloc[i]] and [s.values]. *)
  series_iloc : Series -> Z -> result Scalar;
  series_values : Series -> ndarray;
  np_arange : Scalar -> Scalar -> Q -> result ndarray;
  (** [pd.DataFrame({column: values})]. *)
  pd_DataFrame : string -> ndarray -> result DataFrame;
  (** [np.interp(x, xp, fp, left=np.nan, right=np.nan)]. *)
  np_interp : ndarray -> ndarray -> ndarray -> result ndarray;
  (** [df[column] = values] for an array. *)
  df_setitem_array : DataFrame -> string -> ndarray -> result DataFrame;
  lasio_LASFile : result LASFile;
  section_keys : SectionItems -> result (list string);
  section_getitem : SectionItems -> string -> result HeaderItem;
  (** [las.well[key] = item]. *)
  las_well_setitem : LASFile -> string -> HeaderItem -> result LASFile;
  (** [las.well[key].value = v], for a value read from a frame and for
      the float given on the command line. *)
  las_set_well_value : LASFile -> string -> Scalar -> result LASFile;
  las_set_well_step : LASFile -> string -> Q -> result LASFile;
  (** [las.append_curve(mnemonic, data, unit=, descr=)]. *)
  las_append_curve : LASFile -> string -> ndarray -> string -> string -> result LASFile;
  las_write : LASFile -> string -> result unit;
  (** pathlib, as [main] uses it. *)
  path_str : string -> string;
  path_exists : string -> bool;
  path_glob : string -> result (list string);
}.

(** [curve_info]: mnemonic to (unit, descr). *)
Abbreviation curve_info := (gmap string (string * string)).

(** [for curve in las.curves: if curve.mnemonic not in curve_info: ...]. *)
Fixpoint store_curves (curves : list CurveItem) (info : curve_info) : curve_info :=
  match curves with
  | [] => info
  | curve :: rest =>
      store_curves rest
        (match info !! mnemonic curve with
         | Some _ => info
         | None => <[mnemonic curve := (curve_unit curve, descr curve)]> info
         end)
  end.

(** The first loop of [merge_las_files], with the three variables it
    updates: [dfs], [well_info] and [curve_info]. *)
Fixpoint read_files (pk : packages) (las_paths : list string)
    (dfs : list (DataFrame pk)) (well_info : option (SectionItems pk))
    (info : curve_info)
    : script (list (DataFrame pk) * option (SectionItems pk) * curve_info) :=
  match las_paths with
  | [] => mret (dfs, well_info, info)
  | path :: rest =>
      las ← extcall "lasio" "read" (lasio_read pk path);
      (* Get first file's well info *)
      let well_info :=
        match well_info with None => Some (las_well pk las) | Some _ => well_info end in
      (* Store curve metadata *)
      let info := store_curves (las_curves pk las) info in
      df ← extcall "lasio.LASFile" "df" (las_df pk las);
      df ← extcall "pandas.DataFrame" "reset_index" (df_reset_index pk df);
      df ← extcall "pandas.DataFrame" "__setitem__"
             (df_setitem pk df "_source" (path_name pk path));
      read_files pk rest (dfs ++ [df]) well_info info
  end.

(** [for name in [...]: if name in dfs[0].columns: depth_col = name; break]. *)
Fixpoint find_depth_name (pk : packages) (dfs : list (DataFrame pk))
    (names : list string) : result (option string) :=
  match names with
  | [] => Ok None
  | name :: rest =>
      df ← py_index dfs 0;
      if bool_decide (name ∈ df_columns pk df) then Ok (Some name)
      else find_depth_name pk dfs rest
  end.

(** Find common depth column *)
Definition find_depth_col (pk : packages) (dfs : list (DataFrame pk))
    (depth_curve : option string) : result string :=
  match depth_curve with
  | Some depth_col => Ok depth_col
  | None =>
      found ← find_depth_name pk dfs ["DEPT"; "DEPTH"; "MD"; "TVD"];
      match found with
      | Some depth_col => Ok depth_col
      | None => df ← py_index dfs 0; py_index (df_columns pk df) 0
      end
  end.

(** [for df in dfs[1:]: ...]: merge all dataframes. *)
Fixpoint merge_frames (pk : packages) (depth_col : string)
    (dfs : list (DataFrame pk)) (merged : DataFrame pk) : script (DataFrame pk) :=
  match dfs with
  | [] => mret merged
  | df :: rest =>
      df ← extcall "pandas.DataFrame" "drop" (df_drop pk df "_source");
      (* Only add curves that don't exist *)
      let new_cols :=
        List.filter (fun c => negb (bool_decide (c ∈ df_columns pk merged)))
          (df_columns pk df) in
      merged ← (match new_cols with
                | [] => mret merged
                | _ =>
                    sub ← extcall "pandas.DataFrame" "__getitem__"
                            (df_getitem_list pk df (depth_col :: new_cols));
                    extcall "pandas.DataFrame" "merge" (df_merge pk merged sub depth_col)
                end);
      merge_frames pk depth_col rest merged
  end.

(** [for col in merged.columns: if col != depth_col: resampled[col] = ...]. *)
Fixpoint resample_columns (pk : packages) (depth_col : string)
    (merged : DataFrame pk) (new_depth : ndarray pk) (columns : list string)
    (resampled : DataFrame pk) : script (DataFrame pk) :=
  match columns with
  | [] => mret resampled
  | col :: rest =>
      resampled ←
        (if negb (String.eqb col depth_col) then
           xp ← extcall "pandas.DataFrame" "__getitem__" (df_getitem pk merged depth_col);
           fp ← extcall "pandas.DataFrame" "__getitem__" (df_getitem pk merged col);
           values ← extcall "numpy" "interp"
                      (np_interp pk new_depth (series_values pk xp) (series_values pk fp));
           extcall "pandas.DataFrame" "__setitem__"
             (df_setitem_array pk resampled col values)
         else mret resampled);
      resample_columns pk depth_col merged new_depth rest resampled
  end.

(** [for key in well_info.keys(): output_las.well[key] = well_info[key]]. *)
Fixpoint copy_well_info (pk : packages) (well_info : SectionItems pk)
    (keys : list string) (output_las : LASFile pk) : script (LASFile pk) :=
  match keys with
  | [] => mret output_las
  | key :: rest =>
      item ← extcall "lasio.SectionItems" "__getitem__" (section_getitem pk well_info key);
      output_las ← extcall "lasio.SectionItems" "__setitem__"
                     (las_well_setitem pk output_las key item);
      copy_well_info pk well_info rest output_las
  end.

(** [for col in merged.columns: output_las.append_curve(...)]. *)
Fixpoint add_curves (pk : packages) (info : curve_info) (merged : DataFrame pk)
    (columns : list string) (output_las : LASFile pk) : script (LASFile pk) :=
  match columns with
  | [] => mret output_las
  | col :: rest =>
      let found := default ("", "") (info !! col) in
      data ← extcall "pandas.DataFrame" "__getitem__" (df_getitem pk merged col);
      output_las ← extcall "lasio.LASFile" "append_curve"
                     (las_append_curve pk output_las col (series_values pk data)
                        found.1 found.2);
      add_curves pk info merged rest output_las
  end.

Definition truthy_float (o : option Q) : bool :=
  match o with Some q => negb (Qeq_bool q 0) | None => false end.

Definition merge_las_files (pk : packages) (las_paths : list string)
    (output_path : string) (resample_step : option Q) (depth_curve : option string)
    : script string :=
  '(dfs, well_info, info) ← read_files pk las_paths [] None ∅;
  (* Find common depth column *)
  depth_col ← eval (find_depth_col pk dfs depth_curve);
  (* Merge all dataframes *)
  first ← eval (py_index dfs 0);
  merged ← extcall "pandas.DataFrame" "drop" (df_drop pk first "_source");
  merged ← merge_frames pk depth_col (drop 1 dfs) merged;
  (* Sort by depth *)
  merged ← extcall "pandas.DataFrame" "sort_values" (df_sort_values pk merged depth_col);
  merged ← extcall "pandas.DataFrame" "reset_index" (df_reset_index_drop pk merged);
  (* Resample if requested *)
  merged ← (if truthy_float resample_step then
              depths ← extcall "pandas.DataFrame" "__getitem__"
                         (df_getitem pk merged depth_col);
              depth_min ← extcall "pandas.Series" "min" (series_min pk depths);
              depths ← extcall "pandas.DataFrame" "__getitem__"
                         (df_getitem pk merged depth_col);
              depth_max ← extcall "pandas.Series" "max" (series_max pk depths);
              new_depth ← extcall "numpy" "arange"
                            (np_arange pk depth_min depth_max (default 0%Q resample_step));
              resampled ← extcall "pandas" "DataFrame" (pd_DataFrame pk depth_col new_depth);
              resample_columns pk depth_col merged new_depth (df_columns pk merged)
                resampled
            else mret merged);
  (* Create output LAS *)
  output_las ← extcall "lasio" "LASFile" (lasio_LASFile pk);
  (* Copy well info *)
  well_info ← eval (match well_info with
                    | Some well_info => Ok well_info
                    | None => Raise (Exc "AttributeError"
                                       "'NoneType' object has no attribute 'keys'")
                    end);
  keys ← extcall "lasio.SectionItems" "keys" (section_keys pk well_info);
  output_las ← copy_well_info pk well_info keys output_las;
  (* Update depth range *)
  depths ← extcall "pandas.DataFrame" "__getitem__" (df_getitem pk merged depth_col);
  strt ← extcall "pandas.Series" "iloc" (series_iloc pk depths 0);
  output_las ← extcall "lasio.HeaderItem" "value" (las_set_well_value pk output_las "STRT" strt);
  depths ← extcall "pandas.DataFrame" "__getitem__" (df_getitem pk merged depth_col);
  stop ← extcall "pandas.Series" "iloc" (series_iloc pk depths (-1));
  output_las ← extcall "lasio.HeaderItem" "value" (las_set_well_value pk output_las "STOP" stop);
  output_las ← (if truthy_float resample_step then
                  extcall "lasio.HeaderItem" "value"
                    (las_set_well_step pk output_las "STEP" (default 0%Q resample_step))
                else mret output_las);
  (* Add curves *)
  output_las ← add_curves pk info merged (df_columns pk merged) output_las;
  _ ← extcall "lasio.LASFile" "write" (las_write pk output_las output_path);
  mret output_path.

(** What [parser.parse_args()] returns. *)
Record Namespace := {
  files : list string;
  output : string;
  resample : option Q;
  depth_curve : option string;
}.

Definition parser_arguments : list string :=
  ["files"; "--output"; "--resample"; "--depth-curve"].

(** Expand wildcards on Windows *)
Fixpoint expand_files (pk : packages) (given : list string) (files : list string)
    : script (list string) :=
  match given with
  | [] => mret files
  | f :: rest =>
      files ← (if ValidateSkills.contains "*" f then
                 found ← extcall "pathlib.Path" "glob" (path_glob pk f);
                 mret (files ++ found)
               else
                 present ← extcall "pathlib.Path" "exists" (Ok (path_exists pk f));
                 mret (if present : bool then files ++ [f] else files));
      expand_files pk rest files
  end.

Definition main (pk : packages) (parse_args : list string -> Z + Namespace)
    (argv : list string) : script unit :=
  _ ← extcall "argparse" "ArgumentParser" (Ok tt);
  _ ← for_each parser_arguments
        (fun _ => extcall "argparse.ArgumentParser" "add_argument" (Ok tt));
  args ← extcall_or_exit "argparse.ArgumentParser" "parse_args" (parse_args argv);
  files ← expand_files pk (files args) [];
  if (length files <? 2)%nat then
    _ ← print "Error: Need at least 2 files to merge";
    sys_exit 1
  else
    result ← merge_las_files pk (map (path_str pk) files) (output args)
               (resample args) (depth_curve args);
    _ ← print (String.append "Created: " result);
    print (String.append "Merged "
             (String.append (pretty (length files)) " files")).

(** The calls [main] makes into argparse, in order. *)
Definition main_argparse_calls : list call :=
  {| callee := "argparse"; method := "ArgumentParser" |}
  :: map (fun _ => {| callee := "argparse.ArgumentParser"; method := "add_argument" |})
       parser_arguments
  ++ [{| callee := "argparse.ArgumentParser"; method := "parse_args" |}].

(** *** Notions used to state when the script writes *)

Definition write_call : call := {| callee := "lasio.LASFile"; method := "write" |}.

Abbreviation not_write := (fun c : call => negb (is_method "write" c)).

(** [m] makes no call of a method named write and does not end the
    process. *)
Definition prepares {A} (m : script A) : Prop :=
  forall w,
    (exists cs, calls (m w).2 = calls w ++ cs /\ forallb not_write cs = true)
    /\ forall code, (m w).1 <> Exited code.

(** [m] ends by writing [out]: when it returns, it returns [out] and its
    last call, and only that one, is the write; when it raises, either
    nothing was written or the exception is the one the write raised. *)
Definition delivers (pk : packages) (out : string) (m : script string) : Prop :=
  forall w,
    exists cs,
      calls (m w).2 = calls w ++ cs
      /\ match (m w).1 with
         | Returned p =>
             p = out
             /\ exists cs', cs = cs' ++ [write_call] /\ forallb not_write cs' = true
         | Raised e =>
             forallb not_write cs = true
             \/ exists las, las_write pk las out = Raise e
         | Exited _ => False
         end.

Definition exists_call : call := {| callee := "pathlib.Path"; method := "exists" |}.

(** *** Example data

    Packages whose objects carry no data: [a.las] and [b.las] can be read
    and exist, every other path cannot and does not. *)
Definition example_packages : packages := {|
  LASFile := unit; SectionItems := unit; HeaderItem := unit; DataFrame := unit;
  Series := unit; ndarray := unit; Scalar := unit;
  lasio_read := fun p =>
    if String.eqb p "a.las" || String.eqb p "b.las" then Ok tt
    else Raise (Exc "FileNotFoundError" "No such file or directory");
  las_well := fun _ => tt;
  las_curves := fun _ => [];
  las_df := fun _ => Ok tt;
  df_reset_index := fun _ => Ok tt;
  path_name := fun p => p;
  df_setitem := fun _ _ _ => Ok tt;
  df_columns := fun _ => ["DEPT"; "GR"];
  df_drop := fun _ _ => Ok tt;
  df_getitem_list := fun _ _ => Ok tt;
  df_getitem := fun _ _ => Ok tt;
  df_merge := fun _ _ _ => Ok tt;
  df_sort_values := fun _ _ => Ok tt;
  df_reset_index_drop := fun _ => Ok tt;
  series_min := fun _ => Ok tt;
  series_max := fun _ => Ok tt;
  series_iloc := fun _ _ => Ok tt;
  series_values := fun _ => tt;
  np_arange := fun _ _ _ => Ok tt;
  pd_DataFrame := fun _ _ => Ok tt;
  np_interp := fun _ _ _ => Ok tt;
  df_setitem_array := fun _ _ _ => Ok tt;
  lasio_LASFile := Ok tt;
  section_keys := fun _ => Ok ["STRT"; "STOP"; "STEP"];
  section_getitem := fun _ _ => Ok tt;
  las_well_setitem := fun _ _ _ => Ok tt;
  las_set_well_value := fun _ _ _ => Ok tt;
  las_set_well_step := fun _ _ _ => Ok tt;
  las_append_curve := fun _ _ _ _ _ => Ok tt;
  las_write := fun _ _ => Ok tt;
  path_str := fun p => p;
  path_exists := fun p => String.eqb p "a.las" || String.eqb p "b.las";
  path_glob := fun _ => Ok [];
|}.

(** argparse on a command line [prog FILE ... -o OUTPUT]. *)
Definition example_parse_args (argv : list string) : Z + Namespace :=
  match argv with
  | _ :: rest =>
      inr {| files := take (length rest - 2) rest;
             output := default "" (last rest);
             resample := None; depth_curve := None |}
  | [] => inl 2%Z
  end.

End MergeCurves.


Module AvoAnalysisProofs.
Import AvoAnalysis.

Lemma py_div_nonzero (x y : Q) : ~ (y == 0)%Q -> py_div x y = Ok (x / y)%Q.
Proof.
  intros Hy. unfold py_div.
  destruct (Qeq_bool y 0) eqn:E; [|reflexivity].
  apply Qeq_bool_eq in E. contradiction.
Qed.

Lemma getattr_allocated (h : heap) l L f :
  h !! l = Some L -> getattr l f h = (Ok (f L), h).
Proof. intros H. unfold getattr. by rewrite H. Qed.

Section Shuey.
Variables (np_sin np_deg2rad : Q -> Q).

Lemma shuey_run (h : heap) l1 l2 L1 L2 theta :
  h !! l1 = Some L1 -> h !! l2 = Some L2 ->
  ~ (vp_avg L1 L2 == 0)%Q -> ~ (vs_avg L1 L2 == 0)%Q -> ~ (rho_avg L1 L2 == 0)%Q ->
  shuey np_sin np_deg2rad l1 l2 theta h
  = (Ok (shuey_Rpp np_sin np_deg2rad L1 L2 theta), h).
Proof.
  intros H1 H2 Hvp Hvs Hrho.
  unfold shuey, mbind, M_bind.
  repeat (first [rewrite (getattr_allocated h l1 L1) by assumption
                |rewrite (getattr_allocated h l2 L2) by assumption]).
  unfold lift.
  fold (vp_avg L1 L2) (vs_avg L1 L2) (rho_avg L1 L2).
  rewrite !py_div_nonzero by assumption.
  unfold mret, M_ret, shuey_Rpp, shuey_R0, shuey_G.
  by rewrite map_map.
Qed.

Lemma positive_layers_averages L1 L2 :
  positive_layer L1 -> positive_layer L2 ->
  (0 < vp_avg L1 L2 /\ 0 < vs_avg L1 L2 /\ 0 < rho_avg L1 L2)%Q.
Proof.
  intros (Hp1 & Hs1 & Hr1) (Hp2 & Hs2 & Hr2).
  unfold vp_avg, vs_avg, rho_avg.
  repeat split; apply Qlt_shift_div_l; lra.
Qed.

Lemma shuey_run_positive (h : heap) l1 l2 L1 L2 theta :
  h !! l1 = Some L1 -> h !! l2 = Some L2 ->
  positive_layer L1 -> positive_layer L2 ->
  shuey np_sin np_deg2rad l1 l2 theta h
  = (Ok (shuey_Rpp np_sin np_deg2rad L1 L2 theta), h).
Proof.
  intros H1 H2 P1 P2.
  destruct (positive_layers_averages L1 L2 P1 P2) as (Hvp & Hvs & Hrho).
  apply shuey_run; try assumption; intros E; rewrite E in *;
    eapply Qlt_irrefl; eassumption.
Qed.

(** C6. For two allocated layers whose vp, vs and rho are all strictly
    positive and for every angle array, the three denominators [shuey]
    divides by (vp_avg, vs_avg, rho_avg) are strictly positive, so no
    division raises; [shuey] returns the two-term closed form, one value
    per angle, and leaves the store of layer objects exactly as it was. *)
Theorem shuey_total_on_positive_layers (h : heap) l1 l2 L1 L2 theta :
  h !! l1 = Some L1 -> h !! l2 = Some L2 ->
  positive_layer L1 -> positive_layer L2 ->
  (0 < vp_avg L1 L2 /\ 0 < vs_avg L1 L2 /\ 0 < rho_avg L1 L2)%Q /\
  shuey np_sin np_deg2rad l1 l2 theta h
  = (Ok (shuey_Rpp np_sin np_deg2rad L1 L2 theta), h) /\
  length (shuey_Rpp np_sin np_deg2rad L1 L2 theta) = length theta.
Proof.
  intros H1 H2 P1 P2.
  split; [by apply positive_layers_averages|]. split.
  - by apply shuey_run_positive.
  - unfold shuey_Rpp. apply length_map.
Qed.

(** C2, as amended. The degree-1 fit is computed from five sample points,
    not two: the abscissae are sin^2 of the angles 0, 5, 10, 15 and 20
    degrees and the ordinates are the Shuey reflectivities at those angles;
    whatever [np.polyfit] is, the function hands it exactly these two
    five-element arrays with degree 1 and returns (A[1], A[0]). *)
Theorem calculate_intercept_gradient_fits_five_points (h : heap) l1 l2 L1 L2 :
  h !! l1 = Some L1 -> h !! l2 = Some L2 ->
  positive_layer L1 -> positive_layer L2 ->
  let xs := map (fun t => (np_sin (np_deg2rad t) ^ 2)%Q) fit_theta in
  let ys := shuey_Rpp np_sin np_deg2rad L1 L2 fit_theta in
  length xs = 5%nat /\ length ys = 5%nat /\
  forall np_polyfit,
    calculate_intercept_gradient np_sin np_deg2rad np_polyfit l1 l2 h
    = (linear_fit_result (np_polyfit xs ys 1%nat), h).
Proof.
  intros H1 H2 P1 P2 xs ys.
  split; [reflexivity|]. split; [reflexivity|].
  intros np_polyfit.
  pose proof (shuey_run_positive h l1 l2 L1 L2 fit_theta H1 H2 P1 P2) as Hrun.
  unfold calculate_intercept_gradient, mbind at 1, M_bind at 1.
  rewrite Hrun. fold xs ys.
  cbv [linear_fit_result mbind M_bind result_mbind result_bind lift].
  destruct (np_polyfit xs ys 1%nat) as [A|e]; [|reflexivity].
  destruct (py_index A 0) as [g|e]; [|reflexivity].
  destruct (py_index A 1) as [i|e]; reflexivity.
Qed.

(** C3, as amended. With both layers allocated: when the import of
    [bruges.reflection.zoeppritz] succeeds and the routine returns a value,
    [zoeppritz] returns that value, having passed (vp1, vs1, rho1, vp2,
    vs2, rho2, theta) in this order; when the import (or the call) raises
    an [ImportError], it returns what the repository's own [shuey]
    computes; any other exception propagates. *)
Theorem zoeppritz_external_or_shuey_fallback (h : heap) l1 l2 L1 L2 theta imp :
  h !! l1 = Some L1 -> h !! l2 = Some L2 ->
  let external brg :=
    brg (vp L1) (vs L1) (rho L1) (vp L2) (vs L2) (rho L2) theta in
  let run := zoeppritz np_sin np_deg2rad imp l1 l2 theta h in
  (forall brg v, imp = Ok brg -> external brg = Ok v -> run = (Ok v, h)) /\
  (forall brg e, imp = Ok brg -> external brg = Raise e ->
     run = if isinstance e "ImportError"
           then shuey np_sin np_deg2rad l1 l2 theta h else (Raise e, h)) /\
  (forall e, imp = Raise e ->
     run = if isinstance e "ImportError"
           then shuey np_sin np_deg2rad l1 l2 theta h else (Raise e, h)).
Proof.
  intros H1 H2 external run. subst external run.
  unfold zoeppritz, mbind, M_bind, lift.
  repeat split.
  - intros brg v -> Hv.
    repeat (first [rewrite (getattr_allocated h l1 L1) by assumption
                  |rewrite (getattr_allocated h l2 L2) by assumption]).
    by rewrite Hv.
  - intros brg e -> He.
    repeat (first [rewrite (getattr_allocated h l1 L1) by assumption
                  |rewrite (getattr_allocated h l2 L2) by assumption]).
    by rewrite He.
  - by intros e ->.
Qed.
End Shuey.

(** C10. [classify_avo] is total and returns one of the six class labels;
    which one is fixed by the band of the intercept (above 0.02, in
    (-0.02, 0.02], at most -0.02) and by whether the gradient is negative. *)
Theorem classify_avo_exhaustive (intercept gradient : Q) :
  let c := classify_avo intercept gradient in
  In c avo_classes /\ NoDup avo_classes /\
  (c = "I" <-> (2#100 < intercept /\ gradient < 0)%Q) /\
  (c = "I (anomalous)" <-> (2#100 < intercept /\ 0 <= gradient)%Q) /\
  (c = "II" <-> (-(2#100) < intercept <= 2#100 /\ gradient < 0)%Q) /\
  (c = "IIp" <-> (-(2#100) < intercept <= 2#100 /\ 0 <= gradient)%Q) /\
  (c = "III" <-> (intercept <= -(2#100) /\ gradient < 0)%Q) /\
  (c = "IV" <-> (intercept <= -(2#100) /\ 0 <= gradient)%Q).
Proof.
  intros c. subst c. unfold classify_avo, avo_classes.
  split; [|split].
  - repeat destruct (Qlt_le_dec _ _); simpl; tauto.
  - repeat constructor; rewrite ?elem_of_cons, ?elem_of_nil; intuition discriminate.
  - repeat destruct (Qlt_le_dec _ _);
      repeat split; intros; try discriminate; try lra; try reflexivity.
Qed.

(** Witness for C6: the layers of the script's usage line. *)
Lemma shuey_total_witness :
  (0 < vp_avg example_layer1 example_layer2)%Q /\
  shuey approx_sin approx_deg2rad 0%nat 1%nat [0; 30]%Q example_heap
  = (Ok (shuey_Rpp approx_sin approx_deg2rad example_layer1 example_layer2 [0; 30]%Q),
     example_heap).
Proof.
  destruct (shuey_total_on_positive_layers approx_sin approx_deg2rad example_heap
              0%nat 1%nat example_layer1 example_layer2 [0; 30]%Q)
    as ((Hvp & _) & Hrun & _).
  - reflexivity.
  - reflexivity.
  - unfold positive_layer; simpl; lra.
  - unfold positive_layer; simpl; lra.
  - split; assumption.
Defined.

(** Witness for C2 as amended: a fitting routine that reports the sizes of
    its two arguments reports five and five. *)
Lemma calculate_intercept_gradient_five_witness :
  calculate_intercept_gradient approx_sin approx_deg2rad polyfit_reporting_size
    0%nat 1%nat example_heap
  = (Ok (5, 5)%Q, example_heap).
Proof.
  destruct (calculate_intercept_gradient_fits_five_points approx_sin approx_deg2rad
              example_heap 0%nat 1%nat example_layer1 example_layer2)
    as (_ & _ & Hfit).
  - reflexivity.
  - reflexivity.
  - unfold positive_layer; simpl; lra.
  - unfold positive_layer; simpl; lra.
  - rewrite Hfit. reflexivity.
Defined.

(** Counterexample to C2 as stated: no pair of two-element arrays accounts
    for what [calculate_intercept_gradient] passes to the fitting routine. *)
Lemma calculate_intercept_gradient_not_two_points :
  ~ exists xs ys : list Q,
      length xs = 2%nat /\ length ys = 2%nat /\
      forall np_polyfit,
        calculate_intercept_gradient approx_sin approx_deg2rad np_polyfit
          0%nat 1%nat example_heap
        = (linear_fit_result (np_polyfit xs ys 1%nat), example_heap).
Proof.
  intros (xs & ys & Hx & Hy & Hfit).
  specialize (Hfit polyfit_reporting_size).
  unfold polyfit_reporting_size at 2 in Hfit. rewrite Hx, Hy in Hfit.
  vm_compute in Hfit. discriminate Hfit.
Qed.

(** Witness for C3 as amended: with bruges missing the Shuey value comes back. *)
Lemma zoeppritz_fallback_witness :
  zoeppritz approx_sin approx_deg2rad bruges_not_installed 0%nat 1%nat [0; 30]%Q
    example_heap
  = shuey approx_sin approx_deg2rad 0%nat 1%nat [0; 30]%Q example_heap.
Proof.
  destruct (zoeppritz_external_or_shuey_fallback approx_sin approx_deg2rad
              example_heap 0%nat 1%nat example_layer1 example_layer2 [0; 30]%Q
              bruges_not_installed)
    as (_ & _ & Hraise).
  - reflexivity.
  - reflexivity.
  - exact (Hraise _ eq_refl).
Defined.

(** Counterexample to C3 as stated: when bruges cannot be imported there is
    no external routine whose value [zoeppritz] returns, yet it returns one. *)
Lemma zoeppritz_not_always_external :
  ~ (forall imp, exists brg,
       imp = Ok brg /\
       zoeppritz approx_sin approx_deg2rad imp 0%nat 1%nat [0; 30]%Q example_heap
       = (brg 3000 1500 (24#10) 3500 1800 (25#10) [0; 30], example_heap)%Q)
  /\ exists Rpp,
       zoeppritz approx_sin approx_deg2rad bruges_not_installed 0%nat 1%nat
         [0; 30]%Q example_heap
       = (Ok Rpp, example_heap).
Proof.
  split.
  - intros Hall. destruct (Hall bruges_not_installed) as (brg & Himp & _).
    discriminate Himp.
  - eexists. vm_compute. reflexivity.
Qed.

(** *** Layers on which the formulas are not defined *)

Lemma half_zero (x : Q) : (x / 2 == 0)%Q -> (x == 0)%Q.
Proof.
  intros H. assert (E : (x == x / 2 * 2)%Q) by field. rewrite E, H. reflexivity.
Qed.

Lemma py_div_zero (x y : Q) : (y == 0)%Q -> py_div x y = Raise ZeroDivisionError.
Proof.
  intros Hy. unfold py_div.
  destruct (Qeq_bool y 0) eqn:E; [reflexivity|].
  apply Qeq_bool_neq in E. contradiction.
Qed.

(** X8. A zero average makes [shuey] fail. For two allocated layers
    whose P velocities, S velocities or densities add up to zero (two
    fluid layers, with vs = 0, are such a pair) [shuey] raises
    ZeroDivisionError, whatever the angles, and leaves the layer objects as
    they were. *)
Theorem shuey_raises_on_a_zero_average np_sin np_deg2rad (h : heap)
    l1 l2 L1 L2 angles :
  h !! l1 = Some L1 -> h !! l2 = Some L2 ->
  (vp L1 + vp L2 == 0 \/ vs L1 + vs L2 == 0 \/ rho L1 + rho L2 == 0)%Q ->
  shuey np_sin np_deg2rad l1 l2 angles h = (Raise ZeroDivisionError, h).
Proof.
  intros H1 H2 Hzero.
  unfold shuey, mbind, M_bind.
  repeat (first [rewrite (getattr_allocated h l1 L1) by assumption
                |rewrite (getattr_allocated h l2 L2) by assumption]).
  unfold lift.
  destruct (Qeq_dec (vp L1 + vp L2) 0) as [Evp|Nvp].
  { rewrite (py_div_zero _ ((vp L1 + vp L2) / 2)); [reflexivity|].
    rewrite Evp. reflexivity. }
  rewrite (py_div_nonzero _ ((vp L1 + vp L2) / 2))
    by (intros E; by apply Nvp, half_zero).
  destruct (Qeq_dec (rho L1 + rho L2) 0) as [Erho|Nrho].
  { rewrite (py_div_zero _ ((rho L1 + rho L2) / 2)); [reflexivity|].
    rewrite Erho. reflexivity. }
  rewrite !(py_div_nonzero _ ((rho L1 + rho L2) / 2))
    by (intros E; by apply Nrho, half_zero).
  rewrite !(py_div_nonzero _ ((vp L1 + vp L2) / 2))
    by (intros E; by apply Nvp, half_zero).
  destruct Hzero as [E|[E|E]]; [contradiction| |contradiction].
  rewrite (py_div_zero _ ((vs L1 + vs L2) / 2)); [reflexivity|].
  rewrite E. reflexivity.
Qed.

(** Witness: a fluid over itself. *)
Lemma shuey_raises_on_fluids_witness :
  shuey approx_sin approx_deg2rad 0%nat 0%nat [0; 30]%Q fluid_heap
  = (Raise ZeroDivisionError, fluid_heap).
Proof.
  apply (shuey_raises_on_a_zero_average approx_sin approx_deg2rad
           fluid_heap 0%nat 0%nat fluid_layer fluid_layer [0; 30]%Q
           eq_refl eq_refl).
  right; left. reflexivity.
Defined.

(** *** The derived properties of a layer *)

Lemma vp_vs_ratio_run (h : heap) l L :
  h !! l = Some L -> vp_vs_ratio l h = (py_div (vp L) (vs L), h).
Proof.
  intros H. unfold vp_vs_ratio, mbind, M_bind.
  by rewrite !(getattr_allocated h l L).
Qed.

(** X9. Where Poisson's ratio is not defined. For an allocated layer
    with vs = 0 (a fluid) or with vp = vs, the property [poissons_ratio]
    raises ZeroDivisionError; the layer object is not changed. *)
Theorem poissons_ratio_undefined (h : heap) l L :
  h !! l = Some L ->
  (vs L == 0 \/ vp L == vs L)%Q ->
  poissons_ratio l h = (Raise ZeroDivisionError, h).
Proof.
  intros H. unfold poissons_ratio, mbind, M_bind. rewrite (vp_vs_ratio_run h l L H).
  intros [Evs|Evp].
  - by rewrite py_div_zero.
  - destruct (Qeq_dec (vs L) 0) as [Evs|Nvs]; [by rewrite py_div_zero|].
    rewrite py_div_nonzero by exact Nvs. unfold lift.
    rewrite py_div_zero; [reflexivity|]. rewrite Evp. field. exact Nvs.
Qed.

(** Witness: a fluid. *)
Lemma poissons_ratio_fluid_witness :
  poissons_ratio 0%nat fluid_heap = (Raise ZeroDivisionError, fluid_heap).
Proof.
  apply (poissons_ratio_undefined fluid_heap 0%nat fluid_layer eq_refl).
  left. reflexivity.
Defined.

End AvoAnalysisProofs.

Module BatchProcessProofs.
Import Pathlib BatchProcess.

(** *** Running a computation *)

Lemma run_io_bind {A B} (t : io A) (k : A -> io B) fs :
  run_io (io_bind t k) fs = run_io (k (run_io t fs).1) (run_io t fs).2.
Proof.
  revert fs. induction t as [a|p c IH|p f c IH]; intros fs; simpl; auto.
Qed.

Lemma exec_bind {A B} (m : P A) (k : A -> P B) d fs :
  exec (m ≫= k) d fs =
  match exec m d fs with
  | (Ok a, d', fs') => exec (k a) d' fs'
  | (Raise e, d', fs') => (Raise e, d', fs')
  end.
Proof.
  unfold exec, mbind, P_bind. rewrite run_io_bind.
  destruct (run_io (m d) fs) as [[[a|e] d'] fs']; reflexivity.
Qed.

(** *** Statements that do not assign to [result] *)

Lemma keeps_ret {A} (a : A) : keeps (mret a : P A).
Proof. intros d fs. reflexivity. Qed.

Lemma keeps_call {A} (r : result A) : keeps (call r).
Proof. intros d fs. reflexivity. Qed.

Lemma keeps_read lib path : keeps (read lib path).
Proof.
  intros d fs. unfold exec, read. simpl.
  destruct (fs !! realpath lib path) as [[st|inv]|]; reflexivity.
Qed.

Lemma keeps_read_inventory lib path : keeps (read_inventory lib path).
Proof.
  intros d fs. unfold exec, read_inventory. simpl.
  destruct (fs !! realpath lib path) as [[st|inv]|]; reflexivity.
Qed.

Lemma keeps_write lib st path fmt : keeps (write lib st path fmt).
Proof.
  intros d fs. unfold exec, write.
  destruct (write_check lib st path fmt); reflexivity.
Qed.

Lemma keeps_bind {A B} (m : P A) (k : A -> P B) :
  keeps m -> (forall a, keeps (k a)) -> keeps (m ≫= k).
Proof.
  intros Hm Hk d fs. rewrite exec_bind.
  specialize (Hm d fs).
  destruct (exec m d fs) as [[[a|e] d'] fs']; simpl in *; subst d'.
  - apply Hk.
  - reflexivity.
Qed.

Create HintDb keeps discriminated.
#[local] Hint Resolve keeps_ret keeps_call keeps_read keeps_read_inventory
  keeps_write : keeps.

Ltac keeps_tac :=
  repeat first
    [ progress auto with keeps
    | apply keeps_bind; [|intros ?]
    | match goal with
      | |- keeps (if ?b then _ else _) => destruct b
      | |- keeps (match ?x with Some _ => _ | None => _ end) => destruct x
      end ].

(** *** Rules for [ends_in] *)

Lemma ends_in_bind_keeps {A B} d0 (m : P A) (k : A -> P B) post :
  keeps m ->
  (forall a, ends_in d0 (k a) post) ->
  (forall e, post (Raise e) d0) ->
  ends_in d0 (m ≫= k) post.
Proof.
  intros Hm Hk He fs. rewrite exec_bind.
  specialize (Hm d0 fs).
  destruct (exec m d0 fs) as [[[a|e] d'] fs']; simpl in *; subst d'.
  - apply Hk.
  - apply He.
Qed.

Lemma ends_in_bind_write {B} lib d0 st path fmt (k : unit -> P B) post :
  write_refuses_empty lib ->
  (st <> [] -> ends_in d0 (k tt) post) ->
  (forall e, post (Raise e) d0) ->
  ends_in d0 (write lib st path fmt ≫= k) post.
Proof.
  intros Hlib Hk He fs. rewrite exec_bind. unfold exec at 1, write.
  destruct (write_check lib st path fmt) as [e|] eqn:Hw; simpl.
  - apply He.
  - apply Hk. intros ->. by apply (Hlib path fmt).
Qed.

Lemma ends_in_bind_setitem {B} d0 key v (k : unit -> P B) post :
  ends_in (<[key := v]> d0) (k tt) post ->
  ends_in d0 (setitem key v ≫= k) post.
Proof. intros Hk fs. rewrite exec_bind. apply Hk. Qed.

Lemma ends_in_bind_index {B} d0 (st : Stream) (k : Trace -> P B) post :
  st <> [] ->
  (forall tr, ends_in d0 (k tr) post) ->
  ends_in d0 (call (py_index st 0) ≫= k) post.
Proof.
  intros Hst Hk fs. rewrite exec_bind.
  destruct st as [|tr st]; [done|]. apply Hk.
Qed.

Lemma ends_in_setitem d0 key v (post : result unit -> dict -> Prop) :
  post (Ok tt) (<[key := v]> d0) -> ends_in d0 (setitem key v) post.
Proof. intros H fs. exact H. Qed.

(** The dict at the two exits of the [try] block. *)
Definition body_post (filepath : string) (r : result unit) (d : dict) : Prop :=
  match r with
  | Ok _ =>
      d !! "status" = Some (PyStr "success") /\ d !! "error" = Some PyNone
      /\ field_is_str d "output"
  | Raise _ => d = initial_result filepath
  end.

Lemma process_file_body_ends lib filepath output_dir o :
  write_refuses_empty lib ->
  ends_in (initial_result filepath)
    (process_file_body lib filepath output_dir o) (body_post filepath).
Proof.
  intros Hlib. unfold process_file_body.
  do 6 (apply ends_in_bind_keeps; [keeps_tac| intros ? |reflexivity]).
  apply ends_in_bind_write; [done| intros Hst |reflexivity].
  do 2 apply ends_in_bind_setitem.
  apply ends_in_bind_index; [done|intros ?].
  apply ends_in_bind_setitem.
  do 2 (apply ends_in_bind_index; [done|intros ?]).
  apply ends_in_setitem. simpl.
  unfold field_is_str, initial_result.
  split; [|split]; [reflexivity|reflexivity|eexists; reflexivity].
Qed.

Lemma well_formed_success (d : dict) :
  d !! "status" = Some (PyStr "success") -> d !! "error" = Some PyNone ->
  field_is_str d "output" -> well_formed_result d.
Proof.
  intros Hs He Ho. unfold well_formed_result, field_is_str, field_is_none in *.
  rewrite Hs, He. split; [by left|]. split; [|split; [|split]].
  - split; [intros [s Hx]; discriminate Hx | intros Hx; discriminate Hx].
  - tauto.
  - by left.
  - tauto.
Qed.

Lemma well_formed_error filepath msg :
  well_formed_result
    (<["error" := PyStr msg]> (<["status" := PyStr "error"]> (initial_result filepath))).
Proof.
  unfold well_formed_result, field_is_str, field_is_none, initial_result.
  split; [by right|]. split; [|split; [|split]].
  - split; [reflexivity | intros _; by eexists].
  - split; intros Hx; discriminate Hx.
  - by right.
  - intros Hx. by destruct Hx.
Qed.

(** C8. [process_file] is a total function into dicts. Given that
    [Stream.write] refuses an empty stream, on every file system, path and
    option set the dict it returns has "status" equal to "success" or to
    "error"; "error" is a string exactly when the status is "error" and is
    None exactly when it is "success"; and "output" is None unless the
    status is "success". *)
Theorem process_file_result_well_formed lib filepath output_dir o fs :
  write_refuses_empty lib ->
  well_formed_result (result_of (process_file lib filepath output_dir o) fs).
Proof.
  intros Hlib.
  pose proof (process_file_body_ends lib filepath output_dir o Hlib fs) as Hbody.
  unfold result_of, process_file. rewrite run_io_bind.
  unfold exec in Hbody.
  destruct (run_io (process_file_body lib filepath output_dir o
                      (initial_result filepath)) fs) as [[[[]|e] d] fs'];
    simpl in *.
  - destruct Hbody as (Hs & He & Ho). by apply well_formed_success.
  - subst d. apply well_formed_error.
Qed.

(** Witness for C8: the example directory, default options. *)
Lemma process_file_result_witness :
  write_refuses_empty plain_obspy /\
  well_formed_result
    (result_of (process_file plain_obspy "data/a.mseed" "processed" default_options)
       example_fs).
Proof.
  assert (H : write_refuses_empty plain_obspy) by (intros path fmt; discriminate).
  split; [exact H|].
  exact (process_file_result_well_formed plain_obspy "data/a.mseed" "processed"
           default_options example_fs H).
Defined.

(** *** The paths [process_file] touches *)

Lemma within_bind {A B} R W (t : io A) (k : A -> io B) :
  within R W t -> (forall a, within R W (k a)) -> within R W (io_bind t k).
Proof.
  intros H Hk. induction H; simpl; [apply Hk | constructor; auto ..].
Qed.

(** Every branch of a body stays within [R] and [W]. *)
Definition withinP {A} (R W : string -> Prop) (m : P A) : Prop :=
  forall d, within R W (m d).

Lemma withinP_ret {A} R W (a : A) : withinP R W (mret a : P A).
Proof. intros d. constructor. Qed.

Lemma withinP_call {A} R W (r : result A) : withinP R W (call r).
Proof. intros d. constructor. Qed.

Lemma withinP_setitem R W key v : withinP R W (setitem key v).
Proof. intros d. constructor. Qed.

Lemma withinP_read (R W : string -> Prop) lib path :
  R (realpath lib path) -> withinP R W (read lib path).
Proof.
  intros HR d. constructor; [done|].
  intros [[st|inv]|]; constructor.
Qed.

Lemma withinP_read_inventory (R W : string -> Prop) lib path :
  R (realpath lib path) -> withinP R W (read_inventory lib path).
Proof.
  intros HR d. constructor; [done|].
  intros [[st|inv]|]; constructor.
Qed.

Lemma withinP_write (R W : string -> Prop) lib st path fmt :
  W (realpath lib path) -> withinP R W (write lib st path fmt).
Proof.
  intros HW d. unfold write.
  destruct (write_check lib st path fmt); repeat constructor; done.
Qed.

Lemma withinP_bind {A B} R W (m : P A) (k : A -> P B) :
  withinP R W m -> (forall a, withinP R W (k a)) -> withinP R W (m ≫= k).
Proof.
  intros Hm Hk d. unfold mbind, P_bind. apply within_bind; [apply Hm|].
  intros [[a|e] d']; [apply Hk | constructor].
Qed.

Lemma inventory_read_truthy o :
  remove_response o = true -> truthy_str (inventory_path o) = true ->
  inventory_read o = Some (default "" (inventory_path o)).
Proof.
  intros Hrr Htruthy. unfold inventory_read. rewrite Hrr, Htruthy. simpl.
  by destruct (inventory_path o).
Qed.

Lemma process_file_body_within lib filepath output_dir o :
  withinP (task_reads lib filepath o) (task_writes lib filepath output_dir o)
    (process_file_body lib filepath output_dir o).
Proof.
  unfold process_file_body.
  repeat first
    [ apply withinP_ret | apply withinP_call | apply withinP_setitem
    | apply withinP_read; by left
    | apply withinP_write; reflexivity
    | apply withinP_bind; [|intros ?]
    | match goal with
      | |- withinP _ _ (if remove_response o then _ else _) =>
          destruct (remove_response o) eqn:Hrr
      | |- withinP _ _ (if truthy_str (inventory_path o) then _ else _) =>
          destruct (truthy_str (inventory_path o)) eqn:Htruthy
      | |- withinP _ _ (read_inventory _ _) =>
          apply withinP_read_inventory; right; eexists;
          split; [by apply inventory_read_truthy|reflexivity]
      | |- withinP _ _ (if ?b then _ else _) => destruct b
      | |- withinP _ _ (match ?x with Some _ => _ | None => _ end) => destruct x
      end ].
Qed.

Lemma process_file_within lib filepath output_dir o :
  within (task_reads lib filepath o) (task_writes lib filepath output_dir o)
    (process_file lib filepath output_dir o).
Proof.
  unfold process_file. apply within_bind.
  - apply process_file_body_within.
  - intros [[[]|e] d]; constructor.
Qed.

(** A computation's result depends only on the files it reads: what it
    writes itself it writes in both runs. *)
Lemma run_io_agree {A} (R W : string -> Prop) (t : io A) (fs1 fs2 : filesystem) :
  within R W t ->
  (forall p, R p -> fs1 !! p = fs2 !! p) ->
  (run_io t fs1).1 = (run_io t fs2).1.
Proof.
  intros H. revert fs1 fs2.
  induction H as [a|p k HR Hk IH|p f k HW Hk IH]; intros fs1 fs2 Hagree; simpl.
  - reflexivity.
  - rewrite (Hagree p HR). by apply IH.
  - apply IH. intros q Hq.
    destruct (decide (p = q)) as [->|Hne].
    + by rewrite !lookup_insert_eq.
    + rewrite !lookup_insert_ne by done. by apply Hagree.
Qed.

(** A computation changes no file outside the paths it may write. *)
Lemma run_io_frame {A} (R W : string -> Prop) (t : io A) (fs : filesystem) p :
  within R W t -> ~ W p -> (run_io t fs).2 !! p = fs !! p.
Proof.
  intros H Hp. revert fs.
  induction H as [a|q k HR Hk IH|q f k HW Hk IH]; intros fs; simpl.
  - reflexivity.
  - apply IH.
  - rewrite IH. apply lookup_insert_ne. by intros ->.
Qed.

(** *** The pool on independent files *)

Lemma Forall2_insert_right {A B} (Q : A -> B -> Prop) (l : list A) (k : list B) i x y :
  Forall2 Q l k -> l !! i = Some x -> Q x y -> Forall2 Q l (<[i := y]> k).
Proof.
  intros Hlk Hi Hxy. rewrite <-(list_insert_id l i x Hi). by apply Forall2_insert.
Qed.

Section Independent.
Variables (lib : obspy) (files : list string) (output_dir : string) (o : options).
Variable fs0 : filesystem.
Hypothesis Hind : independent_files lib files output_dir o.

Let expected (f : string) : dict := result_of (process_file lib f output_dir o) fs0.

(** A task stays as it is when another changes files it does not read. *)
Lemma task_ok_frame fs fs' f t :
  task_ok lib output_dir o fs0 fs f t ->
  (forall p, task_reads lib f o p -> fs' !! p = fs !! p) ->
  task_ok lib output_dir o fs0 fs' f t.
Proof.
  intros Hok Hsame. destruct t as [t|t|d]; simpl in *; [| |exact Hok];
    destruct Hok as (Hw & alone & Hagree & Hres);
    (split; [exact Hw|]); exists alone;
    (split; [|exact Hres]); intros p Hp; rewrite Hsame by done; by apply Hagree.
Qed.

Lemma advance_inv s i f t :
  pool_inv lib files output_dir o fs0 s ->
  files !! i = Some f ->
  within (task_reads lib f o) (task_writes lib f output_dir o) t ->
  (exists alone : filesystem,
     (forall p, task_reads lib f o p -> pool_fs s !! p = alone !! p)
     /\ result_of t alone = expected f) ->
  pool_inv lib files output_dir o fs0 (advance s i t).
Proof.
  intros [Hlen Htasks] Hi Hw (alone & Hagree & Hres).
  assert (Hlt : (i < length (pool_tasks s))%nat).
  { rewrite Hlen. by eapply lookup_lt_Some. }
  inversion Hw as [d Ha|p k HR Hk Ha|p c k HW Hk Ha]; subst t; simpl.
  - split; simpl; [by rewrite length_insert|]. intros j g t Hg Ht.
    destruct (decide (j = i)) as [->|Hne].
    + rewrite list_lookup_insert_eq in Ht by done. injection Ht as <-.
      rewrite Hi in Hg. injection Hg as <-. exact Hres.
    + rewrite list_lookup_insert_ne in Ht by done. by eapply Htasks.
  - split; simpl; [by rewrite length_insert|]. intros j g t Hg Ht.
    destruct (decide (j = i)) as [->|Hne].
    + rewrite list_lookup_insert_eq in Ht by done. injection Ht as <-.
      rewrite Hi in Hg. injection Hg as <-. simpl.
      split; [apply Hk|]. exists alone. split; [exact Hagree|].
      rewrite (Hagree p HR). exact Hres.
    + rewrite list_lookup_insert_ne in Ht by done. by eapply Htasks.
  - split; simpl; [by rewrite length_insert|]. intros j g t Hg Ht.
    destruct (decide (j = i)) as [->|Hne].
    + rewrite list_lookup_insert_eq in Ht by done. injection Ht as <-.
      rewrite Hi in Hg. injection Hg as <-. simpl.
      split; [exact Hk|]. exists (<[p := c]> alone). split; [|exact Hres].
      intros q Hq. destruct (decide (p = q)) as [->|Hpq].
      * by rewrite !lookup_insert_eq.
      * rewrite !lookup_insert_ne by done. by apply Hagree.
    + rewrite list_lookup_insert_ne in Ht by done.
      eapply task_ok_frame; [by eapply Htasks|].
      intros q Hq. apply lookup_insert_ne. intros <-.
      red in HW. subst p. by apply (Hind i j f g).
Qed.

Lemma pool_step_inv w s i s' :
  pool_inv lib files output_dir o fs0 s ->
  pool_step w s i = Some s' ->
  pool_inv lib files output_dir o fs0 s'.
Proof.
  intros Hinv Hstep. unfold pool_step in Hstep.
  destruct (pool_tasks s !! i) as [t|] eqn:Hi; [|discriminate].
  assert (exists f, files !! i = Some f) as [f Hf].
  { apply lookup_lt_is_Some. rewrite <-(proj1 Hinv). by eapply lookup_lt_Some. }
  pose proof (proj2 Hinv i f t Hf Hi) as Hok.
  destruct t as [t|t|d]; [| |discriminate].
  - destruct (may_start w (pool_tasks s) i); [|discriminate].
    injection Hstep as <-. destruct Hok as [Hw Halone]. by eapply advance_inv.
  - injection Hstep as <-. destruct Hok as [Hw Halone]. by eapply advance_inv.
Qed.

Lemma run_pool_inv w sched s s' :
  pool_inv lib files output_dir o fs0 s ->
  run_pool w sched s = Some s' ->
  pool_inv lib files output_dir o fs0 s'.
Proof.
  revert s. induction sched as [|i sched IH]; intros s Hinv Hrun; simpl in Hrun.
  - by injection Hrun as <-.
  - destruct (pool_step w s i) as [s1|] eqn:Hstep; [|discriminate].
    eapply IH; [|exact Hrun]. by eapply pool_step_inv.
Qed.

Lemma submitted_inv :
  pool_inv lib files output_dir o fs0
    {| pool_fs := fs0;
       pool_tasks := map (fun f => Queued (process_file lib f output_dir o)) files |}.
Proof.
  split; [apply length_map|]. simpl. intros i f t Hf Ht.
  rewrite list_lookup_fmap, Hf in Ht. injection Ht as <-. simpl.
  split; [apply process_file_within|]. by exists fs0.
Qed.

(** Once every task is done, each future holds its file's result. *)
Lemma finished_futures s order results :
  pool_inv lib files output_dir o fs0 s ->
  mapM (future_result (pool_tasks s)) order = Some results ->
  Forall2 (fun i d => exists f, files !! i = Some f /\ d = expected f) order results.
Proof.
  intros [Hlen Htasks] Hm. apply mapM_Some in Hm.
  eapply Forall2_impl; [exact Hm|].
  intros i d Hfut. unfold future_result in Hfut.
  destruct (pool_tasks s !! i) as [[t|t|d']|] eqn:Hi; try discriminate.
  injection Hfut as ->.
  assert (exists f, files !! i = Some f) as [f Hf].
  { apply lookup_lt_is_Some. rewrite <-Hlen. by eapply lookup_lt_Some. }
  exists f. split; [done|]. exact (Htasks i f (Done d) Hf Hi).
Qed.

Lemma results_in_order_permutation (order : list nat) (results : list dict) :
  order ≡ₚ seq 0 (length files) ->
  Forall2 (fun i d => exists f, files !! i = Some f /\ d = expected f) order results ->
  results ≡ₚ expected <$> files.
Proof.
  intros Hperm Hres.
  set (g := fun i : nat => default ∅ (expected <$> files !! i)).
  assert (results = g <$> order) as ->.
  { clear Hperm. induction Hres as [|i d order results (f & Hf & ->) _ IH]; [done|].
    simpl. f_equal; [|exact IH]. unfold g. by rewrite Hf. }
  rewrite Hperm.
  assert (g <$> seq 0 (length files) = expected <$> files) as ->; [|done].
  apply list_eq. intros i.
  rewrite !list_lookup_fmap.
  destruct (files !! i) as [f|] eqn:Hf.
  - rewrite lookup_seq_lt by (by eapply lookup_lt_Some).
    simpl. unfold g. by rewrite Hf.
  - rewrite lookup_ge_None_2; [done|].
    rewrite length_seq. by apply lookup_ge_None.
Qed.

(** The sequential loop gives each file the result it has on [fs0]: when
    the loop comes to a file, no earlier file has written what it reads. *)
Lemma sequential_loop_independent processed rest acc fs :
  files = processed ++ rest ->
  (forall j g p,
     files !! j = Some g -> (length processed <= j)%nat -> task_reads lib g o p ->
     fs !! p = fs0 !! p) ->
  exists fs',
    sequential_loop lib output_dir o rest acc fs = (acc ++ (expected <$> rest), fs').
Proof.
  revert processed acc fs.
  induction rest as [|f rest IH]; intros processed acc fs Hfiles Hfs.
  - exists fs. simpl. by rewrite app_nil_r.
  - cbn [sequential_loop].
    assert (Hf : files !! length processed = Some f).
    { rewrite Hfiles. by apply list_lookup_middle. }
    pose proof (process_file_within lib f output_dir o) as Hw.
    destruct (run_io (process_file lib f output_dir o) fs) as [r fs1] eqn:Hrun.
    assert (r = expected f) as ->.
    { change r with (r, fs1).1. rewrite <-Hrun.
      eapply run_io_agree; [exact Hw|].
      intros p Hp. by eapply Hfs. }
    destruct (IH (processed ++ [f]) (acc ++ [expected f]) fs1) as (fs' & Hloop).
    + by rewrite <-app_assoc.
    + intros j g p Hg Hj Hp. rewrite length_app in Hj. simpl in Hj.
      replace fs1 with (run_io (process_file lib f output_dir o) fs).2
        by (by rewrite Hrun).
      erewrite run_io_frame; [|exact Hw|].
      * eapply Hfs; [exact Hg|lia|exact Hp].
      * intros ->. apply (Hind (length processed) j f g); [lia|done..].
    + exists fs'. rewrite Hloop. by rewrite <-app_assoc.
Qed.

End Independent.

(** *** A schedule every pool can follow *)

Lemma run_pool_app w sched1 sched2 s :
  run_pool w (sched1 ++ sched2) s
  = match run_pool w sched1 s with
    | Some s1 => run_pool w sched2 s1
    | None => None
    end.
Proof.
  revert s. induction sched1 as [|i sched1 IH]; intros s; simpl; [done|].
  destruct (pool_step w s i); [apply IH|done].
Qed.

Lemma pool_step_startable w s i t :
  pool_tasks s !! i = Some (Running t)
  \/ (pool_tasks s !! i = Some (Queued t) /\ may_start w (pool_tasks s) i = true) ->
  pool_step w s i = Some (advance s i t).
Proof.
  unfold pool_step. intros [->|[-> ->]]; reflexivity.
Qed.

(** A task that may start runs to its end when only it is scheduled. *)
Lemma run_alone w i (t : io dict) s :
  pool_tasks s !! i = Some (Running t)
  \/ (pool_tasks s !! i = Some (Queued t) /\ may_start w (pool_tasks s) i = true) ->
  run_pool w (replicate (steps_alone t (pool_fs s)) i) s
  = Some {| pool_fs := (run_io t (pool_fs s)).2;
            pool_tasks := <[i := Done (run_io t (pool_fs s)).1]> (pool_tasks s) |}.
Proof.
  revert s. induction t as [d|p k IH|p f k IH]; intros s Hs;
    assert (Hlen : (i < length (pool_tasks s))%nat)
      by (destruct Hs as [Hs|[Hs _]]; by eapply lookup_lt_Some);
    cbn [steps_alone replicate run_pool];
    rewrite (pool_step_startable _ _ _ _ Hs).
  - reflexivity.
  - etrans; [apply (IH (pool_fs s !! p) (advance s i (FsGet p k)))|].
    + left. by apply list_lookup_insert_eq.
    + simpl. by rewrite list_insert_insert_eq.
  - etrans; [apply (IH (advance s i (FsPut p f k)))|].
    + left. by apply list_lookup_insert_eq.
    + simpl. by rewrite list_insert_insert_eq.
Qed.

Lemma no_running_filter (l : list task) :
  Forall (fun t => is_running t = false) l -> List.filter is_running l = [].
Proof.
  induction 1 as [|t l Ht _ IH]; simpl; [done|]. by rewrite Ht.
Qed.

Lemma fifo_schedule_runs w (ts : list (io dict)) :
  (0 < w)%nat ->
  forall (dones : list task) fs,
    Forall (fun t => is_done t = true) dones ->
    exists s',
      run_pool w (fifo_schedule ts (length dones) fs)
        {| pool_fs := fs; pool_tasks := dones ++ map Queued ts |} = Some s'
      /\ forallb is_done (pool_tasks s') = true
      /\ length (pool_tasks s') = (length dones + length ts)%nat.
Proof.
  intros Hw. induction ts as [|t ts IH]; intros dones fs Hdone.
  - eexists. split; [reflexivity|]. simpl. rewrite app_nil_r. split; [|lia].
    apply forallb_forall. intros x Hx.
    by apply (proj1 (Forall_forall _ _) Hdone), list_elem_of_In.
  - cbn [fifo_schedule map]. rewrite run_pool_app.
    pose proof (run_alone w (length dones) t
      {| pool_fs := fs; pool_tasks := dones ++ Queued t :: map Queued ts |}) as Hone.
    cbn [pool_fs pool_tasks] in Hone. rewrite Hone; clear Hone.
    + rewrite insert_app_r_alt, Nat.sub_diag by lia. cbn [insert list_insert].
      rewrite (cons_middle _ dones), app_assoc.
      destruct (IH (dones ++ [Done (run_io t fs).1]) (run_io t fs).2) as (s' & Hrun & Hall & Hlen).
      { apply Forall_app. split; [done|]. by repeat constructor. }
      rewrite length_app, Nat.add_1_r in Hrun. simpl in Hrun.
      exists s'. split; [exact Hrun|]. split; [done|].
      rewrite Hlen, length_app. simpl. lia.
    + right. split; [by apply list_lookup_middle|].
      unfold may_start.
      rewrite take_app_length. apply andb_true_intro. split.
      * apply Nat.ltb_lt. rewrite no_running_filter; [simpl; lia|].
        apply Forall_app. split.
        -- eapply Forall_impl; [exact Hdone|]. by intros [].
        -- apply Forall_cons. split; [done|]. apply Forall_forall.
           intros x Hx. apply list_elem_of_In, in_map_iff in Hx.
           by destruct Hx as (? & <- & _).
      * apply forallb_forall. intros x Hx.
        apply list_elem_of_In in Hx.
        pose proof (proj1 (Forall_forall _ _) Hdone x Hx) as Hd.
        by destruct x.
Qed.

Lemma finished_futures_exist (tasks : list task) :
  forallb is_done tasks = true ->
  is_Some (mapM (future_result tasks) (seq 0 (length tasks))).
Proof.
  intros Hall. apply mapM_is_Some_2, Forall_forall. intros i Hi.
  apply elem_of_seq in Hi as [_ Hi]. simpl in Hi.
  destruct (lookup_lt_is_Some_2 tasks i Hi) as [t Ht].
  unfold compose, future_result. rewrite Ht.
  pose proof (proj1 (forallb_forall _ _) Hall t) as Hd.
  destruct t; try (by eexists);
    (discriminate Hd; apply list_elem_of_In; by eapply list_elem_of_lookup_2).
Qed.

(** *** batch_process *)

Lemma batch_process_parallel_run_exists lib mkdir collect_files input_path output_dir
    o fs fs1 workers :
  mkdir (Path output_dir) fs = (Ok tt, fs1) ->
  (1 <= workers)%Z ->
  exists sched order results fs',
    batch_process lib mkdir collect_files input_path output_dir workers o sched order fs
    = Some (Ok results, fs').
Proof.
  intros Hmkdir Hw. unfold batch_process. rewrite Hmkdir.
  set (files := collect_files fs1 (Path input_path)).
  set (out_dir := str (Path output_dir)).
  destruct (bool_decide (files = [])); [by exists [], [], [], fs1|].
  destruct (workers =? 1)%Z.
  { destruct (sequential_loop lib out_dir o files [] fs1) as [rs fs2].
    by exists [], [], rs, fs2. }
  destruct (workers <=? 0)%Z eqn:Hle; [lia|].
  destruct (fifo_schedule_runs (Z.to_nat workers)
              (map (fun f => process_file lib f out_dir o) files)
              ltac:(lia) [] fs1 ltac:(constructor))
    as (s' & Hrun & Hall & Hlen).
  simpl in Hrun, Hlen. rewrite map_map in Hrun. rewrite length_map in Hlen.
  destruct (finished_futures_exist _ Hall) as [results Hres].
  rewrite Hlen in Hres.
  eexists _, (seq 0 (length files)), results, (pool_fs s').
  rewrite Hrun, Hall, bool_decide_eq_true_2 by done. simpl.
  by rewrite Hres.
Qed.

Lemma batch_process_results_independent lib mkdir collect_files input_path output_dir
    o fs fs1 workers sched order r fs' :
  let out_dir := str (Path output_dir) in
  let files := collect_files fs1 (Path input_path) in
  let expected f := result_of (process_file lib f out_dir o) fs1 in
  mkdir (Path output_dir) fs = (Ok tt, fs1) ->
  independent_files lib files out_dir o ->
  (1 <= workers)%Z ->
  batch_process lib mkdir collect_files input_path output_dir workers o sched order fs
  = Some (r, fs') ->
  exists results, r = Ok results /\ results ≡ₚ expected <$> files.
Proof.
  intros out_dir files expected Hmkdir Hind Hw. unfold batch_process.
  rewrite Hmkdir. fold files out_dir.
  destruct (bool_decide (files = [])) eqn:Hnil.
  { apply bool_decide_eq_true in Hnil. rewrite Hnil.
    intros [= <- <-]. by exists []. }
  destruct (workers =? 1)%Z.
  { destruct (sequential_loop_independent lib files out_dir o fs1 Hind [] files [] fs1)
      as (fs2 & Hloop); [done..|].
    rewrite Hloop. intros [= <- <-]. by eexists. }
  destruct (workers <=? 0)%Z eqn:Hle; [lia|].
  destruct (run_pool _ _ _) as [s|] eqn:Hrun; [|done].
  destruct (forallb is_done (pool_tasks s)) eqn:Hall; [|done].
  destruct (bool_decide (order ≡ₚ seq 0 (length files))) eqn:Hperm; [|done].
  simpl. destruct (mapM _ order) as [results|] eqn:Hres; [|done].
  intros [= <- <-]. exists results. split; [done|].
  apply bool_decide_eq_true in Hperm.
  apply (results_in_order_permutation lib files out_dir o fs1 order); [done|].
  eapply finished_futures; [|exact Hres].
  eapply run_pool_inv; [exact Hind| |exact Hrun]. apply submitted_inv.
Qed.




(** *** The effect of [process_file] on the file system *)

Lemma quiet_ret {A} (a : A) : quiet (mret a : P A).
Proof. by intros d fs. Qed.

Lemma quiet_call {A} (r : result A) : quiet (call r).
Proof. by intros d fs. Qed.

Lemma quiet_read lib path : quiet (read lib path).
Proof.
  intros d fs. unfold exec, read. simpl.
  by destruct (fs !! realpath lib path) as [[st|inv]|].
Qed.

Lemma quiet_read_inventory lib path : quiet (read_inventory lib path).
Proof.
  intros d fs. unfold exec, read_inventory. simpl.
  by destruct (fs !! realpath lib path) as [[st|inv]|].
Qed.

Lemma quiet_bind {A B} (m : P A) (k : A -> P B) :
  quiet m -> (forall a, quiet (k a)) -> quiet (m ≫= k).
Proof.
  intros Hm Hk d fs. rewrite exec_bind.
  destruct (Hm d fs) as [Hd Hfs].
  destruct (exec m d fs) as [[[a|e] d'] fs']; simpl in *; subst; [apply Hk|done].
Qed.

Create HintDb quiet.
#[local] Hint Resolve quiet_ret quiet_call quiet_read quiet_read_inventory : quiet.

Ltac quiet_tac :=
  repeat first
    [ progress auto with quiet
    | apply quiet_bind; [|intros ?]
    | match goal with
      | |- quiet (if ?b then _ else _) => destruct b
      | |- quiet (match ?x with Some _ => _ | None => _ end) => destruct x
      end ].

Lemma exec_bind_quiet {A B} (m : P A) (k : A -> P B) d fs :
  quiet m ->
  exec (m ≫= k) d fs
  = match (exec m d fs).1.1 with
    | Ok a => exec (k a) d fs
    | Raise e => (Raise e, d, fs)
    end.
Proof.
  intros Hm. rewrite exec_bind. destruct (Hm d fs) as [Hd Hfs].
  destruct (exec m d fs) as [[[a|e] d'] fs']; simpl in *; by subst.
Qed.


Lemma exec_write lib st path fmt d fs :
  exec (write lib st path fmt) d fs
  = match write_check lib st path fmt with
    | Some e => (Raise e, d, fs)
    | None => (Ok tt, d, <[realpath lib path := WaveformFile st]> fs)
    end.
Proof. unfold exec, write. by destruct (write_check lib st path fmt). Qed.

Lemma exec_bind_setitem {B} key v (k : unit -> P B) d fs :
  exec (setitem key v ≫= k) d fs = exec (k tt) (<[key := v]> d) fs.
Proof. by rewrite exec_bind. Qed.

Lemma exec_bind_call {A B} (a : A) (k : A -> P B) d fs :
  exec (call (Ok a) ≫= k) d fs = exec (k a) d fs.
Proof. by rewrite exec_bind. Qed.

(** Running the statements inside [try:] from the initial dict. *)
Lemma process_file_body_run lib filepath output_dir o fs :
  write_refuses_empty lib ->
  let out := output_file filepath output_dir (output_format o) in
  match exec (process_file_body lib filepath output_dir o) (initial_result filepath) fs with
  | (Ok _, d, fs') =>
      exists st tr,
        st !! 0%nat = Some tr /\ d = success_result filepath out st tr
        /\ fs' = <[realpath lib out := WaveformFile st]> fs
  | (Raise _, d, fs') => d = initial_result filepath /\ fs' = fs
  end.
Proof.
  intros Hlib out. unfold process_file_body.
  do 6 (rewrite exec_bind_quiet by quiet_tac;
        destruct ((exec _ _ _).1.1) as [?st|?e]; [|done]).
  fold out. rewrite exec_bind, exec_write.
  destruct (write_check lib st4 out (output_format o)) as [e|] eqn:Hcheck; [done|].
  destruct st4 as [|tr st4]; [by apply Hlib in Hcheck|].
  rewrite !exec_bind_setitem. cbn [py_index lookup list_lookup].
  rewrite exec_bind_call, exec_bind_setitem, !exec_bind_call.
  unfold exec, setitem. cbn [run_io].
  exists (tr :: st4), tr. done.
Qed.

(** Running [process_file]: either the output was written and the dict
    describes it, or nothing was written and the dict carries the error. *)
Lemma process_file_run lib filepath output_dir o fs :
  write_refuses_empty lib ->
  let out := output_file filepath output_dir (output_format o) in
  (exists st tr,
     st !! 0%nat = Some tr
     /\ run_io (process_file lib filepath output_dir o) fs
        = (success_result filepath out st tr,
           <[realpath lib out := WaveformFile st]> fs))
  \/ (exists msg,
        run_io (process_file lib filepath output_dir o) fs
        = (error_result filepath msg, fs)).
Proof.
  intros Hlib out.
  pose proof (process_file_body_run lib filepath output_dir o fs Hlib) as Hbody.
  cbv zeta in Hbody. fold out in Hbody.
  unfold process_file. rewrite run_io_bind. unfold exec in Hbody.
  destruct (run_io (process_file_body lib filepath output_dir o
                      (initial_result filepath)) fs) as [[[[]|e] d] fs'];
    cbn [fst snd run_io].
  - left. destruct Hbody as (st & tr & Htr & -> & ->). by exists st, tr.
  - right. destruct Hbody as [-> ->]. by exists (exn_msg e).
Qed.


(** *** Results of a batch under any interleaving *)

Lemma leaves_bind {A B} (good : A -> Prop) (good' : B -> Prop) (t : io A)
    (k : A -> io B) :
  leaves good t -> (forall a, good a -> leaves good' (k a)) ->
  leaves good' (io_bind t k).
Proof. intros Ht Hk. induction Ht; simpl; [auto|constructor; auto..]. Qed.

Lemma leaves_run_io {A} (good : A -> Prop) (t : io A) fs :
  leaves good t -> good (run_io t fs).1.
Proof. intros Ht. revert fs. induction Ht; intros fs; simpl; auto. Qed.

Lemma always_keeps_ret {A} (a : A) : always_keeps (mret a : P A).
Proof. intros d. by constructor. Qed.

Lemma always_keeps_call {A} (r : result A) : always_keeps (call r).
Proof. intros d. by constructor. Qed.

Lemma always_keeps_read lib path : always_keeps (read lib path).
Proof. intros d. constructor. intros [[st|inv]|]; by constructor. Qed.

Lemma always_keeps_read_inventory lib path : always_keeps (read_inventory lib path).
Proof. intros d. constructor. intros [[st|inv]|]; by constructor. Qed.

Lemma always_keeps_bind {A B} (m : P A) (k : A -> P B) :
  always_keeps m -> (forall a, always_keeps (k a)) -> always_keeps (m ≫= k).
Proof.
  intros Hm Hk d. unfold mbind, P_bind.
  eapply leaves_bind; [apply Hm|].
  intros [[a|e] d'] Hd; simpl in Hd; subst d'; [apply Hk|by constructor].
Qed.

Create HintDb always_keeps.
#[local] Hint Resolve always_keeps_ret always_keeps_call always_keeps_read
  always_keeps_read_inventory : always_keeps.

Ltac always_keeps_tac :=
  repeat first
    [ progress auto with always_keeps
    | apply always_keeps_bind; [|intros ?]
    | match goal with
      | |- always_keeps (if ?b then _ else _) => destruct b
      | |- always_keeps (match ?x with Some _ => _ | None => _ end) => destruct x
      end ].

Lemma always_ends_in_bind_keeps {A B} d0 (m : P A) (k : A -> P B) post :
  always_keeps m ->
  (forall a, always_ends_in d0 (k a) post) ->
  (forall e, post (Raise e) d0) ->
  always_ends_in d0 (m ≫= k) post.
Proof.
  intros Hm Hk He. unfold always_ends_in, mbind, P_bind.
  eapply leaves_bind; [apply Hm|].
  intros [[a|e] d'] Hd; simpl in Hd; subst d'; [apply Hk|constructor; apply He].
Qed.

Lemma always_ends_in_bind_write {B} lib d0 st path fmt (k : unit -> P B) post :
  write_refuses_empty lib ->
  (st <> [] -> always_ends_in d0 (k tt) post) ->
  (forall e, post (Raise e) d0) ->
  always_ends_in d0 (write lib st path fmt ≫= k) post.
Proof.
  intros Hlib Hk He. unfold always_ends_in, mbind, P_bind, write.
  destruct (write_check lib st path fmt) as [e|] eqn:Hcheck; simpl.
  - constructor. apply He.
  - constructor. apply Hk. intros ->. by apply Hlib in Hcheck.
Qed.

Lemma always_ends_in_bind_setitem {B} d0 key v (k : unit -> P B) post :
  always_ends_in (<[key := v]> d0) (k tt) post ->
  always_ends_in d0 (setitem key v ≫= k) post.
Proof. intros Hk. exact Hk. Qed.

Lemma always_ends_in_bind_index {B} d0 (st : Stream) (k : Trace -> P B) post :
  st <> [] ->
  (forall tr, always_ends_in d0 (k tr) post) ->
  always_ends_in d0 (call (py_index st 0) ≫= k) post.
Proof. intros Hst Hk. destruct st as [|tr st]; [done|]. apply Hk. Qed.

Lemma always_ends_in_setitem d0 key v (post : result unit -> dict -> Prop) :
  post (Ok tt) (<[key := v]> d0) -> always_ends_in d0 (setitem key v) post.
Proof. intros Hpost. by constructor. Qed.

Lemma process_file_body_always_ends lib filepath output_dir o :
  write_refuses_empty lib ->
  always_ends_in (initial_result filepath)
    (process_file_body lib filepath output_dir o)
    (fun r d => body_post filepath r d /\ d !! "file" = Some (PyStr filepath)).
Proof.
  intros Hlib. unfold process_file_body.
  do 6 (apply always_ends_in_bind_keeps; [always_keeps_tac| intros ? |done]).
  apply always_ends_in_bind_write; [done| intros Hst |done].
  do 2 apply always_ends_in_bind_setitem.
  apply always_ends_in_bind_index; [done|intros ?].
  apply always_ends_in_bind_setitem.
  do 2 (apply always_ends_in_bind_index; [done|intros ?]).
  apply always_ends_in_setitem. simpl.
  unfold field_is_str, initial_result.
  split; [|reflexivity].
  split; [|split]; [reflexivity|reflexivity|eexists; reflexivity].
Qed.

(** Whatever the other workers do to the file system meanwhile,
    [process_file] ends with a result dict of its file. *)
Lemma process_file_always_result lib filepath output_dir o :
  write_refuses_empty lib ->
  leaves (result_for filepath) (process_file lib filepath output_dir o).
Proof.
  intros Hlib. unfold process_file.
  eapply leaves_bind; [by apply process_file_body_always_ends|].
  intros [[[]|e] d] [Hpost Hfile]; simpl in Hpost, Hfile; constructor; split.
  - destruct Hpost as (Hs & He & Ho). by apply well_formed_success.
  - exact Hfile.
  - subst d. apply well_formed_error.
  - subst d. reflexivity.
Qed.


Lemma advance_result_for (files : list string) s i f t :
  Forall2 task_result_for files (pool_tasks s) ->
  files !! i = Some f -> leaves (result_for f) t ->
  Forall2 task_result_for files (pool_tasks (advance s i t)).
Proof.
  intros Htasks Hi Ht.
  inversion Ht as [a Ha|p k Hk|p f' k Hk]; subst t; simpl;
    (eapply Forall2_insert_right; [done..|]); simpl; auto.
Qed.

Lemma pool_step_result_for (files : list string) w s i s' :
  Forall2 task_result_for files (pool_tasks s) ->
  pool_step w s i = Some s' ->
  Forall2 task_result_for files (pool_tasks s').
Proof.
  intros Htasks Hstep. unfold pool_step in Hstep.
  destruct (pool_tasks s !! i) as [[t|t|d]|] eqn:Hi; try discriminate.
  - destruct (may_start w (pool_tasks s) i); [|discriminate].
    injection Hstep as <-.
    destruct (Forall2_lookup_r _ _ _ _ _ Htasks Hi) as (f & Hf & Ht).
    by eapply advance_result_for.
  - injection Hstep as <-.
    destruct (Forall2_lookup_r _ _ _ _ _ Htasks Hi) as (f & Hf & Ht).
    by eapply advance_result_for.
Qed.

Lemma run_pool_result_for (files : list string) w sched s s' :
  Forall2 task_result_for files (pool_tasks s) ->
  run_pool w sched s = Some s' ->
  Forall2 task_result_for files (pool_tasks s').
Proof.
  revert s. induction sched as [|i sched IH]; intros s Htasks Hrun; simpl in Hrun.
  - by injection Hrun as <-.
  - destruct (pool_step w s i) as [s1|] eqn:Hstep; [|discriminate].
    eapply IH; [|exact Hrun]. by eapply pool_step_result_for.
Qed.

Lemma futures_in_order {A} (key : dict -> A) (label : string -> A)
    (files : list string) (order : list nat) (results : list dict) :
  order ≡ₚ seq 0 (length files) ->
  Forall2 (fun i d => exists f, files !! i = Some f /\ key d = label f) order results ->
  key <$> results ≡ₚ label <$> files.
Proof.
  intros Hperm Hres.
  destruct files as [|f0 files'] eqn:Hfiles.
  { simpl in Hperm. apply Permutation_nil_r in Hperm. subst order.
    by apply Forall2_nil_inv_l in Hres as ->. }
  rewrite <-Hfiles in *.
  set (g := fun i : nat => label (default f0 (files !! i))).
  assert (key <$> results = g <$> order) as ->.
  { clear Hperm. induction Hres as [|i d order results (f & Hf & Hkey) _ IH]; [done|].
    simpl. f_equal; [|exact IH]. unfold g. by rewrite Hf. }
  rewrite Hperm.
  assert (g <$> seq 0 (length files) = label <$> files) as ->; [|done].
  apply list_eq. intros i.
  rewrite !list_lookup_fmap.
  destruct (files !! i) as [f|] eqn:Hf.
  - rewrite lookup_seq_lt by (by eapply lookup_lt_Some).
    simpl. unfold g. by rewrite Hf.
  - rewrite lookup_ge_None_2; [done|].
    rewrite length_seq. by apply lookup_ge_None.
Qed.

Lemma sequential_loop_results lib output_dir o (files : list string) :
  write_refuses_empty lib ->
  forall acc fs, exists results fs',
    sequential_loop lib output_dir o files acc fs = (acc ++ results, fs')
    /\ Forall2 result_for files results.
Proof.
  intros Hlib. induction files as [|f files IH]; intros acc fs.
  - exists [], fs. simpl. by rewrite app_nil_r.
  - cbn [sequential_loop].
    pose proof (leaves_run_io _ _ fs
                  (process_file_always_result lib f output_dir o Hlib)) as Hr.
    destruct (run_io (process_file lib f output_dir o) fs) as [r fs1].
    destruct (IH (acc ++ [r]) fs1) as (results & fs' & Hloop & Hres).
    exists (r :: results), fs'. split.
    + rewrite Hloop. by rewrite <-app_assoc.
    + by constructor.
Qed.



(** X15. Files of the same stem are given the same output path. Let the
    output directory be made and the batch consist of two files whose
    names have the same stem (a.mseed and a.sac, say, or two files a.mseed
    of different directories). With one worker the run returns one result
    per file, in order, and every result of status "success" names the
    same path str(Path(output_dir) / (stem + ext)) as its output: two
    successes can be reported for one output file name, and no error
    reports the clash. *)
Theorem same_stem_files_share_one_output lib mkdir collect_files input_path output_dir o
    sched order fs fs1 f1 f2 :
  write_refuses_empty lib ->
  mkdir (Path output_dir) fs = (Ok tt, fs1) ->
  collect_files fs1 (Path input_path) = [f1; f2] ->
  stem (Path f1) = stem (Path f2) ->
  let out := output_file f2 (str (Path output_dir)) (output_format o) in
  exists r1 r2 fs',
    batch_process lib mkdir collect_files input_path output_dir 1 o sched order fs
    = Some (Ok [r1; r2], fs')
    /\ r1 !! "file" = Some (PyStr f1) /\ r2 !! "file" = Some (PyStr f2)
    /\ (r1 !! "status" = Some (PyStr "success") -> r1 !! "output" = Some (PyStr out))
    /\ (r2 !! "status" = Some (PyStr "success") -> r2 !! "output" = Some (PyStr out)).
Proof.
  intros Hlib Hmkdir Hfiles Hstem out.
  assert (Hout : output_file f1 (str (Path output_dir)) (output_format o) = out).
  { unfold out, output_file. by rewrite Hstem. }
  unfold batch_process. rewrite Hmkdir, Hfiles. cbn [bool_decide decide_rel Z.eqb].
  rewrite bool_decide_eq_false_2 by discriminate.
  cbn [sequential_loop app].
  destruct (process_file_run lib f1 (str (Path output_dir)) o fs1 Hlib)
    as [(st1 & tr1 & Htr1 & ->)|(msg1 & ->)];
    (match goal with
     | |- context [run_io (process_file lib f2 ?dir o) ?fs2] =>
         destruct (process_file_run lib f2 dir o fs2 Hlib)
           as [(st2 & tr2 & Htr2 & ->)|(msg2 & ->)]
     end);
    fold out; rewrite ?Hout; eexists _, _, _; (split; [reflexivity|]);
    (split; [reflexivity|]); (split; [reflexivity|]);
    split; first [done | intros Hstatus; discriminate Hstatus].
Qed.

(** Witness: a.mseed and a.sac of the example directory, copied to out/
    as SAC files: both results name out/a.sac, one for the 100 Hz
    recording and one for the 50 Hz recording. *)
Lemma same_stem_files_witness :
  write_refuses_empty plain_obspy
  /\ exists r1 r2 fs',
       batch_process plain_obspy existing_directory example_collect "data/" "out/" 1
         copy_as_sac [] [] example_fs = Some (Ok [r1; r2], fs')
       /\ r1 !! "output" = Some (PyStr "out/a.sac")
       /\ r2 !! "output" = Some (PyStr "out/a.sac")
       /\ r1 !! "sampling_rate" = Some (PyFloat 100)
       /\ r2 !! "sampling_rate" = Some (PyFloat 50).
Proof.
  assert (H : write_refuses_empty plain_obspy) by (intros path fmt; discriminate).
  split; [exact H|].
  destruct (same_stem_files_share_one_output plain_obspy existing_directory
              example_collect "data/" "out/" copy_as_sac [] [] example_fs example_fs
              "data/a.mseed" "data/a.sac" H eq_refl eq_refl eq_refl)
    as (r1 & r2 & fs' & Hrun & _).
  exists r1, r2, fs'. split; [exact Hrun|].
  assert (Hrates : reported_rates
            (batch_process plain_obspy existing_directory example_collect "data/" "out/"
               1 copy_as_sac [] [] example_fs)
          = Some [Some (PyFloat 100); Some (PyFloat 50)])
    by (vm_compute; reflexivity).
  assert (Houts : (fun run : option (result (list dict) * filesystem) =>
                     match run with
                     | Some (Ok results, _) =>
                         Some ((fun d : dict => d !! "output") <$> results)
                     | _ => None
                     end)
            (batch_process plain_obspy existing_directory example_collect "data/" "out/"
               1 copy_as_sac [] [] example_fs)
          = Some [Some (PyStr "out/a.sac"); Some (PyStr "out/a.sac")])
    by (vm_compute; reflexivity).
  rewrite Hrun in Hrates, Houts. simpl in Hrates, Houts.
  injection Hrates as Hr1 Hr2. injection Houts as Ho1 Ho2.
  repeat split; assumption.
Defined.

End BatchProcessProofs.

Module HostFacts.
Import Host.

(** *** Running a script statement by statement *)

(** One step of a script that starts with an external call. *)
Lemma bind_extcall {A B} callee meth (answer : result A) (k : A -> script B) w :
  (extcall callee meth answer ≫= k) w
  = let w' := {| calls := calls w ++ [{| callee := callee; method := meth |}];
                 stdout := stdout w |} in
    match answer with
    | Ok a => k a w'
    | Raise e => (Raised e, w')
    end.
Proof. unfold mbind, script_bind, extcall. by destruct answer. Qed.

Lemma bind_print {B} line (k : unit -> script B) w :
  (print line ≫= k) w = k tt {| calls := calls w; stdout := stdout w ++ [line] |}.
Proof. reflexivity. Qed.

Lemma bind_ret {A B} (a : A) (k : A -> script B) w : (mret a ≫= k) w = k a w.
Proof. reflexivity. Qed.

Lemma bind_extcall_or_exit {A B} callee meth (answer : Z + A) (k : A -> script B) w :
  (extcall_or_exit callee meth answer ≫= k) w
  = let w' := {| calls := calls w ++ [{| callee := callee; method := meth |}];
                 stdout := stdout w |} in
    match answer with
    | inl code => (Exited code, w')
    | inr a => k a w'
    end.
Proof. unfold mbind, script_bind, extcall_or_exit. by destruct answer. Qed.

Lemma bind_raised {A B} (m : script A) (k : A -> script B) w e w' :
  m w = (Raised e, w') -> (m ≫= k) w = (Raised e, w').
Proof. intros H. unfold mbind, script_bind. by rewrite H. Qed.

Lemma bind_assoc {A B C} (m : script A) (f : A -> script B) (g : B -> script C) w :
  ((m ≫= f) ≫= g) w = (m ≫= fun a => f a ≫= g) w.
Proof.
  unfold mbind, script_bind. by destruct (m w) as [[a|e|c] w'].
Qed.

(** Run the next statement of a script, case by case on what the package
    answers; [on_raise] closes the case in which the call raises. *)
Ltac run_step on_raise :=
  first
    [ rewrite bind_print; cbn [calls stdout]
    | rewrite bind_ret
    | rewrite bind_extcall;
      match goal with
      | |- context [match ?r with Ok _ => _ | Raise _ => _ end] =>
          let Heq := fresh "Hcall" in destruct r eqn:Heq
      end; cbn zeta; cbn [calls stdout]; [|solve [on_raise]] ].

Ltac count_calls :=
  unfold count_method, mret, script_ret; cbn [fst snd calls stdout];
  repeat rewrite List.filter_app; repeat rewrite length_app;
  simpl; try lia.

(** A loop of calls that all return logs one call per element. *)
Lemma for_each_logged_calls {A B} (xs : list A) callee meth (k : unit -> script B) w :
  (for_each xs (fun _ => extcall callee meth (Ok tt)) ≫= k) w
  = k tt {| calls := calls w ++ map (fun _ => {| callee := callee; method := meth |}) xs;
            stdout := stdout w |}.
Proof.
  revert w. induction xs as [|x xs IH]; intros w; cbn [for_each map].
  - rewrite bind_ret, app_nil_r. by destruct w.
  - rewrite bind_assoc, bind_extcall. cbn zeta. rewrite IH. cbn [calls stdout].
    by rewrite <-app_assoc.
Qed.

(** *** How a script ends *)

Lemma ends_ret {A} (a : A) : ends (mret a) (Returned a).
Proof. intros w. reflexivity. Qed.

Lemma ends_print line : ends (print line) (Returned tt).
Proof. intros w. reflexivity. Qed.

Lemma ends_sys_exit {A} code : ends (sys_exit code : script A) (Exited code).
Proof. intros w. reflexivity. Qed.

Lemma ends_extcall {A} callee meth (a : A) : ends (extcall callee meth (Ok a)) (Returned a).
Proof. intros w. reflexivity. Qed.

Lemma ends_bind {A B} (m : script A) (k : A -> script B) a o :
  ends m (Returned a) -> ends (k a) o -> ends (m ≫= k) o.
Proof.
  intros Hm Hk w. unfold mbind, script_bind.
  specialize (Hm w). destruct (m w) as [o' w']. simpl in Hm. subst o'. apply Hk.
Qed.

Lemma ends_for_each {A} (xs : list A) (body : A -> script unit) :
  (forall x, ends (body x) (Returned tt)) -> ends (for_each xs body) (Returned tt).
Proof.
  intros Hbody. induction xs as [|x xs IH]; simpl.
  - apply ends_ret.
  - eapply ends_bind; [apply Hbody|exact IH].
Qed.

(** *** Which calls a script can make *)

Lemma only_calls_ret {A} P (a : A) : only_calls P (mret a : script A).
Proof. intros w. exists []. by rewrite app_nil_r. Qed.

Lemma only_calls_print P line : only_calls P (print line).
Proof. intros w. exists []. by rewrite app_nil_r. Qed.

Lemma only_calls_sys_exit {A} P code : only_calls P (sys_exit code : script A).
Proof. intros w. exists []. by rewrite app_nil_r. Qed.

Lemma only_calls_eval {A} P (r : result A) : only_calls P (eval r).
Proof. intros w. exists []. unfold eval. destruct r; by rewrite app_nil_r. Qed.

Lemma only_calls_extcall {A} (P : call -> bool) callee meth (answer : result A) :
  P {| callee := callee; method := meth |} = true ->
  only_calls P (extcall callee meth answer).
Proof.
  intros HP w. exists [{| callee := callee; method := meth |}].
  unfold extcall. destruct answer; simpl; by rewrite HP.
Qed.

Lemma only_calls_extcall_or_exit {A} (P : call -> bool) callee meth (answer : Z + A) :
  P {| callee := callee; method := meth |} = true ->
  only_calls P (extcall_or_exit callee meth answer).
Proof.
  intros HP w. exists [{| callee := callee; method := meth |}].
  unfold extcall_or_exit. destruct answer; simpl; by rewrite HP.
Qed.

Lemma only_calls_bind {A B} P (m : script A) (k : A -> script B) :
  only_calls P m -> (forall a, only_calls P (k a)) -> only_calls P (m ≫= k).
Proof.
  intros Hm Hk w. destruct (Hm w) as (cs & Hcs & HP).
  unfold mbind, script_bind.
  destruct (m w) as [[a|e|c] w'] eqn:Hrun; simpl in Hcs.
  - destruct (Hk a w') as (cs' & Hcs' & HP').
    exists (cs ++ cs'). rewrite Hcs', Hcs, app_assoc. split; [done|].
    rewrite forallb_app. by rewrite HP, HP'.
  - by exists cs.
  - by exists cs.
Qed.

Lemma only_calls_try_except {A} P (body : script A) classes handler :
  only_calls P body -> (forall e, only_calls P (handler e)) ->
  only_calls P (try_except body classes handler).
Proof.
  intros Hm Hk w. destruct (Hm w) as (cs & Hcs & HP).
  unfold try_except.
  destruct (body w) as [[a|e|c] w'] eqn:Hrun; simpl in Hcs.
  - by exists cs.
  - destruct (existsb (isinstance e) classes).
    + destruct (Hk e w') as (cs' & Hcs' & HP').
      exists (cs ++ cs'). rewrite Hcs', Hcs, app_assoc. split; [done|].
      rewrite forallb_app. by rewrite HP, HP'.
    + by exists cs.
  - by exists cs.
Qed.

Lemma only_calls_for_each {A} P (xs : list A) (body : A -> script unit) :
  (forall x, only_calls P (body x)) -> only_calls P (for_each xs body).
Proof.
  intros Hbody. induction xs as [|x xs IH]; simpl.
  - apply only_calls_ret.
  - apply only_calls_bind; [apply Hbody|]. intros _. exact IH.
Qed.

(** A script that makes no call into argparse leaves that log as it is. *)
Lemma only_other_calls_argparse {A} (m : script A) w :
  only_calls (fun c => negb (is_argparse c)) m ->
  argparse_calls (m w).2 = argparse_calls w.
Proof.
  intros Hm. destruct (Hm w) as (cs & Hcs & HP).
  unfold argparse_calls. rewrite Hcs, List.filter_app.
  assert (List.filter is_argparse cs = []) as ->; [|by rewrite app_nil_r].
  clear Hcs. induction cs as [|c cs IH]; [done|].
  simpl in *. apply andb_prop in HP as [Hc Hcs].
  apply negb_true_iff in Hc. rewrite Hc. by apply IH.
Qed.

(** Decompose a script into its statements. *)
Ltac only_calls_tac :=
  repeat first
    [ apply only_calls_ret
    | apply only_calls_print
    | apply only_calls_sys_exit
    | apply only_calls_eval
    | apply only_calls_extcall; reflexivity
    | apply only_calls_extcall_or_exit; reflexivity
    | apply only_calls_for_each; intros ?
    | apply only_calls_try_except; [|intros ?]
    | apply only_calls_bind; [|intros ?]
    | match goal with
      | |- only_calls _ (match ?x with _ => _ end) => destruct x
      end ].

Lemma bind_eval {A B} (r : result A) (k : A -> script B) w :
  (eval r ≫= k) w = match r with Ok a => k a w | Raise e => (Raised e, w) end.
Proof. unfold mbind, script_bind, eval. by destruct r. Qed.

Lemma bind_returned {A B} (m : script A) (k : A -> script B) w a w' :
  m w = (Returned a, w') -> (m ≫= k) w = k a w'.
Proof. intros Hm. unfold mbind, script_bind. by rewrite Hm. Qed.

End HostFacts.

Module LasToCsvProofs.
Import Host HostFacts LasToCsv.

(** C5, as amended. [las_to_csv.py] has no handler around [lasio.read]:
    when [lasio.read] raises on the input, [las_to_csv] raises the same
    exception after that one call; and [main], for a command line naming
    that file, ends with the exception uncaught, having printed nothing and
    written no CSV. *)
Theorem las_to_csv_read_error_propagates pk las_path e :
  lasio_read pk las_path = Raise e ->
  (forall csv_path curves replace_null w,
     las_to_csv pk las_path csv_path curves replace_null w
     = (Raised e,
        {| calls := calls w ++ [{| callee := "lasio"; method := "read" |}];
           stdout := stdout w |}))
  /\ (forall parse_args argv args w,
       parse_args parser_arguments argv = inr args ->
       path_str pk (input args) = las_path ->
       path_is_file pk las_path = true ->
       truthy_str (output args) = true
         \/ is_ok (path_with_suffix pk las_path ".csv") = true ->
       let r := main pk parse_args argv w in
       r.1 = Raised e /\ stdout r.2 = stdout w
       /\ count_method "to_csv" r.2 = count_method "to_csv" w).
Proof.
  intros Hread.
  assert (Hconv : forall csv_path curves replace_null w,
     las_to_csv pk las_path csv_path curves replace_null w
     = (Raised e,
        {| calls := calls w ++ [{| callee := "lasio"; method := "read" |}];
           stdout := stdout w |})).
  { intros csv_path curves replace_null w. unfold las_to_csv.
    rewrite bind_extcall, Hread. reflexivity. }
  split; [exact Hconv|].
  intros parse_args argv args w Hargs Hpath Hfile Hout r. subst r.
  unfold main. rewrite bind_extcall. cbn zeta.
  rewrite for_each_logged_calls, bind_extcall_or_exit, Hargs.
  cbv beta iota zeta. cbn [calls stdout]. rewrite Hpath, Hfile.
  destruct (truthy_str (output args)) eqn:Htruthy.
  - rewrite bind_ret. erewrite bind_raised by apply Hconv.
    repeat split; count_calls.
  - destruct Hout as [Hout|Hout]; [discriminate|].
    rewrite bind_extcall.
    destruct (path_with_suffix pk las_path ".csv") as [out|e']; [|discriminate].
    cbn zeta. erewrite bind_raised by apply Hconv.
    repeat split; count_calls.
Qed.

(** Witness for C5 as amended: a LAS file whose header lasio rejects. *)
Lemma las_to_csv_read_error_witness :
  lasio_read example_packages "broken.las" = Raise (Exc "LASHeaderError" "No ~V section")
  /\ las_to_csv example_packages "broken.las" None None true empty_world
     = (Raised (Exc "LASHeaderError" "No ~V section"),
        {| calls := [{| callee := "lasio"; method := "read" |}]; stdout := [] |}).
Proof.
  split; [reflexivity|].
  exact (proj1 (las_to_csv_read_error_propagates example_packages "broken.las"
                  (Exc "LASHeaderError" "No ~V section") eq_refl)
           None None true empty_world).
Defined.

(** Counterexample to C5 as stated: [python las_to_csv.py broken.las],
    where [lasio.read] raises. The run ends with the exception uncaught,
    not with [exit]; nothing was printed. *)
Lemma las_to_csv_main_raises_counterexample :
  let r := main example_packages example_parse_args ["las_to_csv.py"; "broken.las"]
             empty_world in
  is_ok (lasio_read example_packages "broken.las") = false
  /\ r.1 = Raised (Exc "LASHeaderError" "No ~V section")
  /\ (forall code, r.1 <> Exited code)
  /\ stdout r.2 = [].
Proof.
  vm_compute. repeat split. intros code H. discriminate H.
Qed.

(** *** Null values *)

Lemma py_float_raises pk v e :
  py_float pk v = Raise e ->
  exn_class e = "ValueError" \/ exn_class e = "TypeError"
  \/ (exn_class e = "OverflowError" /\ exists z, v = PyInt z /\ (float_int_bound <= Z.abs z)%Z).
Proof.
  destruct v as [|b|z|q|s|l|items]; simpl; try discriminate;
    try (intros [= <-]; right; by left).
  - destruct (Z.ltb_spec (Z.abs z) float_int_bound); [discriminate|].
    intros [= <-]. right; right. split; [reflexivity|]. by exists z.
  - destruct (float_of_str pk s); [discriminate|]. intros [= <-]. by left.
Qed.

(** The statements of [las_to_csv] after the null values were handled. *)
Lemma las_to_csv_tail_outcome pk (las_path : string) (csv_path : option string)
    (df : DataFrame pk) w w' :
  let tail : script string :=
    csv_path ← (match csv_path with
                | None => extcall "pathlib.Path" "with_suffix"
                            (path_with_suffix pk las_path ".csv")
                | Some p => mret p
                end);
    _ ← extcall "pandas.DataFrame" "to_csv" (df_to_csv pk df csv_path);
    mret csv_path in
  (tail w).1 = (tail w').1
  /\ count_method "replace" (tail w).2 = count_method "replace" w.
Proof.
  intros tail. subst tail. destruct csv_path as [p|].
  - rewrite !bind_ret, !bind_extcall. cbn zeta.
    destruct (df_to_csv pk df p); split; try reflexivity; count_calls.
  - rewrite !bind_extcall. cbn zeta.
    destruct (path_with_suffix pk las_path ".csv") as [p|e];
      [|split; [reflexivity|count_calls]].
    rewrite !bind_extcall. cbn zeta.
    destruct (df_to_csv pk df p); split; try reflexivity; count_calls.
Qed.

(** The null-replacement statements when [float] raises on the NULL
    value: the handler takes the exception or lets it pass. *)
Lemma null_branch_float_raises pk (las : LASFile pk) (df : DataFrame pk)
    {B} (k : DataFrame pk -> script B) w item null_val e :
  well_get pk las "NULL" = Ok item ->
  item_get pk item "value" (PyFloat (-(99925 # 100))) = Ok null_val ->
  py_float pk null_val = Raise e ->
  let w' := {| calls := (calls w ++ [{| callee := "lasio.SectionItems"; method := "get" |}])
                        ++ [{| callee := "lasio.HeaderItem"; method := "get" |}];
               stdout := stdout w |} in
  ((item ← extcall "lasio.SectionItems" "get" (well_get pk las "NULL");
    null_val ← extcall "lasio.HeaderItem" "get"
                 (item_get pk item "value" (PyFloat (-(99925 # 100))));
    try_except
      (null_val ← eval (py_float pk null_val);
       extcall "pandas.DataFrame" "replace" (df_replace pk df null_val))
      ["ValueError"; "TypeError"]
      (fun _ => mret df)) ≫= k) w
  = if existsb (isinstance e) ["ValueError"; "TypeError"] then k df w'
    else (Raised e, w').
Proof.
  intros Hitem Hval Hfloat w'. subst w'.
  rewrite bind_assoc, bind_extcall, Hitem. cbn zeta.
  rewrite bind_assoc, bind_extcall, Hval. cbn zeta. cbn [calls stdout].
  unfold try_except, eval, mbind, script_bind. rewrite Hfloat.
  by destruct (existsb (isinstance e) ["ValueError"; "TypeError"]).
Qed.

(** X17. Null values. With [replace_null] off (the --keep-null flag)
    [las_to_csv] never looks up the NULL header item and never calls
    DataFrame.replace. With it on, when [float] raises on the NULL value,
    the class of the exception decides. A ValueError or TypeError (a text
    that is no number, None) is swallowed: the conversion ends exactly as
    it does with the flag, and DataFrame.replace is not called. Any other
    exception is not handled: [las_to_csv] raises and calls neither
    DataFrame.replace nor DataFrame.to_csv, also where the run with the
    flag returns. The only such exception of [float] is the OverflowError
    for an int of magnitude 2^1024 - 2^970 or more. *)
Theorem las_to_csv_null_handling pk las_path csv_path curves :
  only_calls (fun c => negb (is_null_handling c))
    (las_to_csv pk las_path csv_path curves false)
  /\ forall las w item null_val e,
       lasio_read pk las_path = Ok las ->
       well_get pk las "NULL" = Ok item ->
       item_get pk item "value" (PyFloat (-(99925 # 100))) = Ok null_val ->
       py_float pk null_val = Raise e ->
       let kept := las_to_csv pk las_path csv_path curves false w in
       let replaced := las_to_csv pk las_path csv_path curves true w in
       count_method "replace" replaced.2 = count_method "replace" w
       /\ if existsb (isinstance e) ["ValueError"; "TypeError"]
          then replaced.1 = kept.1
          else (exists e', replaced.1 = Raised e')
               /\ (forall p, kept.1 = Returned p -> replaced.1 = Raised e)
               /\ count_method "to_csv" replaced.2 = count_method "to_csv" w
               /\ exn_class e = "OverflowError"
               /\ exists z, null_val = PyInt z /\ (float_int_bound <= Z.abs z)%Z.
Proof.
  split.
  { unfold las_to_csv. only_calls_tac. }
  intros las w item null_val e Hread Hitem Hval Hfloat kept replaced.
  assert (Hclass : existsb (isinstance e) ["ValueError"; "TypeError"] = false ->
            exn_class e = "OverflowError"
            /\ exists z, null_val = PyInt z /\ (float_int_bound <= Z.abs z)%Z).
  { intros Hunhandled.
    destruct (py_float_raises pk null_val e Hfloat) as [Hc|[Hc|Hc]]; [| |exact Hc];
      unfold isinstance in Hunhandled; rewrite Hc in Hunhandled; discriminate. }
  subst kept replaced. unfold las_to_csv.
  rewrite !bind_extcall, Hread. cbn zeta.
  rewrite !bind_extcall. cbn zeta. cbn [calls stdout].
  destruct (las_df pk las) as [df0|e0].
  2: { split; [count_calls|]. destruct (existsb _ _); [reflexivity|].
       split; [by eexists|]. split; [discriminate|]. split; [count_calls|by apply Hclass]. }
  rewrite !bind_extcall. cbn zeta. cbn [calls stdout].
  destruct (df_reset_index pk df0) as [df|e0].
  2: { split; [count_calls|]. destruct (existsb _ _); [reflexivity|].
       split; [by eexists|]. split; [discriminate|]. split; [count_calls|by apply Hclass]. }
  destruct (truthy_list curves).
  - rewrite !bind_assoc, !bind_eval.
    destruct (py_index (df_columns pk df) 0) as [depth_col|e0].
    2: { split; [count_calls|]. destruct (existsb _ _); [reflexivity|].
         split; [by eexists|]. split; [discriminate|]. split; [count_calls|by apply Hclass]. }
    rewrite ?bind_assoc, !bind_extcall. cbn zeta. cbn [calls stdout].
    destruct (df_getitem pk df _) as [df1|e0].
    2: { split; [count_calls|]. destruct (existsb _ _); [reflexivity|].
         split; [by eexists|]. split; [discriminate|]. split; [count_calls|by apply Hclass]. }
    rewrite (null_branch_float_raises pk las df1 _ _ item null_val e Hitem Hval Hfloat),
      bind_ret.
    cbv zeta.
    destruct (existsb (isinstance e) ["ValueError"; "TypeError"]).
    + match goal with
      | |- _ /\ (?tail ?w1).1 = (?tail ?w2).1 =>
          destruct (las_to_csv_tail_outcome pk las_path csv_path df1 w1 w2) as [Hout Hcount]
      end.
      cbv zeta in Hout, Hcount. split; [|exact Hout].
      rewrite Hcount. count_calls.
    + split; [count_calls|]. split; [by eexists|]. split; [done|].
      split; [count_calls|by apply Hclass].
  - rewrite !(bind_ret df),
      (null_branch_float_raises pk las df _ _ item null_val e Hitem Hval Hfloat), ?bind_ret.
    cbv zeta.
    destruct (existsb (isinstance e) ["ValueError"; "TypeError"]).
    + match goal with
      | |- _ /\ (?tail ?w1).1 = (?tail ?w2).1 =>
          destruct (las_to_csv_tail_outcome pk las_path csv_path df w1 w2) as [Hout Hcount]
      end.
      cbv zeta in Hout, Hcount. split; [|exact Hout].
      rewrite Hcount. count_calls.
    + split; [count_calls|]. split; [by eexists|]. split; [done|].
      split; [count_calls|by apply Hclass].
Qed.

(** Witness: a LAS file whose NULL entry is the text "none" converts; one
    whose NULL entry is the integer 10^400 does not. *)
Lemma las_to_csv_null_witness :
  (las_to_csv (null_packages (PyStr "none")) "well.las" None None true empty_world).1
  = Returned "well.csv"
  /\ (las_to_csv (null_packages (PyInt (10 ^ 400))) "well.las" None None true
        empty_world).1
     = Raised (Exc "OverflowError" "int too large to convert to float").
Proof.
  split.
  - exact (proj2 (proj2 (las_to_csv_null_handling (null_packages (PyStr "none"))
                           "well.las" None None)
                    "well.las" empty_world tt (PyStr "none")
                    (Exc "ValueError" "could not convert string to float")
                    eq_refl eq_refl eq_refl eq_refl)).
  - exact (proj1 (proj2 (proj2 (proj2 (las_to_csv_null_handling
                                         (null_packages (PyInt (10 ^ 400)))
                                         "well.las" None None)
                                  "well.las" empty_world tt (PyInt (10 ^ 400))
                                  (Exc "OverflowError" "int too large to convert to float")
                                  eq_refl eq_refl eq_refl eq_refl)))
             "well.csv" eq_refl).
Defined.

(** *** main *)



Lemma silent_ret {A} (a : A) : silent (mret a : script A).
Proof. by intros w. Qed.

Lemma silent_eval {A} (r : result A) : silent (eval r).
Proof. intros w. unfold eval. by destruct r. Qed.

Lemma silent_extcall {A} callee meth (answer : result A) :
  silent (extcall callee meth answer).
Proof. intros w. unfold extcall. by destruct answer. Qed.

Lemma silent_bind {A B} (m : script A) (k : A -> script B) :
  silent m -> (forall a, silent (k a)) -> silent (m ≫= k).
Proof.
  intros Hm Hk w. specialize (Hm w). unfold mbind, script_bind.
  destruct (m w) as [[a|e|c] w']; simpl in *; [|done..].
  by rewrite Hk.
Qed.

Lemma silent_try_except {A} (body : script A) classes handler :
  silent body -> (forall e, silent (handler e)) ->
  silent (try_except body classes handler).
Proof.
  intros Hbody Hh w. specialize (Hbody w). unfold try_except.
  destruct (body w) as [[a|e|c] w']; simpl in *; [done| |done].
  destruct (existsb (isinstance e) classes); [by rewrite Hh|done].
Qed.

Lemma las_to_csv_silent pk las_path csv_path curves replace_null :
  silent (las_to_csv pk las_path csv_path curves replace_null).
Proof.
  unfold las_to_csv.
  repeat first
    [ apply silent_ret
    | apply silent_eval
    | apply silent_extcall
    | apply silent_try_except; [|intros ?]
    | apply silent_bind; [|intros ?]
    | match goal with
      | |- silent (if ?b then _ else _) => destruct b
      | |- silent (match ?x with Some _ => _ | None => _ end) => destruct x
      end ].
Qed.

(** The loop of [main] over the LAS files of a directory. *)
Lemma directory_loop pk (out_dir : string) curves replace_null
    (files csvs : list string) :
  Forall2 (fun las_file csv =>
             batch_csv_path pk out_dir las_file = Ok csv
             /\ ends (las_to_csv pk las_file (Some csv) curves replace_null)
                  (Returned csv))
    files csvs ->
  forall w,
    let r := for_each files (fun las_file =>
               suffixed ← extcall "pathlib.Path" "with_suffix"
                            (path_with_suffix pk las_file ".csv");
               result ← las_to_csv pk las_file
                          (Some (path_joinpath pk out_dir (path_name pk suffixed)))
                          curves replace_null;
               print (String.append "Created: " result)) w in
    r.1 = Returned tt
    /\ stdout r.2 = stdout w ++ map (String.append "Created: ") csvs.
Proof.
  induction 1 as [|las_file csv files csvs [Hcsv Hconv] _ IH]; intros w; cbv zeta in *.
  - split; [reflexivity|]. simpl. by rewrite app_nil_r.
  - cbn [for_each map]. unfold batch_csv_path in Hcsv.
    rewrite bind_assoc, bind_extcall.
    destruct (path_with_suffix pk las_file ".csv") as [suffixed|e]; [|discriminate Hcsv].
    cbn [mbind result_mbind result_bind mret result_ret] in Hcsv.
    injection Hcsv as Hcsv. cbn zeta. rewrite Hcsv.
    rewrite bind_assoc.
    set (w1 := {| calls := calls w ++ [{| callee := "pathlib.Path";
                                          method := "with_suffix" |}];
                  stdout := stdout w |}).
    pose proof (Hconv w1) as Hout.
    pose proof (las_to_csv_silent pk las_file (Some csv) curves replace_null w1) as Hquiet.
    destruct (las_to_csv pk las_file (Some csv) curves replace_null w1)
      as [o w2] eqn:Hrun.
    simpl in Hout, Hquiet. subst o.
    rewrite (bind_returned _ _ _ _ _ Hrun), bind_print.
    destruct (IH {| calls := calls w2;
                    stdout := stdout w2 ++ [String.append "Created: " csv] |})
      as [IHo IHs].
    split; [exact IHo|]. rewrite IHs. cbn [stdout]. rewrite Hquiet.
    by rewrite <-app_assoc.
Qed.

(** X19. Converting a directory. When the input is a directory, the
    output directory can be created and every *.las file of the directory
    converts, [main] returns after printing one "Created: <csv>" line per
    file, in the order of the listing, where <csv> is the path
    output_dir / las_file.with_suffix(".csv").name as pathlib joins it; a
    directory without LAS files gives no output and no error. *)
Theorem main_converts_a_directory pk parse_args argv args w (csvs : list string) :
  parse_args parser_arguments argv = inr args ->
  path_is_file pk (path_str pk (input args)) = false ->
  path_is_dir pk (path_str pk (input args)) = true ->
  path_mkdir pk (batch_output_dir pk args) = Ok tt ->
  Forall2 (fun las_file csv =>
             batch_csv_path pk (batch_output_dir pk args) las_file = Ok csv
             /\ ends (las_to_csv pk las_file (Some csv) (curves args)
                        (negb (keep_null args)))
                  (Returned csv))
    (path_glob pk (path_str pk (input args)) "*.las") csvs ->
  let r := main pk parse_args argv w in
  r.1 = Returned tt
  /\ stdout r.2 = stdout w ++ map (String.append "Created: ") csvs.
Proof.
  intros Hargs Hfile Hdir Hmkdir Hfiles r. subst r. unfold main.
  rewrite bind_extcall. cbn zeta.
  rewrite for_each_logged_calls, bind_extcall_or_exit, Hargs.
  cbv beta iota zeta. cbn [calls stdout]. rewrite Hfile, Hdir.
  fold (batch_output_dir pk args). rewrite bind_extcall, Hmkdir. cbn zeta.
  cbn [calls stdout].
  match goal with
  | |- context [for_each _ _ ?w1] =>
      destruct (directory_loop pk (batch_output_dir pk args) (curves args)
                  (negb (keep_null args)) _ csvs Hfiles w1) as [Ho Hs]
  end.
  split; [exact Ho|]. rewrite Hs. reflexivity.
Qed.

(** Witness: [las_to_csv.py logs/ --output-dir .], where logs/ holds
    well.las: the CSV is written to well.csv. *)
Lemma main_converts_a_directory_witness :
  let r := main batch_packages batch_parse_args
             ["las_to_csv.py"; "logs/"; "--output-dir"; "."] empty_world in
  r.1 = Returned tt /\ stdout r.2 = ["Created: well.csv"].
Proof.
  apply (main_converts_a_directory batch_packages batch_parse_args
           ["las_to_csv.py"; "logs/"; "--output-dir"; "."]
           {| input := "logs/"; output := None; curves := None;
              keep_null := false; output_dir := Some "." |}
           empty_world ["well.csv"]); try reflexivity.
  constructor; [|constructor]. split; [reflexivity|].
  intros w. reflexivity.
Defined.

End LasToCsvProofs.

Module InversionProofs.
Import Host HostFacts.

(** C4, as amended. [ert_inversion.py]'s [run_inversion] calls
    [ERTManager.invert] at most once, and exactly once when it returns:
    the model it returns is the model that call produced. [dc_inversion.py]'s
    [run_inversion] never calls a method named [invert]: it calls
    [BaseInversion.run] at most once, exactly once when it returns, and
    returns 1.0 / (sigma_map * mrec) for the model [mrec] that call
    produced. *)
Theorem inversion_by_one_external_call :
  (forall pk data mesh lam z_weight robust max_iter verbose w,
     let r := ErtInversion.run_inversion pk data mesh lam z_weight robust
                max_iter verbose w in
     (count_method "invert" r.2 <= count_method "invert" w + 1)%nat
     /\ forall mgr model, r.1 = Returned (mgr, model) ->
          count_method "invert" r.2 = (count_method "invert" w + 1)%nat
          /\ exists mgr0,
               ErtInversion.mgr_invert pk mgr0 lam z_weight robust max_iter verbose
               = Ok (mgr, model))
  /\ (forall pk mesh survey obs_data max_iter w,
       let r := DcInversion.run_inversion pk mesh survey obs_data max_iter w in
       count_method "invert" r.2 = count_method "invert" w
       /\ (count_method "run" r.2 <= count_method "run" w + 1)%nat
       /\ forall rho_rec, r.1 = Returned rho_rec ->
            count_method "run" r.2 = (count_method "run" w + 1)%nat
            /\ exists inv m0 mrec sigma_map sigma_rec,
                 DcInversion.inv_run pk inv m0 = Ok mrec
                 /\ DcInversion.map_mul pk sigma_map mrec = Ok sigma_rec
                 /\ DcInversion.nd_rtruediv pk 1 sigma_rec = Ok rho_rec).
Proof.
  split.
  - intros pk data mesh lam z_weight robust max_iter verbose w r. subst r.
    unfold ErtInversion.run_inversion.
    run_step ltac:(split; [count_calls|discriminate]).
    destruct mesh as [mesh|];
      repeat run_step ltac:(split; [count_calls|discriminate]);
      match goal with p : (_ * _)%type |- _ => destruct p as [mgr1 model1] end;
      repeat run_step ltac:(split; [count_calls|discriminate]);
      (split; [count_calls|]); unfold mret, script_ret; cbn [fst snd];
      intros mgr model [= <- <-];
      (split; [count_calls|]); by eexists.
  - intros pk mesh survey obs_data max_iter w r. subst r.
    unfold DcInversion.run_inversion.
    repeat run_step ltac:(split; [count_calls|split; [count_calls|discriminate]]).
    split; [count_calls|]. split; [count_calls|].
    unfold mret, script_ret; cbn [fst snd].
    intros rho_rec [= <-]. split; [count_calls|]. by do 5 eexists.
Qed.

(** Counterexample to C4 as stated: a run of [dc_inversion.py]'s
    [run_inversion] that returns a recovered model without a single call
    of a method named [invert]. *)
Lemma dc_run_inversion_without_invert :
  let r := DcInversion.run_inversion DcInversion.example_packages
             "mesh" "survey" "obs_data" 15 empty_world in
  r.1 = Returned "rho_rec"
  /\ count_method "invert" r.2 = 0%nat
  /\ count_method "run" r.2 = 1%nat.
Proof. vm_compute. repeat split. Qed.

(** X25. The summary of an ERT inversion. When [run_inversion] of
    ert_inversion.py returns, it has printed exactly five lines after what
    was printed before: an empty line, "Inversion complete:", and the
    chi-squared, relative RMS and iteration count in that order; and it
    has called [setMesh] once if a mesh was given and not at all
    otherwise. When [ERTManager.invert] raises, [run_inversion] raises and
    prints nothing. *)
Theorem ert_run_inversion_summary pk data mesh lam z_weight robust max_iter verbose w :
  let r := ErtInversion.run_inversion pk data mesh lam z_weight robust max_iter
             verbose w in
  (forall mgr model,
     r.1 = Returned (mgr, model) ->
     (exists chi2 rms iterations,
        stdout r.2
        = stdout w ++ [""; "Inversion complete:";
                       String.append "  Chi-squared: " chi2;
                       String.append "  Relative RMS: " (String.append rms "%");
                       String.append "  Iterations: " iterations])
     /\ count_method "setMesh" r.2
        = (count_method "setMesh" w
           + match mesh with Some _ => 1 | None => 0 end)%nat)
  /\ ((forall mgr, exists e,
         ErtInversion.mgr_invert pk mgr lam z_weight robust max_iter verbose = Raise e) ->
      (exists e, r.1 = Raised e) /\ stdout r.2 = stdout w).
Proof.
  intros r. subst r. unfold ErtInversion.run_inversion.
  run_step ltac:(split; [discriminate|intros _; split; [by eexists|reflexivity]]).
  destruct mesh as [mesh|].
  - run_step ltac:(split; [discriminate|intros _; split; [by eexists|reflexivity]]).
    rewrite bind_extcall.
    destruct (ErtInversion.mgr_invert pk a0 lam z_weight robust max_iter verbose)
      as [[mgr1 model1]|e] eqn:Hinvert; cbn zeta; cbn [calls stdout].
    2: { split; [discriminate|intros _; split; [by eexists|reflexivity]]. }
    repeat run_step ltac:(split;
      [discriminate
      |intros Hfail; destruct (Hfail a0) as [e' He']; congruence]).
    split.
    + unfold mret, script_ret. cbn [fst snd stdout].
      intros mgr model [= <- <-]. split.
      * eexists _, _, _. rewrite <-!app_assoc. reflexivity.
      * count_calls.
    + intros Hfail. destruct (Hfail a0) as [e' He']. congruence.
  - rewrite bind_ret, bind_extcall.
    destruct (ErtInversion.mgr_invert pk a lam z_weight robust max_iter verbose)
      as [[mgr1 model1]|e] eqn:Hinvert; cbn zeta; cbn [calls stdout].
    2: { split; [discriminate|intros _; split; [by eexists|reflexivity]]. }
    repeat run_step ltac:(split;
      [discriminate
      |intros Hfail; destruct (Hfail a) as [e' He']; congruence]).
    split.
    + unfold mret, script_ret. cbn [fst snd stdout].
      intros mgr model [= <- <-]. split.
      * eexists _, _, _. rewrite <-!app_assoc. reflexivity.
      * count_calls.
    + intros Hfail. destruct (Hfail a) as [e' He']. congruence.
Qed.

End InversionProofs.

Module ValidateSkillsProofs.
Import Host HostFacts ValidateSkills.

Lemma parse_frontmatter_calls ev text :
  only_calls not_argparse (parse_frontmatter ev text).
Proof. unfold parse_frontmatter. only_calls_tac. Qed.

Lemma validate_skill_calls ev skill_dir :
  only_calls not_argparse (validate_skill ev skill_dir).
Proof.
  unfold validate_skill.
  apply only_calls_bind; [only_calls_tac|intros text].
  apply only_calls_bind; [apply parse_frontmatter_calls|intros fm].
  destruct fm; only_calls_tac.
Qed.

Lemma validate_marketplace_calls ev skill_names :
  only_calls not_argparse (validate_marketplace ev skill_names).
Proof. unfold validate_marketplace. only_calls_tac. Qed.

Lemma validate_all_calls ev skill_dirs total_errors total_warnings :
  only_calls not_argparse (validate_all ev skill_dirs total_errors total_warnings).
Proof.
  revert total_errors total_warnings.
  induction skill_dirs as [|d rest IH]; intros te tw; cbn [validate_all].
  - apply only_calls_ret.
  - apply only_calls_bind; [apply validate_skill_calls|intros issues].
    apply only_calls_bind; [unfold print_issue; only_calls_tac|intros _].
    apply IH.
Qed.

Lemma main_calls ev argv : only_calls not_argparse (main ev argv).
Proof.
  unfold main.
  apply only_calls_bind; [unfold find_skill_dirs; only_calls_tac|intros skill_dirs].
  destruct skill_dirs as [|d rest]; [only_calls_tac|].
  do 2 (apply only_calls_bind; [only_calls_tac|intros _]).
  apply only_calls_bind; [apply validate_all_calls|intros [te tw]].
  apply only_calls_bind; [apply validate_marketplace_calls|intros mp_issues].
  unfold print_issue. only_calls_tac.
Qed.

(** *** The verdict of [main] when validation completes *)

Lemma print_issues_end indent (issues : list issue) :
  ends (for_each issues (print_issue indent)) (Returned tt).
Proof. apply ends_for_each. intros i. apply ends_print. Qed.

Lemma validate_all_ends ev skill_dirs (found : list (list issue)) :
  Forall2 (fun d issues => ends (validate_skill ev d) (Returned issues)) skill_dirs found ->
  forall total_errors total_warnings,
    ends (validate_all ev skill_dirs total_errors total_warnings)
      (Returned ((total_errors + count_level "ERROR" (concat found))%nat,
                 (total_warnings + count_level "WARN" (concat found))%nat)).
Proof.
  induction 1 as [|d issues rest found Hd _ IH]; intros te tw; cbn [validate_all concat].
  - unfold count_level. simpl. rewrite !Nat.add_0_r. apply ends_ret.
  - eapply ends_bind; [exact Hd|].
    eapply ends_bind.
    + destruct issues as [|i issues]; [apply ends_print|].
      eapply ends_bind; [apply ends_print|apply print_issues_end].
    + unfold count_level. rewrite !List.filter_app, !length_app, !Nat.add_assoc.
      apply IH.
Qed.

(** X1. Whenever every [validate_skill] and [validate_marketplace] return,
    [main] exits with status 1 if no skill directory was found or at least
    one ERROR-level issue was found, and with status 0 otherwise. *)
Lemma main_verdict_when_validation_completes ev argv
    (found : list (list issue)) (mp_issues : list issue) :
  let skill_dirs := List.filter is_skill_dir (listing ev) in
  Forall2 (fun d issues => ends (validate_skill ev d) (Returned issues)) skill_dirs found ->
  ends (validate_marketplace ev (map name skill_dirs)) (Returned mp_issues) ->
  ends (main ev argv)
    (Exited (if bool_decide (skill_dirs = []) then 1
             else if (0 <? count_level "ERROR" (concat found ++ mp_issues))%nat
                  then 1 else 0)).
Proof.
  intros skill_dirs Hfound Hmp. unfold main.
  eapply ends_bind.
  { unfold find_skill_dirs. eapply ends_bind; [apply ends_extcall|apply ends_ret]. }
  fold skill_dirs. destruct skill_dirs as [|d rest] eqn:Hdirs.
  { eapply ends_bind; [apply ends_print|apply ends_sys_exit]. }
  rewrite bool_decide_eq_false_2 by done.
  do 2 (eapply ends_bind; [apply ends_print|]).
  eapply ends_bind; [apply (validate_all_ends ev _ found Hfound)|]. cbv beta iota.
  eapply ends_bind; [exact Hmp|].
  do 2 (eapply ends_bind; [apply ends_print|]).
  eapply ends_bind.
  { destruct mp_issues; [apply ends_print|apply print_issues_end]. }
  do 3 (eapply ends_bind; [apply ends_print|]).
  unfold count_level. rewrite List.filter_app, length_app. simpl.
  fold (count_level "ERROR" (concat found)).
  destruct (0 <? _)%nat;
    (eapply ends_bind; [apply ends_print|apply ends_sys_exit]).
Qed.

(** The lemma at work: one skill with a WARN-level issue only, and a
    marketplace file that lists it. The verdict is status 0. *)
Lemma main_verdict_witness :
  ends (main (example_env good_skill_md) ["validate_skills.py"]) (Exited 0).
Proof.
  apply (main_verdict_when_validation_completes (example_env good_skill_md)
           ["validate_skills.py"] [[("WARN", "Only 6 lines (minimum 150)")]] []).
  - change (List.filter is_skill_dir (listing (example_env good_skill_md)))
      with [{| name := "lasio"; is_dir := true; skill_md := Some (Ok good_skill_md) |}].
    constructor; [|constructor].
    intros w. vm_compute. reflexivity.
  - intros w. vm_compute. reflexivity.
Defined.

Lemma las_to_csv_calls pk las_path csv_path curves replace_null :
  only_calls not_argparse (LasToCsv.las_to_csv pk las_path csv_path curves replace_null).
Proof. unfold LasToCsv.las_to_csv. only_calls_tac. Qed.

(** Counterexample to C7 as stated: [python validate_skills.py --help]
    runs the whole validation and exits with its verdict; no call into
    argparse is made. *)
Lemma validate_skills_ignores_help_counterexample :
  let r := main (example_env good_skill_md) ["validate_skills.py"; "--help"]
             empty_world in
  r.1 = Exited 0
  /\ argparse_calls r.2 = []
  /\ count_method "parse_args" r.2 = 0%nat
  /\ last (stdout r.2) = Some "PASSED".
Proof. vm_compute. repeat split. Qed.

(** C9, at the failing input: a repository whose only skill has the YAML
    scalar 5 as front matter. [validate_skill] raises [TypeError] at
    ["_error" in fm]; nothing catches it, so the run ends with a traceback
    and status 1 after printing the header only: no ERROR-level issue was
    found or reported. *)
Theorem main_crashes_on_scalar_front_matter :
  let r := main (example_env scalar_skill_md) ["validate_skills.py"] empty_world in
  r.1 = Raised (Exc "TypeError" "argument of type 'int' is not iterable")
  /\ exit_status r.1 = 1%Z
  /\ stdout r.2 = ["Found 1 skills"; ""].
Proof. vm_compute. repeat split. Qed.

(** *** Front matter *)

Lemma ends_eval {A} (a : A) : ends (eval (Ok a)) (Returned a).
Proof. intros w. reflexivity. Qed.

Lemma ends_bind_raised {A B} (m : script A) (k : A -> script B) e :
  ends m (Raised e) -> ends (m ≫= k) (Raised e).
Proof.
  intros Hm w. specialize (Hm w). unfold mbind, script_bind.
  destruct (m w) as [[a|e'|c] w']; simpl in *; congruence.
Qed.

Lemma catches_every_exception e : existsb (isinstance e) ["Exception"] = true.
Proof.
  unfold isinstance, py_subclass. simpl.
  rewrite orb_false_r. apply orb_true_r.
Qed.

Lemma parse_frontmatter_none ev text w :
  String.prefix "---" text = false \/ (length (py_split "---" 2 text) < 3)%nat ->
  parse_frontmatter ev text w = (Returned PyNone, w).
Proof.
  intros Hnone. unfold parse_frontmatter.
  destruct (String.prefix "---" text); [|reflexivity].
  destruct Hnone as [Hx|Hlen]; [discriminate Hx|].
  apply Nat.ltb_lt in Hlen. by rewrite Hlen.
Qed.

(** What [import yaml; yaml.safe_load(doc)] gives. *)
Lemma parse_frontmatter_decodes ev text :
  String.prefix "---" text = true -> (3 <= length (py_split "---" 2 text))%nat ->
  ends (parse_frontmatter ev text)
    (Returned
       match safe_load ← import_yaml ev;
             safe_load (default "" (py_split "---" 2 text !! 1%nat)) with
       | Ok fm => fm
       | Raise e => PyDict [(PyStr "_error", PyStr (exn_msg e))]
       end).
Proof.
  intros Hprefix Hlen w. unfold parse_frontmatter. rewrite Hprefix. cbn [negb].
  apply Nat.ltb_ge in Hlen. rewrite Hlen.
  unfold try_except. rewrite bind_extcall. cbn zeta.
  destruct (import_yaml ev) as [safe_load|e0]; cbn [mbind result_mbind result_bind].
  - unfold extcall.
    destruct (safe_load (default "" (py_split "---" 2 text !! 1%nat))) as [v|e1];
      [reflexivity|].
    by rewrite catches_every_exception.
  - by rewrite catches_every_exception.
Qed.

(** X2. [parse_frontmatter] never raises and never ends the process. A
    text that does not start with [---], or has no second [---], gives
    None without PyYAML being imported; when the import or [safe_load]
    raises any exception, the result is the dict {"_error": str(e)}. *)
Theorem parse_frontmatter_never_raises ev text w :
  let r := parse_frontmatter ev text w in
  let parts := py_split "---" 2 text in
  (exists fm, r.1 = Returned fm)
  /\ (String.prefix "---" text = false \/ (length parts < 3)%nat ->
      r = (Returned PyNone, w))
  /\ (forall e,
        String.prefix "---" text = true -> (3 <= length parts)%nat ->
        import_yaml ev = Raise e
        \/ (exists safe_load, import_yaml ev = Ok safe_load
              /\ safe_load (default "" (parts !! 1%nat)) = Raise e) ->
        r.1 = Returned (PyDict [(PyStr "_error", PyStr (exn_msg e))])).
Proof.
  intros r parts. subst r parts.
  split; [|split].
  - destruct (String.prefix "---" text) eqn:Hprefix.
    + destruct (Nat.lt_ge_cases (length (py_split "---" 2 text)) 3) as [Hlen|Hlen].
      * rewrite parse_frontmatter_none by (by right). by eexists.
      * rewrite (parse_frontmatter_decodes ev text Hprefix Hlen w). by eexists.
    + rewrite parse_frontmatter_none by (by left). by eexists.
  - apply parse_frontmatter_none.
  - intros e Hprefix Hlen Hfail.
    rewrite (parse_frontmatter_decodes ev text Hprefix Hlen w).
    destruct Hfail as [->|(safe_load & -> & Hload)]; [reflexivity|].
    cbn [mbind result_mbind result_bind]. by rewrite Hload.
Qed.

(** *** validate_skill *)

Lemma mapM_always_ok {A B} (f : A -> result B) (g : A -> B) (l : list A) :
  (forall x, f x = Ok (g x)) -> mapM f l = Ok (map g l).
Proof.
  intros Hf. induction l as [|x l IH]; [reflexivity|].
  cbn [mapM map]. rewrite Hf. cbn [mbind result_mbind result_bind].
  rewrite IH. reflexivity.
Qed.

Lemma count_level_app level (a b : list issue) :
  count_level level (a ++ b) = (count_level level a + count_level level b)%nat.
Proof. unfold count_level. by rewrite List.filter_app, length_app. Qed.

Lemma count_level_missing (present : string -> bool) (fields : list string) :
  let reported :=
    concat (map (fun field =>
                   if present field then []
                   else [("ERROR", String.append "Missing frontmatter field: " field)])
              fields) in
  count_level "ERROR" reported = length (List.filter (fun f => negb (present f)) fields)
  /\ count_level "WARN" reported = 0%nat.
Proof.
  induction fields as [|f fields [IHe IHw]]; [done|].
  cbn [map concat List.filter]. rewrite !count_level_app.
  destruct (present f); cbn [negb]; [done|].
  split; [|exact IHw]. cbn [length]. rewrite <-IHe. reflexivity.
Qed.

Lemma count_level_warns {A} (f : A -> string) (l : list A) :
  count_level "ERROR" (map (fun x => ("WARN", f x)) l) = 0%nat.
Proof. induction l as [|x l IH]; [done|exact IH]. Qed.

Lemma filter_length_0 {A} (f : A -> bool) (l : list A) :
  length (List.filter f l) = 0%nat <-> forall x, x ∈ l -> f x = false.
Proof.
  induction l as [|x l IH]; simpl.
  - split; [intros _ y Hy; by apply elem_of_nil in Hy|done].
  - destruct (f x) eqn:Hfx; simpl.
    + split; [discriminate|]. intros Hall.
      specialize (Hall x ltac:(left)). congruence.
    + rewrite IH. split.
      * intros Hall y Hy. apply elem_of_cons in Hy as [->|Hy]; [done|by apply Hall].
      * intros Hall y Hy. apply Hall. by right.
Qed.

(** X3. What [validate_skill] reports when the front matter cannot be
    used. If SKILL.md can be read, the skill gets exactly one issue, of
    level ERROR, in each of these cases: the text has no front matter
    ("Missing YAML frontmatter"), or PyYAML cannot be imported or rejects the
    document ("Invalid YAML: ..."). No exception reaches the caller. *)
Theorem validate_skill_bad_front_matter ev skill_dir text :
  skill_md skill_dir = Some (Ok text) ->
  let parts := py_split "---" 2 text in
  (String.prefix "---" text = false \/ (length parts < 3)%nat ->
   ends (validate_skill ev skill_dir)
     (Returned [("ERROR", "Missing YAML frontmatter")]))
  /\ (forall e,
        String.prefix "---" text = true -> (3 <= length parts)%nat ->
        import_yaml ev = Raise e
        \/ (exists safe_load, import_yaml ev = Ok safe_load
              /\ safe_load (default "" (parts !! 1%nat)) = Raise e) ->
        ends (validate_skill ev skill_dir)
          (Returned [("ERROR", String.append "Invalid YAML: "
                                 (py_str ev (PyStr (exn_msg e))))])).
Proof.
  intros Hread parts. subst parts. unfold validate_skill. rewrite Hread. cbn [default].
  split.
  - intros Hnone.
    eapply ends_bind; [apply ends_extcall|]. cbv zeta.
    eapply ends_bind; [intros w; by rewrite parse_frontmatter_none|].
    apply ends_ret.
  - intros e Hprefix Hlen Hfail.
    eapply ends_bind; [apply ends_extcall|]. cbv zeta.
    eapply ends_bind; [by apply parse_frontmatter_decodes|].
    assert (Hfm : (safe_load ← import_yaml ev;
                   safe_load (default "" (py_split "---" 2 text !! 1%nat)))
                  = Raise e).
    { destruct Hfail as [->|(safe_load & -> & Hload)]; [reflexivity|exact Hload]. }
    rewrite Hfm. cbv beta iota.
    eapply ends_bind; [apply ends_eval|]. cbn [existsb eq_str fst String.eqb Ascii.eqb
                                                Bool.eqb orb].
    eapply ends_bind; [apply ends_eval|]. apply ends_ret.
Qed.

(** Witness: a SKILL.md that starts with a heading. *)
Lemma validate_skill_bad_front_matter_witness :
  ends (validate_skill (example_env bare_skill_md)
          {| name := "lasio"; is_dir := true; skill_md := Some (Ok bare_skill_md) |})
    (Returned [("ERROR", "Missing YAML frontmatter")]).
Proof.
  apply (proj1 (validate_skill_bad_front_matter (example_env bare_skill_md)
                  {| name := "lasio"; is_dir := true;
                     skill_md := Some (Ok bare_skill_md) |}
                  bare_skill_md eq_refl)).
  left. reflexivity.
Defined.

Ltac known_levels :=
  repeat first
    [ apply Forall_nil_2
    | apply Forall_cons_2; [first [by left | by right]|] ].

Lemma py_get_dict items key dflt :
  py_get (PyDict items) key dflt
  = Ok (default dflt (snd <$> List.find (fun kv => eq_str key kv.1) items)).
Proof. unfold py_get. by destruct (List.find _ items). Qed.

Lemma missing_fields_run items (fields : list string) :
  mapM (M := result)
    (fun field =>
       present ← py_contains (PyDict items) field;
       mret (if present : bool then []
             else [("ERROR", String.append "Missing frontmatter field: " field)]))
    fields
  = Ok (map (fun field =>
               if has_key items field then []
               else [("ERROR", String.append "Missing frontmatter field: " field)])
          fields).
Proof. by apply mapM_always_ok. Qed.

(** X4. What [validate_skill] reports for a front matter that is a
    mapping. It returns, every issue is of level ERROR or WARN, and the
    ERROR issues are one per required field the mapping lacks, plus one
    when SKILL.md has more than 500 lines: a skill is free of errors
    exactly when all seven fields are present and the file has at most
    500 lines. *)
Theorem validate_skill_errors_of_a_mapping ev skill_dir text safe_load items :
  skill_md skill_dir = Some (Ok text) ->
  String.prefix "---" text = true ->
  (3 <= length (py_split "---" 2 text))%nat ->
  import_yaml ev = Ok safe_load ->
  safe_load (default "" (py_split "---" 2 text !! 1%nat)) = Ok (PyDict items) ->
  has_key items "_error" = false ->
  exists issues,
    ends (validate_skill ev skill_dir) (Returned issues)
    /\ Forall (fun i : issue => i.1 = "ERROR" \/ i.1 = "WARN") issues
    /\ count_level "ERROR" issues
       = (length (missing_fields items)
          + if (MAX_LINES <? line_count text false)%nat then 1 else 0)%nat
    /\ (count_level "ERROR" issues = 0%nat
        <-> (forall field, field ∈ REQUIRED_FRONTMATTER_FIELDS ->
               has_key items field = true)
            /\ (line_count text false <= MAX_LINES)%nat).
Proof.
  intros Hread Hprefix Hlen Himport Hload Hclean.
  eexists. split.
  - unfold validate_skill. rewrite Hread. cbn [default].
    eapply ends_bind; [apply ends_extcall|]. cbv zeta.
    eapply ends_bind; [by apply parse_frontmatter_decodes|].
    rewrite Himport. cbn [mbind result_mbind result_bind]. rewrite Hload.
    cbv beta iota.
    eapply ends_bind; [apply ends_eval|]. fold (has_key items "_error").
    rewrite Hclean.
    eapply ends_bind; [rewrite missing_fields_run; apply ends_eval|].
    eapply ends_bind; [rewrite py_get_dict; apply ends_eval|].
    apply ends_ret.
  - set (reported := concat _).
    set (tags_issue := match default _ _ with PyList _ => _ | _ => _ end).
    set (lines_issue := if (_ <? MIN_LINES)%nat then _ else _).
    set (fence_issues := map _ (untagged_fences text)).
    set (section_issue := if negb _ then _ else _).
    assert (Hcount : count_level "ERROR" reported = length (missing_fields items))
      by apply (count_level_missing (has_key items) REQUIRED_FRONTMATTER_FIELDS).
    assert (Htags : count_level "ERROR" tags_issue = 0%nat
                    /\ Forall (fun i : issue => i.1 = "ERROR" \/ i.1 = "WARN") tags_issue).
    { subst tags_issue.
      destruct (default (PyList []) _) as [| ? | ? | ? | ? | l | ?];
        try (split; [reflexivity|known_levels]).
      destruct (_ <? MIN_TAGS)%nat; (split; [reflexivity|known_levels]). }
    assert (Hlines : count_level "ERROR" lines_issue
                     = (if (MAX_LINES <? line_count text false)%nat then 1 else 0)%nat
                     /\ Forall (fun i : issue => i.1 = "ERROR" \/ i.1 = "WARN") lines_issue).
    { subst lines_issue.
      destruct (_ <? MIN_LINES)%nat eqn:Hmin; destruct (MAX_LINES <? _)%nat eqn:Hmax;
        try (split; [reflexivity|known_levels]).
      apply Nat.ltb_lt in Hmin, Hmax. unfold MIN_LINES, MAX_LINES in *. lia. }
    assert (Hfences : count_level "ERROR" fence_issues = 0%nat
                      /\ Forall (fun i : issue => i.1 = "ERROR" \/ i.1 = "WARN") fence_issues).
    { subst fence_issues. split; [apply count_level_warns|].
      apply Forall_fmap, Forall_forall. intros n _. by right. }
    assert (Hsection : count_level "ERROR" section_issue = 0%nat
                       /\ Forall (fun i : issue => i.1 = "ERROR" \/ i.1 = "WARN") section_issue).
    { subst section_issue. destruct (negb _); (split; [reflexivity|known_levels]). }
    assert (Hreported : Forall (fun i : issue => i.1 = "ERROR" \/ i.1 = "WARN") reported).
    { subst reported. apply Forall_concat, Forall_fmap, Forall_forall. intros f _.
      simpl. destruct (has_key items f); known_levels. }
    destruct Htags as [Ht Ht'], Hlines as [Hl Hl'], Hfences as [Hf Hf'],
      Hsection as [Hs Hs'].
    split; [|split].
    + do 4 (apply Forall_app_2; [|assumption]). assumption.
    + rewrite !count_level_app, Hcount, Ht, Hl, Hf, Hs. lia.
    + rewrite !count_level_app, Hcount, Ht, Hl, Hf, Hs.
      unfold missing_fields.
      pose proof (filter_length_0 (fun field => negb (has_key items field))
                    REQUIRED_FRONTMATTER_FIELDS) as Hnone.
      destruct (MAX_LINES <? line_count text false)%nat eqn:Hmax.
      * apply Nat.ltb_lt in Hmax. split; [lia|]. intros [_ Hle]. lia.
      * apply Nat.ltb_ge in Hmax. rewrite !Nat.add_0_r, Hnone.
        split.
        -- intros Hall. split; [|exact Hmax]. intros field Hfield.
           apply negb_false_iff. by apply Hall.
        -- intros [Hall _] field Hfield. apply negb_false_iff. by apply Hall.
Qed.

(** Witness: a SKILL.md whose front matter gives the name only; six
    fields are missing. *)
Lemma validate_skill_errors_witness :
  exists issues,
    ends (validate_skill partial_env
            {| name := "lasio"; is_dir := true; skill_md := Some (Ok partial_skill_md) |})
      (Returned issues)
    /\ count_level "ERROR" issues = 6%nat.
Proof.
  destruct (validate_skill_errors_of_a_mapping partial_env
              {| name := "lasio"; is_dir := true; skill_md := Some (Ok partial_skill_md) |}
              partial_skill_md partial_yaml [(PyStr "name", PyStr "lasio")])
    as (issues & Hrun & _ & Hcount & _).
  - reflexivity.
  - reflexivity.
  - vm_compute. lia.
  - reflexivity.
  - vm_compute. reflexivity.
  - reflexivity.
  - exists issues. split; [exact Hrun|]. rewrite Hcount. vm_compute. reflexivity.
Defined.

(** *** validate_marketplace *)

Lemma ends_try_except_returned {A} (body : script A) classes handler a :
  ends body (Returned a) -> ends (try_except body classes handler) (Returned a).
Proof.
  intros Hbody w. specialize (Hbody w). unfold try_except.
  destruct (body w) as [[a'|e|c] w']; simpl in *; congruence.
Qed.

Lemma ends_try_except_handled {A} (body : script A) classes handler e o :
  ends body (Raised e) -> existsb (isinstance e) classes = true ->
  ends (handler e) o -> ends (try_except body classes handler) o.
Proof.
  intros Hbody Hcls Hh w. specialize (Hbody w). unfold try_except.
  destruct (body w) as [[a'|e'|c] w']; simpl in *; try discriminate.
  injection Hbody as ->. rewrite Hcls. apply Hh.
Qed.

Lemma ends_try_except_unhandled {A} (body : script A) classes handler e :
  ends body (Raised e) -> existsb (isinstance e) classes = false ->
  ends (try_except body classes handler) (Raised e).
Proof.
  intros Hbody Hcls w. specialize (Hbody w). unfold try_except.
  destruct (body w) as [[a'|e'|c] w']; simpl in *; try discriminate.
  injection Hbody as ->. by rewrite Hcls.
Qed.

Lemma ends_extcall_raise {A} callee meth e :
  ends (extcall callee meth (Raise e : result A)) (Raised e).
Proof. intros w. reflexivity. Qed.

(** X5. A marketplace file that cannot be used. A missing file and a
    file the JSON decoder rejects each give exactly one ERROR issue and no
    exception; an exception of another class raised while the file is read
    or decoded is not handled and reaches the caller. *)
Theorem validate_marketplace_unusable_file ev skill_names :
  (marketplace_json ev = None ->
   forall w, validate_marketplace ev skill_names w
             = (Returned [("ERROR", "Missing .claude-plugin/marketplace.json")], w))
  /\ (forall text e,
        marketplace_json ev = Some (Ok text) -> json_loads ev text = Raise e ->
        ends (validate_marketplace ev skill_names)
          (if isinstance e "JSONDecodeError"
           then Returned [("ERROR", String.append "Invalid JSON: " (exn_msg e))]
           else Raised e))
  /\ (forall e,
        marketplace_json ev = Some (Raise e) -> isinstance e "JSONDecodeError" = false ->
        ends (validate_marketplace ev skill_names) (Raised e)).
Proof.
  unfold validate_marketplace. split; [|split].
  - intros ->. reflexivity.
  - intros text e -> Hloads.
    assert (Hbody : ends (text ← extcall "pathlib.Path" "read_text" (Ok text);
                          data ← extcall "json" "loads" (json_loads ev text);
                          mret (inl data : pyval + list issue)) (Raised e)).
    { eapply ends_bind; [apply ends_extcall|]. apply ends_bind_raised.
      rewrite Hloads. apply ends_extcall_raise. }
    destruct (isinstance e "JSONDecodeError") eqn:Hcls.
    + eapply ends_bind.
      { eapply ends_try_except_handled; [exact Hbody| |apply ends_ret].
        simpl. by rewrite Hcls. }
      apply ends_ret.
    + apply ends_bind_raised.
      eapply ends_try_except_unhandled; [exact Hbody|].
      simpl. by rewrite Hcls.
  - intros e -> Hcls. apply ends_bind_raised.
    eapply ends_try_except_unhandled.
    + apply ends_bind_raised, ends_extcall_raise.
    + simpl. by rewrite Hcls.
Qed.

Lemma plugin_names_run (plugins : list pyval) (names : list string) :
  Forall2 plugin_named plugins names ->
  mapM (M := result) (fun p => n ← py_getitem p "name"; py_hash_check n) plugins
  = Ok (PyStr <$> names).
Proof.
  induction 1 as [|p n plugins names Hp _ IH]; [reflexivity|].
  cbn [mapM]. unfold plugin_named in Hp. rewrite Hp.
  cbn [mbind result_mbind result_bind py_hash_check]. rewrite IH. reflexivity.
Qed.

Lemma elem_of_py_set_names (names : list string) (v : pyval) :
  v ∈ py_set (PyStr <$> names) <-> exists n, v = PyStr n /\ n ∈ names.
Proof.
  induction names as [|n names IH]; cbn [fmap list_fmap py_set].
  - split; [intros H; by apply elem_of_nil in H|].
    intros (m & _ & H). by apply elem_of_nil in H.
  - rewrite elem_of_cons, list_elem_of_In, filter_In, <-list_elem_of_In, IH.
    split.
    + intros [->|[(m & -> & Hm) _]].
      * exists n. split; [done|left].
      * exists m. split; [done|by right].
    + intros (m & -> & Hm). destruct (decide (m = n)) as [->|Hne]; [by left|].
      right. apply elem_of_cons in Hm as [->|Hm]; [done|].
      split; [by exists m|]. simpl. apply negb_true_iff, String.eqb_neq. congruence.
Qed.

Lemma existsb_eq_str (s : string) (l : list pyval) :
  existsb (eq_str s) l = true <-> PyStr s ∈ l.
Proof.
  rewrite existsb_exists. split.
  - intros (v & Hv & Heq). apply list_elem_of_In in Hv.
    destruct v; try discriminate. simpl in Heq. apply String.eqb_eq in Heq. by subst.
  - intros Hin. exists (PyStr s). split; [by apply list_elem_of_In|].
    simpl. apply String.eqb_refl.
Qed.

Lemma existsb_skill_named (skills : list string) (n : string) :
  existsb (fun skill => eq_str skill (PyStr n)) skills = true <-> n ∈ skills.
Proof.
  rewrite existsb_exists. split.
  - intros (s & Hs & Heq). apply list_elem_of_In in Hs.
    simpl in Heq. apply String.eqb_eq in Heq. by subst.
  - intros Hin. exists n. split; [by apply list_elem_of_In|].
    simpl. apply String.eqb_refl.
Qed.

Lemma count_level_tagged {A} level tag (f : A -> string) (l : list A) :
  count_level level (map (fun x => (tag, f x)) l)
  = if String.eqb tag level then length l else 0%nat.
Proof.
  unfold count_level, is_level.
  induction l as [|x l IH]; simpl; [by destruct (String.eqb tag level)|].
  destruct (String.eqb tag level); simpl; by rewrite IH.
Qed.

Lemma filter_ext_length {A} (f g : A -> bool) (l : list A) :
  (forall x, f x = g x) -> length (List.filter f l) = length (List.filter g l).
Proof. intros Hfg. by rewrite (List.filter_ext f g Hfg). Qed.

(** X6. The cross-check of skills against marketplace.json. When the file
    decodes to a mapping whose "plugins" is a list of entries named
    [names], [validate_marketplace] returns; its ERROR issues are one per
    skill directory that is not among the plugin names, so there is none
    exactly when every skill is listed; and it gives no WARN issue exactly
    when every plugin named has a skill directory. *)
Theorem validate_marketplace_cross_check ev skill_names text data plugins names :
  marketplace_json ev = Some (Ok text) ->
  json_loads ev text = Ok data ->
  py_get data "plugins" (PyList []) = Ok (PyList plugins) ->
  Forall2 plugin_named plugins names ->
  exists issues,
    ends (validate_marketplace ev skill_names) (Returned issues)
    /\ count_level "ERROR" issues
       = length (List.filter (fun skill => bool_decide (skill ∉ names)) skill_names)
    /\ (count_level "ERROR" issues = 0%nat
        <-> forall skill, skill ∈ skill_names -> skill ∈ names)
    /\ (count_level "WARN" issues = 0%nat
        <-> forall n, n ∈ names -> n ∈ skill_names).
Proof.
  intros Hfile Hloads Hplugins Hnames.
  eexists. split.
  - unfold validate_marketplace. rewrite Hfile.
    eapply ends_bind.
    { apply ends_try_except_returned.
      eapply ends_bind; [apply ends_extcall|].
      eapply ends_bind; [rewrite Hloads; apply ends_extcall|]. apply ends_ret. }
    cbv beta iota.
    eapply ends_bind; [rewrite Hplugins; apply ends_eval|].
    eapply ends_bind; [apply ends_eval|].
    eapply ends_bind; [rewrite (plugin_names_run plugins names Hnames); apply ends_eval|].
    apply ends_ret.
  - rewrite !count_level_app, !count_level_tagged. cbn [String.eqb Ascii.eqb Bool.eqb].
    rewrite Nat.add_0_r. cbn [Nat.add].
    assert (Hlisted : forall skill,
              negb (existsb (eq_str skill) (py_set (PyStr <$> names)))
              = bool_decide (skill ∉ names)).
    { intros skill. apply eq_true_iff_eq.
      rewrite negb_true_iff, bool_decide_eq_true, <-not_true_iff_false,
        existsb_eq_str, elem_of_py_set_names.
      split; intros Hn Hin; apply Hn.
      - by exists skill.
      - by destruct Hin as (n & [= ->] & Hin). }
    split; [by apply filter_ext_length|]. split.
    + rewrite (filter_ext_length _ _ skill_names Hlisted), filter_length_0.
      split.
      * intros Hall skill Hskill. specialize (Hall skill Hskill).
        apply bool_decide_eq_false in Hall. by apply dec_stable.
      * intros Hall skill Hskill. apply bool_decide_eq_false. intros Hn.
        by apply Hn, Hall.
    + rewrite filter_length_0. split.
      * intros Hall n Hn. apply existsb_skill_named.
        apply negb_false_iff, Hall, elem_of_py_set_names. by exists n.
      * intros Hall v Hv. apply elem_of_py_set_names in Hv as (n & -> & Hn).
        apply negb_false_iff, existsb_skill_named. by apply Hall.
Qed.

(** Witness: the marketplace file of the second repository lists obspy
    and not lasio: one ERROR for the skill, one WARN for the plugin. *)
Lemma validate_marketplace_cross_check_witness :
  exists issues,
    ends (validate_marketplace partial_env ["lasio"]) (Returned issues)
    /\ count_level "ERROR" issues = 1%nat.
Proof.
  destruct (validate_marketplace_cross_check partial_env ["lasio"]
              "{plugins: [{name: obspy}]}"
              (PyDict [(PyStr "plugins", PyList [PyDict [(PyStr "name", PyStr "obspy")]])])
              [PyDict [(PyStr "name", PyStr "obspy")]] ["obspy"])
    as (issues & Hrun & Hcount & _).
  - reflexivity.
  - reflexivity.
  - reflexivity.
  - repeat constructor.
  - exists issues. split; [exact Hrun|]. rewrite Hcount. reflexivity.
Defined.

End ValidateSkillsProofs.

Module BatchProcessMainProofs.
Import Host HostFacts BatchProcessMain.

Lemma bind_congr {A B} (m : script A) (k k' : A -> script B) w :
  (forall a w', k a w' = k' a w') -> (m ≫= k) w = (m ≫= k') w.
Proof.
  intros Hk. unfold mbind, script_bind.
  destruct (m w) as [[a|e|c] w']; [apply Hk|done..].
Qed.

Lemma ends_bind_exited {A B} (m : script A) (k : A -> script B) code :
  ends m (Exited code) -> ends (m ≫= k) (Exited code).
Proof.
  intros Hm w. specialize (Hm w). unfold mbind, script_bind.
  destruct (m w) as [[a|e|c] w']; simpl in *; congruence.
Qed.

(** X16. The filter check of [main]. [main] calls [batch_process] only
    with options in which the chosen filter has the frequencies the check
    asks for (both corners for a bandpass; --freq or the matching corner
    for a highpass or lowpass): what [batch_process] would do with other
    options does not matter to [main]. When they are missing, the run ends
    in argparse's error exit, status 2, and [batch_process] is not
    called. The check does not make the corner usable: with a highpass,
    the corner [freq or freqmin] that [process_file] hands to
    [Stream.filter] is still None exactly when --freq 0 was given without
    --freqmin. *)
Theorem main_checks_filter_frequencies parse_args argv :
  (forall batch_process batch_process' w,
     (forall i out n o,
        filter_frequencies_given o = true ->
        batch_process i out n o = batch_process' i out n o) ->
     main parse_args batch_process argv w = main parse_args batch_process' argv w)
  /\ (forall batch_process args w,
        parse_args argv = inr args ->
        filter_frequencies_given (keyword_arguments args) = false ->
        (main parse_args batch_process argv w).1 = Exited 2)
  /\ (forall args,
        filter_frequencies_given (keyword_arguments args) = true ->
        filter args = Some "highpass" ->
        BatchProcess.py_or (freq args) (freqmin args) = None
        <-> freqmin args = None /\ exists q, freq args = Some q /\ (q == 0)%Q).
Proof.
  split; [|split].
  - intros batch batch' w Hbatch. unfold main.
    do 3 (apply bind_congr; intros ? ?).
    apply bind_congr; intros args w1. unfold parser_error.
    destruct (bool_decide (filter args = Some "bandpass")
              && (is_none (freqmin args) || is_none (freqmax args))) eqn:Hband;
      [by rewrite !bind_extcall_or_exit|rewrite !bind_ret].
    destruct (bool_decide (filter args = Some "highpass")
              && is_none (freqmin args) && is_none (freq args)) eqn:Hhigh;
      [by rewrite !bind_extcall_or_exit|rewrite !bind_ret].
    destruct (bool_decide (filter args = Some "lowpass")
              && is_none (freqmax args) && is_none (freq args)) eqn:Hlow;
      [by rewrite !bind_extcall_or_exit|rewrite !bind_ret].
    rewrite Hbatch; [reflexivity|].
    unfold filter_frequencies_given, keyword_arguments. simpl.
    destruct (bool_decide (filter args = Some "bandpass")),
      (bool_decide (filter args = Some "highpass")),
      (bool_decide (filter args = Some "lowpass")),
      (freqmin args), (freqmax args), (freq args); simpl in *; congruence.
  - intros batch args w Hargs Hmissing.
    assert (Hends : ends (main parse_args batch argv) (Exited 2)); [|apply Hends].
    unfold main.
    eapply ends_bind; [apply ends_extcall|].
    eapply ends_bind; [apply ends_for_each; intros ?; apply ends_extcall|].
    eapply ends_bind.
    { apply ends_for_each. intros group.
      eapply ends_bind; [apply ends_extcall|].
      apply ends_for_each. intros ?. apply ends_extcall. }
    eapply ends_bind; [rewrite Hargs; intros w1; reflexivity|].
    unfold filter_frequencies_given, keyword_arguments in Hmissing. simpl in Hmissing.
    unfold parser_error.
    destruct (bool_decide (filter args = Some "bandpass")) eqn:Hband.
    { destruct (freqmin args), (freqmax args); try discriminate Hmissing;
        simpl; apply ends_bind_exited; intros w1; reflexivity. }
    simpl. eapply ends_bind; [apply ends_ret|].
    destruct (bool_decide (filter args = Some "highpass")) eqn:Hhigh.
    { destruct (freqmin args), (freq args); try discriminate Hmissing;
        simpl; apply ends_bind_exited; intros w1; reflexivity. }
    simpl. eapply ends_bind; [apply ends_ret|].
    destruct (bool_decide (filter args = Some "lowpass")) eqn:Hlow; [|discriminate].
    destruct (freqmax args), (freq args); try discriminate Hmissing;
      simpl; apply ends_bind_exited; intros w1; reflexivity.
  - intros args Hgiven Hhigh.
    unfold filter_frequencies_given, keyword_arguments in Hgiven. simpl in Hgiven.
    rewrite Hhigh in Hgiven. simpl in Hgiven.
    unfold BatchProcess.py_or, BatchProcess.truthy_float.
    destruct (freq args) as [q|], (freqmin args) as [m|]; simpl in *;
      try discriminate Hgiven.
    + destruct (Qeq_bool q 0) eqn:Hq; simpl.
      * split; [discriminate|]. by intros [[=] _].
      * split; [discriminate|]. by intros [[=] _].
    + destruct (Qeq_bool q 0) eqn:Hq; simpl.
      * split; [intros _|done]. split; [done|]. exists q. split; [done|].
        by apply Qeq_bool_eq.
      * split; [discriminate|]. intros [_ (q' & [= <-] & Hzero)].
        apply Qeq_bool_neq in Hq. contradiction.
    + split; [discriminate|]. by intros [[=] _].
Qed.

(** Witness: [--filter highpass --freq 0] passes the check, and the
    corner handed on is None. *)
Lemma main_checks_filter_frequencies_witness :
  filter_frequencies_given (keyword_arguments (highpass_args 0)) = true
  /\ BatchProcess.py_or (freq (highpass_args 0)) (freqmin (highpass_args 0)) = None.
Proof.
  split; [reflexivity|].
  apply (proj2 (proj2 (main_checks_filter_frequencies (fun _ => inl 2%Z) []))
           (highpass_args 0) eq_refl eq_refl).
  split; [reflexivity|]. exists 0%Q. split; reflexivity.
Defined.

End BatchProcessMainProofs.

Module MergeCurvesProofs.
Import Host HostFacts MergeCurves.

(** *** Nothing is written before everything else succeeded *)

Lemma prepares_ret {A} (a : A) : prepares (mret a : script A).
Proof.
  intros w. split; [|discriminate]. exists []. by rewrite app_nil_r.
Qed.

Lemma prepares_eval {A} (r : result A) : prepares (eval r).
Proof.
  intros w. unfold eval.
  destruct r; (split; [exists []; by rewrite app_nil_r|discriminate]).
Qed.

Lemma prepares_extcall {A} callee meth (answer : result A) :
  not_write {| callee := callee; method := meth |} = true ->
  prepares (extcall callee meth answer).
Proof.
  intros Hmeth w. unfold extcall.
  destruct answer; (split; [|discriminate]); eexists; (split; [reflexivity|]);
    simpl; by rewrite Hmeth.
Qed.

Lemma prepares_bind {A B} (m : script A) (k : A -> script B) :
  prepares m -> (forall a, prepares (k a)) -> prepares (m ≫= k).
Proof.
  intros Hm Hk w. destruct (Hm w) as [(cs & Hcs & Hall) Hexit].
  unfold mbind, script_bind.
  destruct (m w) as [[a|e|c] w']; simpl in *.
  - destruct (Hk a w') as [(cs' & Hcs' & Hall') Hexit'].
    split; [|exact Hexit'].
    exists (cs ++ cs'). rewrite Hcs', Hcs, app_assoc. split; [done|].
    rewrite forallb_app. by rewrite Hall, Hall'.
  - split; [by exists cs|discriminate].
  - by destruct (Hexit c).
Qed.

Ltac prepares_tac :=
  repeat first
    [ apply prepares_ret
    | apply prepares_eval
    | apply prepares_extcall; reflexivity
    | apply prepares_bind; [|intros ?]
    | match goal with
      | |- prepares (if ?b then _ else _) => destruct b
      | |- prepares (match ?x with [] => _ | _ :: _ => _ end) => destruct x
      | |- prepares (let '(_, _) := ?x in _) => destruct x
      | |- prepares (match ?x with (_, _) => _ end) => destruct x
      end ].

Lemma read_files_prepares pk las_paths dfs well_info info :
  prepares (read_files pk las_paths dfs well_info info).
Proof.
  revert dfs well_info info.
  induction las_paths as [|path rest IH]; intros dfs well_info info;
    cbn [read_files]; [apply prepares_ret|].
  do 4 (apply prepares_bind; [prepares_tac|intros ?]). apply IH.
Qed.

Lemma merge_frames_prepares pk depth_col dfs merged :
  prepares (merge_frames pk depth_col dfs merged).
Proof.
  revert merged. induction dfs as [|df rest IH]; intros merged;
    cbn [merge_frames]; [apply prepares_ret|].
  do 2 (apply prepares_bind; [prepares_tac|intros ?]). apply IH.
Qed.

Lemma resample_columns_prepares pk depth_col merged new_depth columns resampled :
  prepares (resample_columns pk depth_col merged new_depth columns resampled).
Proof.
  revert resampled. induction columns as [|col rest IH]; intros resampled;
    cbn [resample_columns]; [apply prepares_ret|].
  apply prepares_bind; [prepares_tac|intros ?]. apply IH.
Qed.

Lemma copy_well_info_prepares pk well_info keys output_las :
  prepares (copy_well_info pk well_info keys output_las).
Proof.
  revert output_las. induction keys as [|key rest IH]; intros output_las;
    cbn [copy_well_info]; [apply prepares_ret|].
  do 2 (apply prepares_bind; [prepares_tac|intros ?]). apply IH.
Qed.

Lemma add_curves_prepares pk info merged columns output_las :
  prepares (add_curves pk info merged columns output_las).
Proof.
  revert output_las. induction columns as [|col rest IH]; intros output_las;
    cbn [add_curves]; [apply prepares_ret|].
  cbv zeta. do 2 (apply prepares_bind; [prepares_tac|intros ?]). apply IH.
Qed.

Lemma delivers_bind {A} pk out (m : script A) (k : A -> script string) :
  prepares m -> (forall a, delivers pk out (k a)) -> delivers pk out (m ≫= k).
Proof.
  intros Hm Hk w. destruct (Hm w) as [(cs & Hcs & Hall) Hexit].
  unfold mbind, script_bind.
  destruct (m w) as [[a|e|c] w']; simpl in *.
  - destruct (Hk a w') as (cs' & Hcs' & Hend).
    exists (cs ++ cs'). rewrite Hcs', Hcs, app_assoc. split; [done|].
    destruct (k a w').1 as [p|e|c].
    + destruct Hend as (-> & cs'' & -> & Hall''). split; [done|].
      exists (cs ++ cs''). rewrite app_assoc. split; [done|].
      rewrite forallb_app. by rewrite Hall, Hall''.
    + destruct Hend as [Hall'|Hwrite]; [left|by right].
      rewrite forallb_app. by rewrite Hall, Hall'.
    + done.
  - exists cs. split; [done|]. by left.
  - by destruct (Hexit c).
Qed.

Lemma delivers_write pk out (output_las : LASFile pk) :
  delivers pk out
    (_ ← extcall "lasio.LASFile" "write" (las_write pk output_las out); mret out).
Proof.
  intros w. rewrite bind_extcall. cbn zeta.
  destruct (las_write pk output_las out) as [[]|e] eqn:Hwrite.
  - exists [write_call]. split; [reflexivity|]. split; [reflexivity|].
    by exists [].
  - exists [write_call]. split; [reflexivity|]. right. by exists output_las.
Qed.

Lemma merge_las_files_delivers pk las_paths output_path resample_step depth_curve :
  delivers pk output_path
    (merge_las_files pk las_paths output_path resample_step depth_curve).
Proof.
  unfold merge_las_files.
  apply delivers_bind; [apply read_files_prepares|intros [[dfs well_info] info]].
  do 3 (apply delivers_bind; [prepares_tac|intros ?]).
  apply delivers_bind; [apply merge_frames_prepares|intros ?].
  do 2 (apply delivers_bind; [prepares_tac|intros ?]).
  apply delivers_bind.
  { destruct (truthy_float resample_step); [|apply prepares_ret].
    do 6 (apply prepares_bind; [prepares_tac|intros ?]).
    apply resample_columns_prepares. }
  intros ?.
  apply delivers_bind; [prepares_tac|intros ?].
  apply delivers_bind; [destruct well_info; apply prepares_eval|intros ?].
  apply delivers_bind; [prepares_tac|intros ?].
  apply delivers_bind; [apply copy_well_info_prepares|intros ?].
  do 7 (apply delivers_bind; [prepares_tac|intros ?]).
  apply delivers_bind; [apply add_curves_prepares|intros ?].
  apply delivers_write.
Qed.

Lemma count_write_unlogged (cs : list call) :
  forallb not_write cs = true -> List.filter (is_method "write") cs = [].
Proof.
  induction cs as [|c cs IH]; [done|]. cbn [forallb List.filter].
  intros [Hc Hcs]%andb_prop. apply negb_true_iff in Hc. rewrite Hc. by apply IH.
Qed.

(** X20. [merge_las_files] writes last, and once. It never ends the
    process. When it returns, it returns [output_path] and it has called
    [write] exactly once, as its final call. When it raises, either no
    [write] call was made at all, so nothing was written, or the exception
    is one that [write] itself raised. *)
Theorem merge_las_files_writes_last pk las_paths output_path resample_step
    depth_curve w :
  let r := merge_las_files pk las_paths output_path resample_step depth_curve w in
  (forall code, r.1 <> Exited code)
  /\ (forall p, r.1 = Returned p ->
        p = output_path
        /\ count_method "write" r.2 = S (count_method "write" w)
        /\ last (calls r.2) = Some write_call)
  /\ (forall e, r.1 = Raised e ->
        count_method "write" r.2 = count_method "write" w
        \/ exists las, las_write pk las output_path = Raise e).
Proof.
  intros r. subst r.
  destruct (merge_las_files_delivers pk las_paths output_path resample_step
              depth_curve w) as (cs & Hcs & Hend).
  unfold count_method. rewrite Hcs.
  destruct (merge_las_files pk las_paths output_path resample_step depth_curve w).1
    as [p|e|c].
  - destruct Hend as (-> & cs' & -> & Hall).
    split; [discriminate|]. split; [|discriminate].
    intros p [= <-]. split; [done|]. split.
    + rewrite !List.filter_app, !length_app, (count_write_unlogged cs' Hall).
      simpl. lia.
    + by rewrite app_assoc, last_snoc.
  - split; [discriminate|]. split; [discriminate|].
    intros e' [= <-]. destruct Hend as [Hall|Hwrite]; [left|by right].
    rewrite List.filter_app, length_app, (count_write_unlogged cs Hall).
    simpl. lia.
  - done.
Qed.


(** *** Inputs that cannot be merged *)

Lemma read_files_raises pk las_paths path e :
  path ∈ las_paths -> lasio_read pk path = Raise e ->
  forall dfs well_info info w,
    exists e', (read_files pk las_paths dfs well_info info w).1 = Raised e'.
Proof.
  intros Hin Hread. induction las_paths as [|p rest IH]; intros dfs well_info info w.
  { by apply elem_of_nil in Hin. }
  cbn [read_files]. rewrite bind_extcall. cbn zeta.
  destruct (lasio_read pk p) as [las|e0] eqn:Hp; [|by eexists].
  assert (Hrest : path ∈ rest).
  { apply elem_of_cons in Hin as [->|Hin]; [congruence|exact Hin]. }
  do 3 (rewrite bind_extcall; cbn zeta;
        match goal with
        | |- context [match ?r with Ok _ => _ | Raise _ => _ end] =>
            destruct r; [|by eexists]
        end).
  by apply IH.
Qed.

Lemma bind_raised_outcome {A B} (m : script A) (k : A -> script B) w e :
  (m w).1 = Raised e ->
  ((m ≫= k) w).1 = Raised e /\ ((m ≫= k) w).2 = (m w).2.
Proof.
  unfold mbind, script_bind. destruct (m w) as [[a|e'|c] w']; simpl; try discriminate.
  by intros [= ->].
Qed.

(** X21. Inputs that cannot be merged. When [lasio.read] raises on one of
    the paths, [merge_las_files] raises and makes no [write] call: no
    output file is created, not even from the files read before. On an
    empty list of paths it raises IndexError without calling anything. *)
Theorem merge_las_files_unreadable_input pk las_paths output_path resample_step
    depth_curve w :
  let r := merge_las_files pk las_paths output_path resample_step depth_curve w in
  (forall path e,
     path ∈ las_paths -> lasio_read pk path = Raise e ->
     (exists e', r.1 = Raised e')
     /\ count_method "write" r.2 = count_method "write" w)
  /\ (las_paths = [] -> r = (Raised (Exc "IndexError" "index out of range"), w)).
Proof.
  intros r. subst r. split.
  - intros path e Hin Hread.
    destruct (read_files_raises pk las_paths path e Hin Hread [] None ∅ w) as [e' He'].
    unfold merge_las_files.
    match goal with
    | |- context [(read_files pk las_paths [] None ∅ ≫= ?k) w] =>
        destruct (bind_raised_outcome (read_files pk las_paths [] None ∅) k w e' He')
          as [Hout Hworld]
    end.
    split; [exists e'; exact Hout|].
    rewrite Hworld.
    destruct (read_files_prepares pk las_paths [] None ∅ w) as [(cs & Hcs & Hall) _].
    unfold count_method. rewrite Hcs, List.filter_app, length_app,
      (count_write_unlogged cs Hall). simpl. lia.
  - intros ->. destruct depth_curve; reflexivity.
Qed.


(** Witness: the second of two files cannot be read. *)
Lemma merge_las_files_unreadable_witness :
  let r := merge_las_files example_packages ["a.las"; "missing.las"] "merged.las"
             None None empty_world in
  (exists e', r.1 = Raised e') /\ count_method "write" r.2 = 0%nat.
Proof.
  apply (proj1 (merge_las_files_unreadable_input example_packages
                  ["a.las"; "missing.las"] "merged.las" None None empty_world)
           "missing.las" (Exc "FileNotFoundError" "No such file or directory")).
  - set_solver.
  - reflexivity.
Defined.

(** *** main *)

Lemma expand_files_plain pk (given files : list string) w :
  (forall f, f ∈ given -> ValidateSkills.contains "*" f = false) ->
  expand_files pk given files w
  = (Returned (files ++ List.filter (path_exists pk) given),
     {| calls := calls w ++ map (fun _ => exists_call) given; stdout := stdout w |}).
Proof.
  revert files w. induction given as [|f rest IH]; intros files w Hplain.
  - simpl. rewrite !app_nil_r. by destruct w.
  - cbn [expand_files]. rewrite (Hplain f) by left.
    rewrite bind_assoc, bind_extcall. cbn zeta. rewrite bind_ret.
    rewrite IH by (intros g Hg; apply Hplain; by right).
    cbn [calls stdout List.filter map]. rewrite <-app_assoc. cbn [app].
    destruct (path_exists pk f); [by rewrite <-app_assoc|done].
Qed.



(** *** Curve metadata and the depth column *)

(** X23. Curve metadata comes from the first file that has the curve.
    After the curves of a file are stored, the entry of a mnemonic is the
    one it had before if it had one, and otherwise the unit and the
    description of the first curve of the file with that mnemonic; so over
    several files read in turn the first file that has a curve decides,
    and later files never change an entry. *)
Theorem store_curves_keeps_first (curves later : list CurveItem) (info : curve_info)
    (m : string) :
  let first_of (cs : list CurveItem) :=
    (fun c => (curve_unit c, descr c))
      <$> List.find (fun c => String.eqb (mnemonic c) m) cs in
  store_curves curves info !! m
  = match info !! m with
    | Some entry => Some entry
    | None => first_of curves
    end
  /\ store_curves later (store_curves curves info) = store_curves (curves ++ later) info
  /\ (forall entry, store_curves curves info !! m = Some entry ->
        store_curves later (store_curves curves info) !! m = Some entry).
Proof.
  intros first_of.
  assert (Hlookup : forall cs inf,
            store_curves cs inf !! m
            = match inf !! m with
              | Some entry => Some entry
              | None => first_of cs
              end).
  { induction cs as [|c cs IH]; intros inf; cbn [store_curves].
    - unfold first_of. simpl. by destruct (inf !! m).
    - rewrite IH. unfold first_of. cbn [List.find].
      destruct (String.eqb (mnemonic c) m) eqn:Hc.
      + apply String.eqb_eq in Hc. subst m.
        destruct (inf !! mnemonic c) as [entry|] eqn:Hentry; [by rewrite Hentry|].
        by rewrite lookup_insert_eq.
      + apply String.eqb_neq in Hc.
        destruct (inf !! mnemonic c); [done|]. by rewrite lookup_insert_ne. }
  split; [apply Hlookup|]. split.
  - revert info. induction curves as [|c cs IH]; intros info; [done|].
    cbn [store_curves app]. apply IH.
  - intros entry Hentry. by rewrite Hlookup, Hentry.
Qed.

(** X24. The depth column. A depth curve named by the caller is used as
    it is, whether or not the first file has such a column. Otherwise, for
    a first file with at least one column, the column found is always one
    of its columns: DEPT if present, else DEPTH, else MD, else TVD, else
    its first column. With no file, or a first file without columns, the
    search raises IndexError. *)
Theorem find_depth_col_choice pk (dfs : list (DataFrame pk)) :
  (forall name, find_depth_col pk dfs (Some name) = Ok name)
  /\ (forall df rest col cols,
        dfs = df :: rest -> df_columns pk df = col :: cols ->
        exists depth_col,
          find_depth_col pk dfs None = Ok depth_col
          /\ depth_col ∈ df_columns pk df
          /\ depth_col
             = default col
                 (List.find (fun name => bool_decide (name ∈ df_columns pk df))
                    ["DEPT"; "DEPTH"; "MD"; "TVD"]))
  /\ (dfs = [] \/ (exists df rest, dfs = df :: rest /\ df_columns pk df = []) ->
      find_depth_col pk dfs None = Raise (Exc "IndexError" "index out of range")).
Proof.
  split; [done|]. split.
  - intros df rest col cols -> Hcols.
    unfold find_depth_col, find_depth_name. cbn [py_index lookup list_lookup].
    cbn [mbind result_mbind result_bind List.find]. rewrite Hcols.
    destruct (bool_decide ("DEPT" ∈ col :: cols)) eqn:Hdept;
      [|destruct (bool_decide ("DEPTH" ∈ col :: cols)) eqn:Hdepth;
        [|destruct (bool_decide ("MD" ∈ col :: cols)) eqn:Hmd;
          [|destruct (bool_decide ("TVD" ∈ col :: cols)) eqn:Htvd]]];
      cbn; (eexists; split; [reflexivity|]; split; [|reflexivity]);
      try (by eapply bool_decide_eq_true_1).
    left.
  - intros [->|(df & rest & -> & Hcols)]; [reflexivity|].
    unfold find_depth_col, find_depth_name. cbn [py_index lookup list_lookup].
    cbn [mbind result_mbind result_bind].
    rewrite Hcols. reflexivity.
Qed.

End MergeCurvesProofs.

(** ** The command line of the scripts *)

Module CommandLineProofs.
Import Host HostFacts.

(** *** merge_curves.py calls lasio, pandas, numpy and pathlib only *)

Lemma read_files_calls pk las_paths dfs well_info info :
  only_calls not_argparse (MergeCurves.read_files pk las_paths dfs well_info info).
Proof.
  revert dfs well_info info.
  induction las_paths as [|path rest IH]; intros dfs well_info info;
    cbn [MergeCurves.read_files]; [apply only_calls_ret|].
  do 4 (apply only_calls_bind; [only_calls_tac|intros ?]). apply IH.
Qed.

Lemma merge_frames_calls pk depth_col dfs merged :
  only_calls not_argparse (MergeCurves.merge_frames pk depth_col dfs merged).
Proof.
  revert merged. induction dfs as [|df rest IH]; intros merged;
    cbn [MergeCurves.merge_frames]; [apply only_calls_ret|].
  apply only_calls_bind; [only_calls_tac|intros ?].
  apply only_calls_bind; [only_calls_tac|intros ?]. apply IH.
Qed.

Lemma resample_columns_calls pk depth_col merged new_depth columns resampled :
  only_calls not_argparse
    (MergeCurves.resample_columns pk depth_col merged new_depth columns resampled).
Proof.
  revert resampled. induction columns as [|col rest IH]; intros resampled;
    cbn [MergeCurves.resample_columns]; [apply only_calls_ret|].
  apply only_calls_bind; [|intros ?; apply IH].
  destruct (negb (String.eqb col depth_col)); only_calls_tac.
Qed.

Lemma copy_well_info_calls pk well_info keys output_las :
  only_calls not_argparse (MergeCurves.copy_well_info pk well_info keys output_las).
Proof.
  revert output_las. induction keys as [|key rest IH]; intros output_las;
    cbn [MergeCurves.copy_well_info]; [apply only_calls_ret|].
  do 2 (apply only_calls_bind; [only_calls_tac|intros ?]). apply IH.
Qed.

Lemma add_curves_calls pk info merged columns output_las :
  only_calls not_argparse (MergeCurves.add_curves pk info merged columns output_las).
Proof.
  revert output_las. induction columns as [|col rest IH]; intros output_las;
    cbn [MergeCurves.add_curves]; [apply only_calls_ret|].
  do 2 (apply only_calls_bind; [only_calls_tac|intros ?]). apply IH.
Qed.

Lemma merge_las_files_calls pk las_paths output_path resample_step depth_curve :
  only_calls not_argparse
    (MergeCurves.merge_las_files pk las_paths output_path resample_step depth_curve).
Proof.
  unfold MergeCurves.merge_las_files.
  apply only_calls_bind; [apply read_files_calls|intros [[dfs well_info] info]].
  do 3 (apply only_calls_bind; [only_calls_tac|intros ?]).
  apply only_calls_bind; [apply merge_frames_calls|intros ?].
  do 2 (apply only_calls_bind; [only_calls_tac|intros ?]).
  apply only_calls_bind.
  { destruct (MergeCurves.truthy_float resample_step); [|apply only_calls_ret].
    do 6 (apply only_calls_bind; [only_calls_tac|intros ?]).
    apply resample_columns_calls. }
  intros ?.
  do 3 (apply only_calls_bind; [only_calls_tac|intros ?]).
  apply only_calls_bind; [apply copy_well_info_calls|intros ?].
  do 7 (apply only_calls_bind; [only_calls_tac|intros ?]).
  apply only_calls_bind; [apply add_curves_calls|intros ?].
  only_calls_tac.
Qed.

Lemma expand_files_calls pk given files :
  only_calls not_argparse (MergeCurves.expand_files pk given files).
Proof.
  revert files. induction given as [|f rest IH]; intros files;
    cbn [MergeCurves.expand_files]; [apply only_calls_ret|].
  apply only_calls_bind; [|intros ?; apply IH].
  destruct (ValidateSkills.contains "*" f); only_calls_tac.
Qed.

(** *** The parser of batch_process.py *)

Lemma batch_process_parser_run {B} (k : script B) w :
  (_ ← extcall "argparse" "ArgumentParser" (Ok tt);
   _ ← for_each BatchProcessMain.parser_arguments
         (fun _ => extcall "argparse.ArgumentParser" "add_argument" (Ok tt));
   _ ← for_each BatchProcessMain.argument_groups (fun group =>
         _ ← extcall "argparse.ArgumentParser" "add_argument_group" (Ok tt);
         for_each group.2
           (fun _ => extcall "argparse._ArgumentGroup" "add_argument" (Ok tt)));
   k) w
  = k {| calls := calls w
                     ++ removelast BatchProcessMain.main_argparse_calls;
            stdout := stdout w |}.
Proof.
  rewrite bind_extcall. cbn zeta. rewrite for_each_logged_calls.
  unfold BatchProcessMain.argument_groups. cbn [for_each snd].
  cbn [calls stdout].
  repeat first [ rewrite bind_assoc
               | rewrite bind_extcall; cbn zeta; cbn [calls stdout]
               | rewrite bind_ret ].
  rewrite <-!app_assoc. reflexivity.
Qed.

(** C7, as amended. [scripts/validate_skills.py] has no command-line
    interface: in every run, whatever the command line, its [main] makes
    no call into argparse. The argparse-based interface belongs to the
    per-library scripts, here las_to_csv.py, merge_curves.py and
    batch_process.py: in every run [main] makes the argparse calls that
    build its parser and parse the command line, once and in this order,
    and no other call into argparse (but for the [parser.error] call of
    batch_process.py when the filter frequencies are missing); and when
    argparse ends the process the run ends with that status. For
    batch_process.py this holds whatever [batch_process] does, as long as
    it does not call argparse itself. *)
Theorem argparse_in_the_library_scripts_only :
  (forall ev argv w,
     argparse_calls (ValidateSkills.main ev argv w).2 = argparse_calls w)
  /\ (forall pk parse_args argv w,
        let r := LasToCsv.main pk parse_args argv w in
        argparse_calls r.2 = argparse_calls w ++ LasToCsv.main_argparse_calls
        /\ forall code,
             parse_args LasToCsv.parser_arguments argv = inl code ->
             r.1 = Exited code)
  /\ (forall pk parse_args argv w,
        let r := MergeCurves.main pk parse_args argv w in
        argparse_calls r.2 = argparse_calls w ++ MergeCurves.main_argparse_calls
        /\ forall code, parse_args argv = inl code -> r.1 = Exited code)
  /\ (forall parse_args batch_process argv w,
        (forall i out n o, only_calls not_argparse (batch_process i out n o)) ->
        let r := BatchProcessMain.main parse_args batch_process argv w in
        match parse_args argv with
        | inl code =>
            r.1 = Exited code
            /\ argparse_calls r.2
               = argparse_calls w ++ BatchProcessMain.main_argparse_calls
        | inr args =>
            argparse_calls r.2
            = argparse_calls w ++ BatchProcessMain.main_argparse_calls
              ++ (if BatchProcessMain.filter_frequencies_given
                       (BatchProcessMain.keyword_arguments args)
                  then [] else [BatchProcessMain.parser_error_call])
        end).
Proof.
  split; [|split; [|split]].
  - intros ev argv w. apply only_other_calls_argparse, ValidateSkillsProofs.main_calls.
  - intros pk parse_args argv w r. subst r.
    unfold LasToCsv.main. rewrite bind_extcall. cbn zeta.
    rewrite for_each_logged_calls, bind_extcall_or_exit. cbn zeta. cbn [calls stdout].
    assert (Hlog : forall out,
      argparse_calls
        {| calls := ((calls w ++ [{| callee := "argparse"; method := "ArgumentParser" |}])
                     ++ map (fun _ => {| callee := "argparse.ArgumentParser";
                                         method := "add_argument" |})
                          LasToCsv.parser_arguments)
                    ++ [{| callee := "argparse.ArgumentParser"; method := "parse_args" |}];
           stdout := out |}
      = argparse_calls w ++ LasToCsv.main_argparse_calls).
    { intros out. unfold argparse_calls. cbn [calls].
      rewrite !List.filter_app, <-!app_assoc. reflexivity. }
    destruct (parse_args LasToCsv.parser_arguments argv) as [code|args].
    + split; [apply Hlog|]. by intros code' [= ->].
    + split; [|discriminate].
      rewrite only_other_calls_argparse; [apply Hlog|].
      pose proof ValidateSkillsProofs.las_to_csv_calls. only_calls_tac.
  - intros pk parse_args argv w r. subst r.
    unfold MergeCurves.main. rewrite bind_extcall. cbn zeta.
    rewrite for_each_logged_calls, bind_extcall_or_exit. cbn zeta. cbn [calls stdout].
    assert (Hlog : forall out,
      argparse_calls
        {| calls := ((calls w ++ [{| callee := "argparse"; method := "ArgumentParser" |}])
                     ++ map (fun _ => {| callee := "argparse.ArgumentParser";
                                         method := "add_argument" |})
                          MergeCurves.parser_arguments)
                    ++ [{| callee := "argparse.ArgumentParser"; method := "parse_args" |}];
           stdout := out |}
      = argparse_calls w ++ MergeCurves.main_argparse_calls).
    { intros out. unfold argparse_calls. cbn [calls].
      rewrite !List.filter_app, <-!app_assoc. reflexivity. }
    destruct (parse_args argv) as [code|args].
    + split; [apply Hlog|]. by intros code' [= ->].
    + split; [|discriminate].
      rewrite only_other_calls_argparse; [apply Hlog|].
      apply only_calls_bind; [apply expand_files_calls|intros files].
      destruct (length files <? 2)%nat; [only_calls_tac|].
      apply only_calls_bind; [apply merge_las_files_calls|intros ?]. only_calls_tac.
  - intros parse_args batch_process argv w Hbatch r. subst r.
    unfold BatchProcessMain.main. rewrite batch_process_parser_run.
    rewrite bind_extcall_or_exit. cbn zeta. cbn [calls stdout].
    assert (Hlog : forall out,
      argparse_calls
        {| calls := (calls w ++ removelast BatchProcessMain.main_argparse_calls)
                    ++ [{| callee := "argparse.ArgumentParser"; method := "parse_args" |}];
           stdout := out |}
      = argparse_calls w ++ BatchProcessMain.main_argparse_calls).
    { intros out. unfold argparse_calls. cbn [calls].
      rewrite !List.filter_app, <-!app_assoc. reflexivity. }
    assert (Herr : forall out,
      argparse_calls
        {| calls := ((calls w ++ removelast BatchProcessMain.main_argparse_calls)
                     ++ [{| callee := "argparse.ArgumentParser"; method := "parse_args" |}])
                    ++ [{| callee := "argparse.ArgumentParser"; method := "error" |}];
           stdout := out |}
      = argparse_calls w ++ BatchProcessMain.main_argparse_calls
        ++ [BatchProcessMain.parser_error_call]).
    { intros out. unfold argparse_calls. cbn [calls].
      rewrite !List.filter_app, <-!app_assoc. reflexivity. }
    destruct (parse_args argv) as [code|args].
    { cbn [fst snd]. split; [reflexivity|apply Hlog]. }
    unfold BatchProcessMain.filter_frequencies_given, BatchProcessMain.keyword_arguments.
    cbn [BatchProcess.filter_type BatchProcess.freqmin BatchProcess.freqmax
         BatchProcess.freq].
    unfold BatchProcessMain.parser_error.
    assert (Hrest : forall w1,
      argparse_calls
        ((_ ← batch_process (BatchProcessMain.input args) (BatchProcessMain.output args)
                (BatchProcessMain.workers args) (BatchProcessMain.keyword_arguments args);
          mret tt) w1).2 = argparse_calls w1).
    { intros w1. apply only_other_calls_argparse.
      apply only_calls_bind; [apply Hbatch|intros ?; apply only_calls_ret]. }
    fold (BatchProcessMain.keyword_arguments args).
    destruct (bool_decide (BatchProcessMain.filter args = Some "bandpass")) eqn:Hband;
      destruct (bool_decide (BatchProcessMain.filter args = Some "highpass")) eqn:Hhigh;
      destruct (bool_decide (BatchProcessMain.filter args = Some "lowpass")) eqn:Hlow;
      try (apply bool_decide_eq_true in Hband, Hhigh; congruence);
      try (apply bool_decide_eq_true in Hband, Hlow; congruence);
      try (apply bool_decide_eq_true in Hhigh, Hlow; congruence);
      destruct (BatchProcessMain.freqmin args), (BatchProcessMain.freqmax args),
        (BatchProcessMain.freq args);
      cbn [BatchProcessMain.is_none orb andb negb];
      rewrite ?bind_ret, ?bind_extcall_or_exit; cbn zeta; cbn [calls stdout fst snd];
      first [ rewrite Hrest; rewrite app_nil_r; apply Hlog | apply Herr ].
Qed.

End CommandLineProofs.
